(** * FluxDB: table indexes, tablet rows and read preparation

    A shallow embedding of the parts of dfuse-eosio's FluxDB that build,
    serialize and schedule table indexes ([fluxdb/indexing.go]), construct
    tablet rows ([fluxdb/tablet_contract_state.go] and the contract table
    scope tablet) and resolve the block number of a read
    ([fluxdb/grpc/read.go], [fluxdb/server/read.go]).

    Conventions: Go's [uint32], [uint64] and [byte] values are numbers in [N]
    with their wrap-around written out, Go's [int] is [Z], [[]byte] is
    [list byte], Go strings are [string], Go maps are [gmap]s, and a Go
    function that can return an error or panic returns a [result]. *)

From Stdlib Require Import ZArith NArith Lia Ascii String List.
From Stdlib.Strings Require Import Byte.
From stdpp Require Import gmap strings list fin_maps sorting.

Open Scope N_scope.

(** ** Errors *)

(** The errors the embedded functions produce.  [New] stands for
    [errors.New] and [fmt.Errorf] without a wrapped cause, [Wrap] for
    [derr.Wrap], [derr.Wrapf] and [fmt.Errorf] with [%w]; the text is the
    format string.  [Panic] is a Go run-time panic (an index or a slice
    bound out of range). *)
Inductive error : Type :=
| New (msg : string)
| Wrap (msg : string) (cause : error)
| ErrNotFound
| AppBlockNumHigherThanLIBError (blockNum lastWrittenBlockNum : N)
| AppBlockNumHigherThanHeadBlockError (chosenBlockNum headBlockNum lastWrittenBlockNum : N)
| Panic (msg : string).

Inductive result (A : Type) : Type :=
| Ok (a : A)
| Err (e : error).
Arguments Ok {A} a.
Arguments Err {A} e.

Definition bind {A B : Type} (r : result A) (k : A -> result B) : result B :=
  match r with
  | Ok a => k a
  | Err e => Err e
  end.

Definition is_err {A : Type} (r : result A) : bool :=
  match r with
  | Ok _ => false
  | Err _ => true
  end.

(** [wrap msg r] is the Go idiom
    [if err != nil { return derr.Wrap(err, msg) }]. *)
Definition wrap {A : Type} (msg : string) (r : result A) : result A :=
  match r with
  | Ok a => Ok a
  | Err e => Err (Wrap msg e)
  end.

(** [result] is a monad in stdpp's sense: [x ← r; k] is [bind r (λ x, k)]. *)
#[global] Instance result_ret : MRet result := fun A a => Ok a.
#[global] Instance result_bind : MBind result := fun A B k r => bind r k.

(** ** Machine integers and bytes *)

Definition uint32 (n : N) : N := n mod 2 ^ 32.
Definition uint64 (n : N) : N := n mod 2 ^ 64.

(** Go's conversion [byte(v)]: the low eight bits. *)
Definition byte_of (v : N) : byte := default x00 (Byte.of_N (v mod 256)).

(** [b[pos:]]: panics when [pos] is beyond the length. *)
Definition slice_from (b : list byte) (pos : nat) : result (list byte) :=
  if decide (pos <= length b)%nat then Ok (drop pos b)
  else Err (Panic "slice bounds out of range").

(** A write through the sub-slice [b[pos:]] is a write into [b]: the
    sub-slice shares the bytes of [b] from [pos] on.  [through pos f b] runs the
    writer [f] on [b[pos:]] and gives [b] as it is afterwards. *)
Definition through (pos : nat) (f : list byte -> result (list byte))
    (b : list byte) : result (list byte) :=
  tl ← slice_from b pos;
  tl' ← f tl;
  Ok (take pos b ++ tl').

(** The built-in [copy(dst, src)]: copies [min(len(dst), len(src))] bytes
    and gives [dst] as it is afterwards. *)
Definition copy (dst src : list byte) : list byte :=
  take (length dst) src ++ drop (length src) dst.

(** [make([]byte, n)] *)
Definition make (n : nat) : list byte := replicate n x00.

(** The big-endian bytes of [v], [n] of them, most significant first. *)
Fixpoint be_bytes (n : nat) (v : N) : list byte :=
  match n with
  | O => []
  | S n' => byte_of (N.shiftr v (8 * N.of_nat n')) :: be_bytes n' v
  end.

(** The number whose big-endian bytes are [bs]. *)
Definition be_value (bs : list byte) : N :=
  fold_left (fun acc b => acc * 256 + Byte.to_N b) bs 0.

(** [encoding/binary]'s [BigEndian] byte order. *)
Module BigEndian.

Definition PutUint32 (b : list byte) (v : N) : result (list byte) :=
  if decide (length b < 4)%nat then Err (Panic "index out of range")
  else Ok (be_bytes 4 v ++ drop 4 b).

Definition PutUint64 (b : list byte) (v : N) : result (list byte) :=
  if decide (length b < 8)%nat then Err (Panic "index out of range")
  else Ok (be_bytes 8 v ++ drop 8 b).

Definition Uint32 (b : list byte) : result N :=
  if decide (length b < 4)%nat then Err (Panic "index out of range")
  else Ok (be_value (take 4 b)).

Definition Uint64 (b : list byte) : result N :=
  if decide (length b < 8)%nat then Err (Panic "index out of range")
  else Ok (be_value (take 8 b)).

End BigEndian.

(** [encoding/binary]'s [LittleEndian] byte order: the bytes of [v], least
    significant first.  FluxDB never calls it; it is here to state what a
    little-endian field would hold. *)
Module LittleEndian.

Definition bytes (n : nat) (v : N) : list byte := rev (be_bytes n v).

End LittleEndian.

(** Modelled from the spec: the package-level byte order [big] that
    [indexing.go] calls ([big.PutUint32], [big.Uint64], ...) and whose
    declaration is not in that file.  The persisted layout gives the index
    blob as [u32 squelched | 12 zero bytes | repeated <pk_bytes><u32 be
    block_num>], and the tablets of the same package encode with
    [binary.BigEndian]: [big] is [binary.BigEndian]. *)
Module big.
Definition PutUint32 := BigEndian.PutUint32.
Definition PutUint64 := BigEndian.PutUint64.
Definition Uint32 := BigEndian.Uint32.
Definition Uint64 := BigEndian.Uint64.
End big.

(** ** Hexadecimal text *)

Definition hexdigit (d : N) : ascii :=
  if d <? 10 then ascii_of_N (48 + d) else ascii_of_N (87 + d).

(** [fmt.Sprintf("%0wx", v)] for a [v] that fits [w] digits, which the type
    of the argument guarantees at every call ([%02x] of a byte, [%08x] of a
    uint32, [%016x] of a uint64). *)
Fixpoint hex_fixed (w : nat) (v : N) : string :=
  match w with
  | O => EmptyString
  | S w' => String (hexdigit ((v / 16 ^ N.of_nat w') mod 16)) (hex_fixed w' v)
  end.

(** The value of a digit in base 16, as [strconv] reads it: both cases of
    the letters are digits. *)
Definition hexval (c : ascii) : option N :=
  let n := N_of_ascii c in
  if (48 <=? n) && (n <=? 57) then Some (n - 48)
  else if (97 <=? n) && (n <=? 102) then Some (n - 87)
  else if (65 <=? n) && (n <=? 70) then Some (n - 55)
  else None.

Fixpoint parse_digits (s : string) (acc : N) : option N :=
  match s with
  | EmptyString => Some acc
  | String c s' =>
      match hexval c with
      | Some d => parse_digits s' (acc * 16 + d)
      | None => None
      end
  end.

(** [strconv.ParseUint(s, 16, bitSize)]: a syntax error on the empty string
    and on any character that is not a hexadecimal digit (with an explicit
    base there is no prefix and no underscore), a range error when the
    value does not fit [bitSize] bits. *)
Definition ParseUint16 (s : string) (bitSize : N) : result N :=
  match s with
  | EmptyString => Err (New "strconv.ParseUint: invalid syntax")
  | _ =>
      match parse_digits s 0 with
      | None => Err (New "strconv.ParseUint: invalid syntax")
      | Some n =>
          if n <? 2 ^ bitSize then Ok n
          else Err (New "strconv.ParseUint: value out of range")
      end
  end.

(** [strings.Split(s, ":")] *)
Fixpoint split_colon (s : string) : list string :=
  match s with
  | EmptyString => [EmptyString]
  | String c s' =>
      if Ascii.eqb c ":" then EmptyString :: split_colon s'
      else match split_colon s' with
           | h :: t => String c h :: t
           | [] => [String c EmptyString]
           end
  end.

(** [hex.EncodeToString] *)
Definition EncodeToString (bs : list byte) : string :=
  fold_right (fun b s => String.append (hex_fixed 2 (Byte.to_N b)) s) EmptyString bs.

(** ** The table index and its cache ([fluxdb/indexing.go]) *)

Record TableIndex : Type := mkTableIndex {
  AtBlockNum : N;
  Squelched : N;
  Map : gmap string N  (* Map[primaryKey] => blockNum *)
}.

Definition NewTableIndex : TableIndex :=
  {| AtBlockNum := 0; Squelched := 0; Map := ∅ |}.

(** [lastIndexes] holds pointers; a missing key and a [nil] pointer both
    read as [nil], which is [None] here. *)
Record indexCache : Type := mkIndexCache {
  lastIndexes : gmap string TableIndex;
  lastCounters : gmap string Z;
  scheduleIndexing : gmap string N
}.

Definition newIndexCache : indexCache :=
  {| lastIndexes := ∅; lastCounters := ∅; scheduleIndexing := ∅ |}.

Definition GetIndex (t : indexCache) (table : string) : option TableIndex :=
  lastIndexes t !! table.

Definition CacheIndex (t : indexCache) (table : string) (tableIndex : TableIndex)
    : indexCache :=
  {| lastIndexes := <[table := tableIndex]> (lastIndexes t);
     lastCounters := lastCounters t;
     scheduleIndexing := scheduleIndexing t |}.

(** A missing key of a Go map reads as the zero value. *)
Definition GetCount (t : indexCache) (table : string) : Z :=
  default 0%Z (lastCounters t !! table).

(** Go's [int] is 64 bits wide here; [int_wrap] is its wrap-around. *)
Definition int_wrap (z : Z) : Z := ((z + 2 ^ 63) mod 2 ^ 64 - 2 ^ 63)%Z.

Definition IncCount (t : indexCache) (table : string) : indexCache :=
  {| lastIndexes := lastIndexes t;
     lastCounters := <[table := int_wrap (GetCount t table + 1)]> (lastCounters t);
     scheduleIndexing := scheduleIndexing t |}.

Definition ResetCounter (t : indexCache) (table : string) : indexCache :=
  {| lastIndexes := lastIndexes t;
     lastCounters := <[table := 0%Z]> (lastCounters t);
     scheduleIndexing := scheduleIndexing t |}.

(** This algorithm determines the space between the indexes. *)
Definition shouldTriggerIndexing (t : indexCache) (table : string) : bool :=
  let mutatedRowsCount := default 0%Z (lastCounters t !! table) in
  if (mutatedRowsCount <? 1000)%Z then false
  else
    match lastIndexes t !! table with
    | None => true
    | Some lastIndex =>
        let tableRowsCount := Z.of_nat (size (Map lastIndex)) in
        if (tableRowsCount >? 50000)%Z && (mutatedRowsCount <? 5000)%Z then false
        else if (tableRowsCount >? 100000)%Z && (mutatedRowsCount <? 10000)%Z then false
        else true
    end.

Definition ScheduleIndex (t : indexCache) (table : string) (blockNum : N)
    : indexCache :=
  {| lastIndexes := lastIndexes t;
     lastCounters := lastCounters t;
     scheduleIndexing := <[table := blockNum]> (scheduleIndexing t) |}.

Definition IndexingSchedule (t : indexCache) : gmap string N :=
  scheduleIndexing t.

(** [delete(fdb.idxCache.scheduleIndexing, tableKey)] *)
Definition unschedule (t : indexCache) (table : string) : indexCache :=
  {| lastIndexes := lastIndexes t;
     lastCounters := lastCounters t;
     scheduleIndexing := delete table (scheduleIndexing t) |}.

(** *** Primary-key codecs *)

Definition indexPrimaryKeyReader : Type := list byte -> result string.

(** A writer fills the head of [buffer]; the result is [buffer] as it is
    afterwards. *)
Definition indexPrimaryKeyWriter : Type := string -> list byte -> result (list byte).

Definition HasPrefix (s p : string) : bool := String.prefix p s.

Definition indexPrimaryKeyByteCountByTableKey (tableKey : string) : nat :=
  if HasPrefix tableKey "al:" then 16
  else if HasPrefix tableKey "arl:" then 1
  (* Block resource limit has no fields after prefix, so we must match without the : *)
  else if HasPrefix tableKey "brl" then 1
  else if HasPrefix tableKey "ka2:" then 16
  else if HasPrefix tableKey "td:" then 8
  else if HasPrefix tableKey "ts:" then 8
  else 0.

Definition readOneUint64 (buffer : list byte) : result string :=
  if decide (length buffer < 8)%nat
  then Err (New "not enough bytes to read uint64, %d bytes left, wants %d")
  else v ← big.Uint64 buffer; Ok (hex_fixed 16 v).

Definition oneBytePrimaryKeyReaderFactory (tag : string) : indexPrimaryKeyReader :=
  fun buffer =>
    match buffer with
    | [] => Err (New "%s primary key reader: not enough bytes to read, %d bytes left, wants %d")
    | b0 :: _ => Ok (hex_fixed 2 (Byte.to_N b0))
    end.

Definition oneUint64PrimaryKeyReaderFactory (tag : string) : indexPrimaryKeyReader :=
  fun buffer => wrap "%s primary key reader" (readOneUint64 buffer).

Definition twoUint64PrimaryKeyReaderFactory (tag : string) : indexPrimaryKeyReader :=
  fun buffer =>
    if decide (length buffer < 16)%nat
    then Err (New "%s primary key reader: not enough bytes to read, %d bytes left, wants %d")
    else
      chunk1 ← wrap "%s primary key reader, chunk #1" (readOneUint64 buffer);
      rest ← slice_from buffer 8;
      chunk2 ← wrap "%s primary key reader, chunk #2" (readOneUint64 rest);
      Ok (chunk1 +:+ ":" +:+ chunk2).

Definition authLinkIndexPrimaryKeyReader := twoUint64PrimaryKeyReaderFactory "auth link".
Definition accountResourceLimitIndexPrimaryKeyReader :=
  oneBytePrimaryKeyReaderFactory "account resource limit".
Definition blockResourceLimitIndexPrimaryKeyReader :=
  oneBytePrimaryKeyReaderFactory "block resource limit".
Definition keyAccountIndexPrimaryKeyReader := twoUint64PrimaryKeyReaderFactory "key account".
Definition tableDataIndexPrimaryKeyReader := oneUint64PrimaryKeyReaderFactory "table data".
Definition tableScopeIndexPrimaryKeyReader := oneUint64PrimaryKeyReaderFactory "table scope".

Definition indexPrimaryKeyReaderByTableKey (tableKey : string)
    : option indexPrimaryKeyReader :=
  if HasPrefix tableKey "al:" then Some authLinkIndexPrimaryKeyReader
  else if HasPrefix tableKey "arl:" then Some accountResourceLimitIndexPrimaryKeyReader
  else if HasPrefix tableKey "brl" then Some blockResourceLimitIndexPrimaryKeyReader
  else if HasPrefix tableKey "ka2:" then Some keyAccountIndexPrimaryKeyReader
  else if HasPrefix tableKey "td:" then Some tableDataIndexPrimaryKeyReader
  else if HasPrefix tableKey "ts:" then Some tableScopeIndexPrimaryKeyReader
  else None.

Definition writeOneUint64 (primaryKey : string) (buffer : list byte)
    : result (list byte) :=
  value ← wrap "unable to transform primary key to uint64" (ParseUint16 primaryKey 64);
  big.PutUint64 buffer value.

Definition oneBytePrimaryKeyWriterFactory (tag : string) : indexPrimaryKeyWriter :=
  fun primaryKey buffer =>
    value ← wrap "%s primary key writer: unable to transform primary key to byte"
              (ParseUint16 primaryKey 8);
    match buffer with
    | [] => Err (Panic "index out of range")
    | _ :: rest => Ok (byte_of value :: rest)
    end.

Definition oneUint64PrimaryKeyWriterFactory (tag : string) : indexPrimaryKeyWriter :=
  fun primaryKey buffer =>
    wrap "%s primary key writer" (writeOneUint64 primaryKey buffer).

Definition twoUint64PrimaryKeyWriterFactory (tag : string) : indexPrimaryKeyWriter :=
  fun primaryKey buffer =>
    match split_colon primaryKey with
    | [chunk0; chunk1] =>
        buffer ← wrap "%s primary key writer, chunk #1" (writeOneUint64 chunk0 buffer);
        through 8 (fun rest => wrap "%s primary key writer, chunk #2"
                                 (writeOneUint64 chunk1 rest)) buffer
    | _ => Err (New "%s primary key should have 2 chunks, got %d")
    end.

Definition authLinkIndexPrimaryKeyWriter := twoUint64PrimaryKeyWriterFactory "auth link".
Definition accountResourceLimitIndexPrimaryKeyWriter :=
  oneBytePrimaryKeyWriterFactory "account resource limit".
Definition blockResourceLimitIndexPrimaryKeyWriter :=
  oneBytePrimaryKeyWriterFactory "block resource limit".
Definition keyAccountIndexPrimaryKeyWriter := twoUint64PrimaryKeyWriterFactory "key account".
Definition tableDataIndexPrimaryKeyWriter := oneUint64PrimaryKeyWriterFactory "table data".
Definition tableScopeIndexPrimaryKeyWriter := oneUint64PrimaryKeyWriterFactory "table scope".

Definition indexPrimaryKeyWriterByTableKey (tableKey : string)
    : option indexPrimaryKeyWriter :=
  if HasPrefix tableKey "al:" then Some authLinkIndexPrimaryKeyWriter
  else if HasPrefix tableKey "arl:" then Some accountResourceLimitIndexPrimaryKeyWriter
  else if HasPrefix tableKey "brl" then Some blockResourceLimitIndexPrimaryKeyWriter
  else if HasPrefix tableKey "ka2:" then Some keyAccountIndexPrimaryKeyWriter
  else if HasPrefix tableKey "td:" then Some tableDataIndexPrimaryKeyWriter
  else if HasPrefix tableKey "ts:" then Some tableScopeIndexPrimaryKeyWriter
  else None.

(** *** Serialization *)

(** The body of [for primaryKey, blockNum := range index.Map] in
    [MarshalBinary], run over the entries in the order [entries] in which the
    range statement yields them; the state is the buffer and [pos]. *)
Fixpoint marshalEntries (primaryKeyWriter : indexPrimaryKeyWriter)
    (primaryKeyByteCount : nat) (entries : list (string * N))
    (snapshot : list byte) (pos : nat) : result (list byte) :=
  match entries with
  | [] => Ok snapshot
  | (primaryKey, blockNum) :: entries' =>
      snapshot ← wrap "unable to read primary key for table key %q"
                   (through pos (primaryKeyWriter primaryKey) snapshot);
      snapshot ← through (pos + primaryKeyByteCount)
                   (fun b => big.PutUint32 b blockNum) snapshot;
      marshalEntries primaryKeyWriter primaryKeyByteCount entries' snapshot
        (pos + (primaryKeyByteCount + 4))
  end.

(** [index.MarshalBinary(ctx, tableKey)].  Go leaves the order of a range
    over a map unspecified: [order] is the order in which this call's range
    over [index.Map] yields the entries, some permutation of them. *)
Definition MarshalBinary (index : TableIndex) (tableKey : string)
    (order : list (string * N)) : result (list byte) :=
  let primaryKeyByteCount := indexPrimaryKeyByteCountByTableKey tableKey in
  if decide (primaryKeyByteCount = 0)%nat
  then Err (New "unknown primary key byte count for table key %q")
  else
    match indexPrimaryKeyWriterByTableKey tableKey with
    | None => Err (New "unknown primary key writer for table key %q")
    | Some primaryKeyWriter =>
        (* Byte count for primary key + 4 bytes for block num value *)
        let entryByteCount := (primaryKeyByteCount + 4)%nat in
        let snapshot := make (entryByteCount * size (Map index) + 16) in
        snapshot ← big.PutUint32 snapshot (Squelched index);
        marshalEntries primaryKeyWriter primaryKeyByteCount order snapshot 16
    end.

(** The loop [for pos := 16; pos < byteCount; pos += entryByteCount] of
    [NewTableIndexFromBinary].  Each turn advances [pos] by at least 4, so
    [length buffer] turns of [fuel] are never used up. *)
Fixpoint readEntries (fuel : nat) (primaryKeyReader : indexPrimaryKeyReader)
    (primaryKeyByteCount : nat) (buffer : list byte) (pos : nat)
    (mapping : gmap string N) : result (gmap string N) :=
  if decide (pos < length buffer)%nat then
    match fuel with
    | O => Err (Panic "unreachable: loop bound exceeded")
    | S fuel' =>
        rest ← slice_from buffer pos;
        primaryKey ← wrap "unable to read primary key for table key %q"
                       (primaryKeyReader rest);
        rest ← slice_from buffer (pos + primaryKeyByteCount);
        blockNumPtr ← big.Uint32 rest;
        readEntries fuel' primaryKeyReader primaryKeyByteCount buffer
          (pos + (primaryKeyByteCount + 4)) (<[primaryKey := blockNumPtr]> mapping)
    end
  else Ok mapping.

Definition NewTableIndexFromBinary (tableKey : string) (atBlockNum : N)
    (buffer : list byte) : result TableIndex :=
  let primaryKeyByteCount := indexPrimaryKeyByteCountByTableKey tableKey in
  if decide (primaryKeyByteCount = 0)%nat
  then Err (New "unknown primary key byte count for table key %q")
  else
    (* Byte count for primary key + 4 bytes for block num value *)
    let entryByteCount := Z.of_nat (primaryKeyByteCount + 4) in
    (* First 16 bytes are reserved to keep stats in there.. *)
    let byteCount := Z.of_nat (length buffer) in
    if ((byteCount - 16 <? 0) || negb (Z.rem (byteCount - 16) entryByteCount =? 0))%Z
    then Err (New "unable to unmarshal table index: %d bytes alignment + 16 bytes metadata is off (has %d bytes)")
    else
      match indexPrimaryKeyReaderByTableKey tableKey with
      | None => Err (New "unknown primary key writer for table key %q")
      | Some primaryKeyReader =>
          mapping ← readEntries (length buffer) primaryKeyReader primaryKeyByteCount
                      buffer 16 ∅;
          squelched ← big.Uint32 (take 4 buffer);
          Ok {| AtBlockNum := atBlockNum; Squelched := squelched; Map := mapping |}
      end.

(** ** Primary keys and the layout of an index blob *)

(** The text of a primary key as the readers print it: lowercase
    hexadecimal digits, [w] of them. *)
Definition is_lower_hex (c : ascii) : bool :=
  let n := N_of_ascii c in
  ((48 <=? n) && (n <=? 57)) || ((97 <=? n) && (n <=? 102)).

Fixpoint all_lower_hex (s : string) : bool :=
  match s with
  | EmptyString => true
  | String c s' => is_lower_hex c && all_lower_hex s'
  end.

Definition is_hex_key (w : nat) (s : string) : bool :=
  (String.length s =? w)%nat && all_lower_hex s.

Fixpoint str_take (n : nat) (s : string) : string :=
  match n, s with
  | S n', String c s' => String c (str_take n' s')
  | _, _ => EmptyString
  end.

Fixpoint str_drop (n : nat) (s : string) : string :=
  match n, s with
  | S n', String _ s' => str_drop n' s'
  | _, _ => s
  end.

(** The primary keys of a tablet whose keys take [byteCount] bytes in an
    index: two hex digits for one byte, sixteen for a [uint64], and two
    [uint64] chunks of sixteen digits joined by [":"] for sixteen bytes. *)
Definition valid_primary_key (byteCount : nat) (k : string) : bool :=
  match byteCount with
  | 1 => is_hex_key 2 k
  | 8 => is_hex_key 16 k
  | 16 =>
      match str_drop 16 k with
      | String ":" rest => is_hex_key 16 (str_take 16 k) && is_hex_key 16 rest
      | _ => false
      end
  | _ => false
  end%nat.

(** The keys that the writers can put in a blob at all: text that
    [strconv.ParseUint] reads as a number of the field's width. *)
Definition parses (bitSize : N) (s : string) : bool :=
  negb (is_err (ParseUint16 s bitSize)).

Definition writable_key (byteCount : nat) (k : string) : bool :=
  match byteCount with
  | 1 => parses 8 k
  | 8 => parses 64 k
  | 16 =>
      match split_colon k with
      | [chunk0; chunk1] => parses 64 chunk0 && parses 64 chunk1
      | _ => false
      end
  | _ => false
  end%nat.

Definition hex_value (s : string) : N :=
  match parse_digits s 0 with
  | Some n => n
  | None => 0
  end.

(** The primary-key field of an entry: the number, or the two numbers,
    that the key spells, in big-endian bytes. *)
Definition primary_key_field (byteCount : nat) (k : string) : list byte :=
  match byteCount with
  | 1 => be_bytes 1 (hex_value k)
  | 8 => be_bytes 8 (hex_value k)
  | 16 =>
      match split_colon k with
      | [chunk0; chunk1] => be_bytes 8 (hex_value chunk0) ++ be_bytes 8 (hex_value chunk1)
      | _ => []
      end
  | _ => []
  end%nat.

(** An entry [<primary_key:Pb><block_num:u32>], the block number
    big-endian, and a whole blob: the squelched count in four big-endian
    bytes, twelve zero bytes, the entries. *)
Definition index_entry (byteCount : nat) (e : string * N) : list byte :=
  primary_key_field byteCount e.1 ++ be_bytes 4 e.2.

Definition index_blob (byteCount : nat) (squelched : N)
    (entries : list (string * N)) : list byte :=
  be_bytes 4 squelched ++ replicate 12 x00 ++ concat (map (index_entry byteCount) entries).

(** ** Keys *)

(** Modelled from the spec: [HexBlockNum] and [HexRevBlockNum], two helpers
    of package [fluxdb] declared outside the files embedded here.  The hex
    block number of a row key is the lowercase 8-digit hex of [block_num];
    the one of an index key is [fmt("%08x", 0xFFFFFFFF - block_num)]. *)
Definition HexBlockNum (blockNum : N) : string := hex_fixed 8 blockNum.

Definition HexRevBlockNum (blockNum : N) : string :=
  hex_fixed 8 (4294967295 - blockNum).

(** ** Tablet rows *)

(** [pbfluxdb.TabletRow], which every tablet row embeds through
    [BaseTabletRow].  A [nil] payload and an empty one are both [[]]. *)
Record TabletRow : Type := mkTabletRow {
  Collection : string;
  TabletKey : string;
  BlockNumKey : string;
  PrimKey : string;
  Payload : list byte
}.

Section Tablets.

(** [NA(eos.Name(s))]: the [uint64] of an EOS name.  [NA] is declared
    elsewhere in package [fluxdb] and [eos.NameToString] in the eos-go
    library; the tablets only pass their values along. *)
Variable NA : string -> N.
Variable NameToString : N -> string.

(** [ExplodeTabletRowKey], declared elsewhere in package [fluxdb], gives
    [(collection, tabletKey, blockNumKey, primaryKey)] or an error. *)
Variable ExplodeTabletRowKey : string -> result (string * string * string * string).

(** *** Contract state ([fluxdb/tablet_contract_state.go]) *)

Definition cstPrefix : string := "cst".

Definition NewContractStateTablet (contract scope table : string) : string :=
  cstPrefix +:+ "/" +:+ contract +:+ ":" +:+ scope +:+ ":" +:+ table.

Definition ContractStateTablet_Key (t : string) : string := t.

Definition ContractStateTablet_KeyAt (t : string) (blockNum : N) : string :=
  t +:+ "/" +:+ HexBlockNum blockNum.

Definition ContractStateTablet_KeyForRowAt (t : string) (blockNum : N)
    (primaryKey : string) : string :=
  ContractStateTablet_KeyAt t blockNum +:+ "/" +:+ primaryKey.

Definition ContractStateTablet_NewRow (t : string) (blockNum : N)
    (primaryKey payer : string) (data : list byte) (isDeletion : bool)
    : result TabletRow :=
  let row := {| Collection := cstPrefix;
                TabletKey := ContractStateTablet_Key t;
                BlockNumKey := HexBlockNum blockNum;
                PrimKey := primaryKey;
                Payload := [] |} in
  if negb isDeletion then
    let payload := make (length data + 8) in
    payload ← BigEndian.PutUint64 payload (NA payer);
    rest ← slice_from payload 8;
    Ok {| Collection := Collection row;
          TabletKey := TabletKey row;
          BlockNumKey := BlockNumKey row;
          PrimKey := PrimKey row;
          Payload := take 8 payload ++ copy rest data |}
  else Ok row.

Definition ContractStateTablet_NewRowFromKV (t : string) (key : string)
    (value : list byte) : result TabletRow :=
  if decide (length value < 8)%nat
  then Err (New "contract state tablet row value should have at least 8 bytes (payer)")
  else
    match ExplodeTabletRowKey key with
    | Err _ => Err (New "unable to explode tablet row key %q: %s")
    | Ok (_, tabletKey, blockNumKey, primaryKey) =>
        Ok {| Collection := cstPrefix;
              TabletKey := tabletKey;
              BlockNumKey := blockNumKey;
              PrimKey := primaryKey;
              Payload := value |}
    end.

Definition ContractStateRow_Payer (r : TabletRow) : result string :=
  v ← BigEndian.Uint64 (Payload r); Ok (NameToString v).

Definition ContractStateRow_Data (r : TabletRow) : result (list byte) :=
  slice_from (Payload r) 8.

(** *** Contract table scope *)

Definition ctblsPrefix : string := "ctbls".

Definition NewContractTableScopeTablet (contract table : string) : string :=
  ctblsPrefix +:+ "/" +:+ contract +:+ ":" +:+ table.

Definition ContractTableScopeTablet_Key (t : string) : string := t.

Definition ContractTableScopeTablet_NewRow (t : string) (blockNum : N)
    (scope payer : string) (isDeletion : bool) : result TabletRow :=
  let row := {| Collection := ctblsPrefix;
                TabletKey := ContractTableScopeTablet_Key t;
                BlockNumKey := HexBlockNum blockNum;
                PrimKey := scope;
                Payload := [] |} in
  if negb isDeletion then
    payload ← BigEndian.PutUint64 (make 8) (NA payer);
    Ok {| Collection := Collection row;
          TabletKey := TabletKey row;
          BlockNumKey := BlockNumKey row;
          PrimKey := PrimKey row;
          Payload := payload |}
  else Ok row.

Definition ContractTableScopeTablet_NewRowFromKV (t : string) (key : string)
    (value : list byte) : result TabletRow :=
  if (length value =? 0)%nat || (length value =? 8)%nat
  then Err (New "contract table scope row value should have at 0 byte (deletion) or 8 bytes (payer)")
  else
    match ExplodeTabletRowKey key with
    | Err _ => Err (New "unable to explode tablet row key %q: %s")
    | Ok (_, tabletKey, blockNumKey, primaryKey) =>
        Ok {| Collection := ctblsPrefix;
              TabletKey := tabletKey;
              BlockNumKey := blockNumKey;
              PrimKey := primaryKey;
              Payload := value |}
    end.

Definition ContractTableScopeRow_Payer (r : TabletRow) : result string :=
  v ← BigEndian.Uint64 (Payload r); Ok (NameToString v).

End Tablets.

(** ** Preparing a read ([fluxdb/grpc/read.go], [fluxdb/server/read.go]) *)

(** [bstream.BlockRef]: [Num()] is a [uint64]. *)
Record BlockRef : Type := mkBlockRef {
  ID : string;
  Num : N
}.

(** Modelled from the spec: [fluxdb.WriteRequest], the atomic per-block
    batch [{ block_id, block_num, prev_block_id, tablet_rows[], ... }];
    [prepareRead] reads its [BlockID] only. *)
Record WriteRequest : Type := mkWriteRequest {
  BlockID : list byte;
  BlockNum : N;
  PrevBlockID : list byte;
  TabletRows : list TabletRow
}.

(** What [prepareRead] asks of [srv.db]. *)
Record ReadDB : Type := mkReadDB {
  FetchLastWrittenBlock : result BlockRef;
  HeadBlock : BlockRef;
  SpeculativeWritesFetcher : string -> N -> list WriteRequest
}.

(** The named results of [prepareRead]; a bare [return] gives them as they
    are at that point. *)
Record prepared : Type := mkPrepared {
  chosenBlockNum : N;
  lastWrittenBlockID : string;
  upToBlockID : string;
  speculativeWrites : list WriteRequest;
  err : option error
}.

Definition set_chosenBlockNum (v : N) (r : prepared) : prepared :=
  {| chosenBlockNum := v; lastWrittenBlockID := lastWrittenBlockID r;
     upToBlockID := upToBlockID r; speculativeWrites := speculativeWrites r;
     err := err r |}.

Definition set_upToBlockID (v : string) (r : prepared) : prepared :=
  {| chosenBlockNum := chosenBlockNum r; lastWrittenBlockID := lastWrittenBlockID r;
     upToBlockID := v; speculativeWrites := speculativeWrites r;
     err := err r |}.

Definition set_speculativeWrites (v : list WriteRequest) (r : prepared) : prepared :=
  {| chosenBlockNum := chosenBlockNum r; lastWrittenBlockID := lastWrittenBlockID r;
     upToBlockID := upToBlockID r; speculativeWrites := v;
     err := err r |}.

Definition set_err (e : error) (r : prepared) : prepared :=
  {| chosenBlockNum := chosenBlockNum r; lastWrittenBlockID := lastWrittenBlockID r;
     upToBlockID := upToBlockID r; speculativeWrites := speculativeWrites r;
     err := Some e |}.

(** [Server.prepareRead] and [EOSServer.prepareRead]: the two bodies are
    the same statement for statement (they differ in how the first error
    is wrapped, [derr.Wrap] or [fmt.Errorf] with [%w]). *)
Definition prepareRead (db : ReadDB) (blockNum : N) (irreversibleOnly : bool)
    : prepared :=
  let ret := {| chosenBlockNum := 0; lastWrittenBlockID := EmptyString;
                upToBlockID := EmptyString; speculativeWrites := [];
                err := None |} in
  match FetchLastWrittenBlock db with
  | Err e => set_err (Wrap "unable to retrieve last written block id" e) ret
  | Ok lastWrittenBlock =>
      let lastWrittenBlockNum := uint32 (Num lastWrittenBlock) in
      if irreversibleOnly then
        if lastWrittenBlockNum <? blockNum
        then set_err (AppBlockNumHigherThanLIBError blockNum lastWrittenBlockNum) ret
        else
          if chosenBlockNum ret =? 0
          then set_chosenBlockNum lastWrittenBlockNum ret
          else ret
      else
        let headBlock := HeadBlock db in
        let headBlockNum := uint32 (Num headBlock) in
        let ret := set_chosenBlockNum blockNum ret in
        let ret := if chosenBlockNum ret =? 0
                   then set_chosenBlockNum headBlockNum ret else ret in
        if headBlockNum <? chosenBlockNum ret
        then set_err (AppBlockNumHigherThanHeadBlockError (chosenBlockNum ret)
                        headBlockNum lastWrittenBlockNum) ret
        else
          (* If we're between lastWrittenBlockNum and headBlockNum, we need to
             apply whatever's between *)
          let ret := set_speculativeWrites
                       (SpeculativeWritesFetcher db (ID headBlock) (chosenBlockNum ret))
                       ret in
          match last (speculativeWrites ret) with
          | Some wr => set_upToBlockID (EncodeToString (BlockID wr)) ret
          | None => ret
          end
  end.

(** ** Building the indexes ([FluxDB.IndexTables], [FluxDB.getIndex]) *)

(** The snapshot of [tableKey] at block [n], as the specification has it
    persisted: the entry of the index table stored under the key of the
    table, [":"] and the reverse hex of [n]. *)
Definition snapshot_at (entries : gmap string (list byte)) (tableKey : string)
    (n : N) : option (list byte) :=
  entries !! (tableKey +:+ ":" +:+ HexRevBlockNum n).

(** The latest snapshot at or before [n], in the words of the
    specification: the first block, from [n] down to 0, at which a
    snapshot is persisted, with the blob persisted there. *)
Fixpoint latest_snapshot_from (fuel : nat) (entries : gmap string (list byte))
    (tableKey : string) (n : N) : option (N * list byte) :=
  match snapshot_at entries tableKey n with
  | Some raw => Some (n, raw)
  | None =>
      match fuel with
      | O => None
      | S fuel' =>
          if n =? 0 then None
          else latest_snapshot_from fuel' entries tableKey (n - 1)
      end
  end.

Definition latest_snapshot (entries : gmap string (list byte)) (tableKey : string)
    (blockNum : N) : option (N * list byte) :=
  latest_snapshot_from (N.to_nat blockNum) entries tableKey blockNum.

Section IndexTables.

(** [fdb.store] and the write batch opened on it are code of package
    [fluxdb/store]; [IndexTables] only calls them.  [Backend] is the
    state of the two together, threaded through the calls. *)
Variable Backend : Type.
Variable NewBatch : Backend -> Backend.
Variable FlushIfFull : Backend -> result Backend.
Variable SetIndex : string -> list byte -> Backend -> Backend.
Variable Flush : Backend -> result Backend.
Variable FetchIndex : Backend -> string -> string -> string -> result (string * list byte).

(** [ScanTabletRows] hands every row of the range to its callback, in
    key order: the list is those rows, an error a failure of the store. *)
Variable ScanTabletRows : Backend -> string -> string -> result (list (string * list byte)).

(** The entries of the index table as the store holds them, by key: what
    [FetchIndex] looks into.  Only [spec_build] reads it. *)
Variable IndexEntries : Backend -> gmap string (list byte).

(** Two helpers of package [fluxdb] declared outside [indexing.go]. *)
Variable explodeWritableRowKey : string -> result (string * N * string).
Variable chunkKeyRevBlockNum : string -> string -> result N.

(** The order in which [MarshalBinary]'s range over the map of an index
    yields its entries. *)
Variable rangeOrder : TableIndex -> list (string * N).

Definition getIndex (b : Backend) (tableKey : string) (blockNum : N)
    : result (option TableIndex) :=
  let prefixKey := tableKey +:+ ":" in
  let startIndexKey := prefixKey +:+ HexRevBlockNum blockNum in
  match FetchIndex b tableKey prefixKey startIndexKey with
  | Err ErrNotFound => Ok None
  | Err e => Err e
  | Ok (rowKey, rawIndex) =>
      indexBlockNum ← wrap "couldn't infer block num in table index's row key"
                        (chunkKeyRevBlockNum rowKey prefixKey);
      index ← wrap "couldn't unmarshal binary index"
                (NewTableIndexFromBinary tableKey indexBlockNum rawIndex);
      Ok (Some index)
  end.

(** The callback [IndexTables] gives to [ScanTabletRows]; it updates
    [index.Map] and [count]. *)
Definition scanRow (acc : gmap string N * Z) (row : string * list byte)
    : result (gmap string N * Z) :=
  let '(indexMap, count) := acc in
  let '(key, value) := row in
  match explodeWritableRowKey key with
  | Err e => Err (Wrap "couldn't parse row key %q: %w" e)
  | Ok (_, blockNum, primKey) =>
      let count := int_wrap (count + 1) in
      if (length value =? 0)%nat
      then Ok (delete primKey indexMap, count)
      else Ok (<[primKey := blockNum]> indexMap, count)
  end.

Fixpoint scanRows (rows : list (string * list byte)) (acc : gmap string N * Z)
    : result (gmap string N * Z) :=
  match rows with
  | [] => Ok acc
  | row :: rows' => acc ← scanRow acc row; scanRows rows' acc
  end.

(** The part of the loop body of [IndexTables] that builds the index of
    [tableKey] at [blockNum]: from the lookup in the cache to the
    assignments of [index.AtBlockNum] and [index.Squelched].  [cached] is
    [fdb.idxCache.GetIndex(tableKey)]. *)
Definition buildIndex (b : Backend) (cached : option TableIndex)
    (tableKey : string) (blockNum : N) : result TableIndex :=
  index ← match cached with
          | Some index => Ok index
          | None =>
              index ← wrap "get index %s (%d)" (getIndex b tableKey blockNum);
              match index with
              | Some index => Ok index
              | None => Ok NewTableIndex
              end
          end;
  let firstRowKey := tableKey +:+ ":" +:+ HexBlockNum (uint32 (AtBlockNum index + 1)) in
  let lastRowKey := tableKey +:+ ":" +:+ HexBlockNum (uint32 (blockNum + 1)) in
  '(indexMap, count) ← wrap "read rows"
                         (rows ← ScanTabletRows b firstRowKey lastRowKey;
                          scanRows rows (Map index, 0%Z));
  Ok {| AtBlockNum := blockNum;
        Squelched := Z.to_N (count mod 2 ^ 32);
        Map := indexMap |}.

(** One turn of [for tableKey, blockNum := range fdb.idxCache.scheduleIndexing].
    When the index comes from the cache, [index] is the cached object
    itself and the scan updates its map in place; a turn that fails ends
    [IndexTables] with its error, and the embedding says nothing of the
    cache that a failed run leaves behind. *)
Definition indexTable (st : Backend * indexCache) (tableKey : string)
    (blockNum : N) : result (Backend * indexCache) :=
  let '(batch, idxCache) := st in
  batch ← wrap "flush if full" (FlushIfFull batch);
  index ← buildIndex batch (GetIndex idxCache tableKey) tableKey blockNum;
  snapshot ← wrap "unable to marshal table index to binary"
               (MarshalBinary index tableKey (rangeOrder index));
  let indexKey := tableKey +:+ ":" +:+ HexRevBlockNum (AtBlockNum index) in
  let batch := SetIndex indexKey snapshot batch in
  let idxCache := CacheIndex idxCache tableKey index in
  let idxCache := ResetCounter idxCache tableKey in
  let idxCache := unschedule idxCache tableKey in
  Ok (batch, idxCache).

Fixpoint indexTablesLoop (schedule : list (string * N))
    (st : Backend * indexCache) : result (Backend * indexCache) :=
  match schedule with
  | [] => Ok st
  | (tableKey, blockNum) :: schedule' =>
      st ← indexTable st tableKey blockNum;
      indexTablesLoop schedule' st
  end.

(** [fdb.IndexTables(ctx)].  [schedule] is the order in which the range
    over [fdb.idxCache.scheduleIndexing] yields its entries; the loop
    deletes only the entry it is at, so the range yields every entry of
    the map as it is on entry, once. *)
Definition IndexTables (schedule : list (string * N))
    (fdb : Backend * indexCache) : result (Backend * indexCache) :=
  let '(store, idxCache) := fdb in
  let batch := NewBatch store in
  '(batch, idxCache) ← indexTablesLoop schedule (batch, idxCache);
  batch ← wrap "final flush" (Flush batch);
  Ok (batch, idxCache).

(** What a scan leaves under the primary key [primKey], row after row:
    the block number of a row with a value, nothing after a row without
    one, and what was there before for the rows of the other keys. *)
Fixpoint entry_after_rows (rows : list (string * list byte)) (primKey : string)
    (before : option N) : option N :=
  match rows with
  | [] => before
  | (key, value) :: rows' =>
      match explodeWritableRowKey key with
      | Ok (_, blockNum, primKey') =>
          if decide (primKey' = primKey)
          then entry_after_rows rows' primKey
                 (if (length value =? 0)%nat then None else Some blockNum)
          else entry_after_rows rows' primKey before
      | Err _ => entry_after_rows rows' primKey before
      end
  end.

(** The build as the specification words it, for comparison with
    [indexTable]: load the latest snapshot at or before [blockNum] from
    the index table of the store (an empty index when there is none),
    scan the rows from the block after it through [blockNum], and finish
    with [AtBlockNum = blockNum] and [Squelched] the number of rows
    scanned.  It looks the snapshot up with [latest_snapshot], not with
    [getIndex]. *)
Definition spec_build (b : Backend) (tableKey : string) (blockNum : N)
    : result TableIndex :=
  S ← match latest_snapshot (IndexEntries b) tableKey blockNum with
      | Some (n, raw) => NewTableIndexFromBinary tableKey n raw
      | None => Ok NewTableIndex
      end;
  rows ← ScanTabletRows b
           (tableKey +:+ ":" +:+ HexBlockNum (uint32 (AtBlockNum S + 1)))
           (tableKey +:+ ":" +:+ HexBlockNum (uint32 (blockNum + 1)));
  '(indexMap, _) ← scanRows rows (Map S, 0%Z);
  Ok {| AtBlockNum := blockNum;
        Squelched := N.of_nat (length rows);
        Map := indexMap |}.

End IndexTables.

(** *** The contract of the store *)

(** Modelled from the spec: the contract of [FetchIndex], a function of
    package [fluxdb/store]:
    [FetchIndex(tablet_key, prefix, start) → (key, value) | NotFound],
    the first entry with [key ≥ start && key has prefix].  [entries] is
    the index table and [r] what the call returns. *)
Definition first_index_entry (entries : gmap string (list byte))
    (prefixKey startKey : string) (r : result (string * list byte)) : Prop :=
  match r with
  | Ok (key, value) =>
      entries !! key = Some value /\
      String.leb startKey key = true /\
      HasPrefix key prefixKey = true /\
      forall key' value',
        entries !! key' = Some value' ->
        String.leb startKey key' = true ->
        HasPrefix key' prefixKey = true ->
        String.leb key key' = true
  | Err e =>
      e = ErrNotFound /\
      forall key' value',
        entries !! key' = Some value' ->
        String.leb startKey key' = true ->
        HasPrefix key' prefixKey = true ->
        False
  end.

(** Modelled from the spec: a snapshot is stored under
    [T/<hex_rev(at_block_num)>].  An index table holds under the prefix
    of [tableKey] only snapshots of [tableKey] when every key with that
    prefix is the key of a snapshot at a [uint32] block. *)
Definition snapshots_only (entries : gmap string (list byte)) (tableKey : string)
    : Prop :=
  forall key raw,
    entries !! key = Some raw ->
    HasPrefix key (tableKey +:+ ":") = true ->
    exists n, n < 2 ^ 32 /\ key = tableKey +:+ ":" +:+ HexRevBlockNum n.

(** Modelled from the spec: the contract of [Scan], a function of package
    [fluxdb/store]: [Scan(start, end, callback)] covers the keys from
    [start] inclusive to [end] exclusive.  [table] is the row table and
    [rows] what a scan hands to its callback. *)
Definition scanned_rows (table rows : list (string * list byte))
    (startKey endKey : string) : Prop :=
  forall row,
    row ∈ rows <->
    row ∈ table /\ String.leb startKey row.1 = true /\ String.ltb row.1 endKey = true.

(** ** A store to run [IndexTables] on *)

(** Modelled from the spec: the KV backend of package [fluxdb/store], by
    its contract.  [Scan(start, end, callback)] covers the keys from
    [start] inclusive to [end] exclusive in lexicographic order;
    [FetchIndex(tablet_key, prefix, start)] gives the first entry with
    [key ≥ start && key has prefix], or NotFound; a batch collects
    [SetIndex] writes until it is flushed.  [kvRows] is kept in key
    order; [kvIndexes] is the index table, by key. *)
Record KV : Type := mkKV {
  kvRows : list (string * list byte);
  kvIndexes : gmap string (list byte);
  kvBatch : list (string * list byte)
}.

Definition KV_ScanTabletRows (kv : KV) (startKey endKey : string)
    : result (list (string * list byte)) :=
  Ok (filter (fun row => String.leb startKey row.1 && String.ltb row.1 endKey = true)
        (kvRows kv)).

(** The first of [entries] in key order. *)
Definition first_entry (entries : list (string * list byte))
    : option (string * list byte) :=
  foldr (fun e best =>
           match best with
           | Some e' => if String.leb e.1 e'.1 then Some e else Some e'
           | None => Some e
           end) None entries.

Definition KV_FetchIndex (kv : KV) (tableKey prefixKey startKey : string)
    : result (string * list byte) :=
  match first_entry
          (filter (fun row => String.leb startKey row.1 && HasPrefix row.1 prefixKey = true)
             (map_to_list (kvIndexes kv))) with
  | Some row => Ok row
  | None => Err ErrNotFound
  end.

Definition KV_NewBatch (kv : KV) : KV :=
  {| kvRows := kvRows kv; kvIndexes := kvIndexes kv; kvBatch := [] |}.

Definition KV_SetIndex (key : string) (value : list byte) (kv : KV) : KV :=
  {| kvRows := kvRows kv; kvIndexes := kvIndexes kv;
     kvBatch := kvBatch kv ++ [(key, value)] |}.

Definition KV_Flush (kv : KV) : result KV :=
  Ok {| kvRows := kvRows kv;
        kvIndexes := fold_left (fun m e => <[e.1 := e.2]> m) (kvBatch kv) (kvIndexes kv);
        kvBatch := [] |}.

(** The batch of this store is never full. *)
Definition KV_FlushIfFull (kv : KV) : result KV := Ok kv.

(** Modelled from the spec: [explodeWritableRowKey] and
    [chunkKeyRevBlockNum], declared outside [indexing.go].  A row key is
    [<tablet>/<hex-block-num>/<primary-key>] and an index key
    [<tablet>/<hex-rev-block-num>], here with the [":"] separator that
    [IndexTables] and [getIndex] put between the table key and the block
    number; exploding gives the table key, the block number and the
    primary key (the last field). *)
Definition join_colon (chunks : list string) : string :=
  match chunks with
  | [] => EmptyString
  | c :: cs => fold_left (fun acc x => acc +:+ ":" +:+ x) cs c
  end.

Definition explodeWritableRowKey_model (rowKey : string) : result (string * N * string) :=
  match reverse (split_colon rowKey) with
  | primKey :: blockNumKey :: tableParts =>
      if (String.length blockNumKey =? 8)%nat then
        blockNum ← ParseUint16 blockNumKey 32;
        Ok (join_colon (reverse tableParts), blockNum, primKey)
      else Err (New "block num key should be 8 hexadecimal characters")
  | _ => Err (New "row key should have a table key, a block num and a primary key")
  end.

Definition chunkKeyRevBlockNum_model (key prefixKey : string) : result N :=
  if HasPrefix key prefixKey then
    let chunk := String.substring (String.length prefixKey)
                   (String.length key - String.length prefixKey) key in
    if (String.length chunk =? 8)%nat then
      revBlockNum ← ParseUint16 chunk 32;
      Ok (4294967295 - revBlockNum)
    else Err (New "rev block num should be 8 hexadecimal characters")
  else Err (New "key does not start with the prefix").

(** ** EOS names *)

(** The name codec of the eos-go library, after EOSIO's [name.hpp]: a name
    is up to 13 characters of [.12345a-z] packed into a [uint64], five bits
    a character and four for the thirteenth.  It is outside this
    repository: the tablets take the codec as a parameter, and this
    instance is there to run them on names. *)
Definition charToSymbol (c : ascii) : N :=
  let n := N_of_ascii c in
  if (97 <=? n) && (n <=? 122) then n - 97 + 6
  else if (49 <=? n) && (n <=? 53) then n - 49 + 1
  else 0.

Definition StringToName (s : string) : N :=
  fold_left
    (fun val i =>
       let c := match String.get i s with
                | Some ch => charToSymbol ch
                | None => 0
                end in
       N.lor val (if (i <? 12)%nat
                  then N.shiftl (N.land c 31) (64 - 5 * (N.of_nat i + 1))
                  else N.land c 15))
    (seq 0 13) 0.

Definition base32Alphabet : string := ".12345abcdefghijklmnopqrstuvwxyz".

Fixpoint trimRightDots (s : string) : string :=
  match s with
  | EmptyString => EmptyString
  | String c s' =>
      match trimRightDots s' with
      | EmptyString => if Ascii.eqb c "." then EmptyString else String c EmptyString
      | t => String c t
      end
  end.

Definition NameToString (v : N) : string :=
  trimRightDots
    (string_of_list_ascii
       (map (fun p =>
               let sym := if (p <? 12)%nat
                          then N.land (N.shiftr v (64 - 5 * (N.of_nat p + 1))) 31
                          else N.land v 15 in
               default "."%char (String.get (N.to_nat sym) base32Alphabet))
          (seq 0 13))).

(** ** Sample data *)

(** A store whose last written block is 10 and whose head is 12. *)
Definition db_lib10_head12 : ReadDB :=
  {| FetchLastWrittenBlock := Ok {| ID := "0000000a"; Num := 10 |};
     HeadBlock := {| ID := "0000000c"; Num := 12 |};
     SpeculativeWritesFetcher := fun _ _ => [] |}.

(** The index of a table-scope tablet built at block 7 over two scopes,
    three rows squelched, and one whose key is not hexadecimal text. *)
Definition sample_index : TableIndex :=
  {| AtBlockNum := 7;
     Squelched := 3;
     Map := <["0000000000000002" := 9]> (<["0000000000000001" := 5]> ∅) |}.

Definition sample_index_bad_key : TableIndex :=
  {| AtBlockNum := 7; Squelched := 3; Map := <["eosio" := 5]> ∅ |}.

(** An index whose key the writer can parse but no reader prints: one
    digit, in upper case. *)
Definition sample_index_short_key : TableIndex :=
  {| AtBlockNum := 7; Squelched := 3; Map := <["A" := 5]> ∅ |}.

(** The store instantiated in [IndexTables]; the range over the map of an
    index yields its entries in the order of [map_to_list]. *)
Definition KV_getIndex := getIndex KV KV_FetchIndex chunkKeyRevBlockNum_model.

Definition KV_buildIndex :=
  buildIndex KV KV_FetchIndex KV_ScanTabletRows explodeWritableRowKey_model
    chunkKeyRevBlockNum_model.

Definition KV_spec_build :=
  spec_build KV KV_ScanTabletRows kvIndexes explodeWritableRowKey_model.

Definition KV_IndexTables :=
  IndexTables KV KV_NewBatch KV_FlushIfFull KV_SetIndex KV_Flush KV_FetchIndex
    KV_ScanTabletRows explodeWritableRowKey_model chunkKeyRevBlockNum_model
    (fun index => map_to_list (Map index)).

(** A table-scope tablet with one row at each of the blocks 2, 4 and 6,
    snapshots persisted at block 3 (the scope of block 2) and at block 5
    (the scopes of blocks 2 and 4), the index of block 3 in the cache, and
    an indexing scheduled at block 7: a store that an earlier run has
    indexed up to block 5, in a run that has come to block 3 so far. *)
Definition sample_table : string := "ts:eosio:accounts".

Definition sample_snapshot : TableIndex :=
  {| AtBlockNum := 5;
     Squelched := 2;
     Map := <["0000000000000002" := 4]> (<["0000000000000001" := 2]> ∅) |}.

Definition sample_store : KV :=
  {| kvRows := [("ts:eosio:accounts:00000002:0000000000000001", [x01]);
                ("ts:eosio:accounts:00000004:0000000000000002", [x01]);
                ("ts:eosio:accounts:00000006:0000000000000003", [x01])];
     kvIndexes :=
       <["ts:eosio:accounts:fffffffa" :=
           index_blob 8 2 [("0000000000000001", 2); ("0000000000000002", 4)]]>
         (<["ts:eosio:accounts:fffffffc" := index_blob 8 1 [("0000000000000001", 2)]]> ∅);
     kvBatch := [] |}.

Definition sample_cache : indexCache :=
  {| lastIndexes := <[sample_table := {| AtBlockNum := 3;
                                         Squelched := 1;
                                         Map := <["0000000000000001" := 2]> ∅ |}]> ∅;
     lastCounters := <[sample_table := 1500%Z]> ∅;
     scheduleIndexing := <[sample_table := 7]> ∅ |}.

(** ** More of the tablets *)

(** [strings.Split(s, sep)] for a separator of one character. *)
Fixpoint Split (sep : ascii) (s : string) : list string :=
  match s with
  | EmptyString => [EmptyString]
  | String c s' =>
      if Ascii.eqb c sep then EmptyString :: Split sep s'
      else match Split sep s' with
           | h :: t => String c h :: t
           | [] => [String c EmptyString]
           end
  end.

(** Whether the character [a] occurs in [s]. *)
Fixpoint has_char (a : ascii) (s : string) : bool :=
  match s with
  | EmptyString => false
  | String c s' => Ascii.eqb c a || has_char a s'
  end.

(** The operations of [pbcodec.DBOp] and [pbcodec.TableOp], and the fields
    of the two that the row constructors read (the generated protobuf
    types are declared outside the files embedded here). *)
Inductive DBOp_Operation : Type :=
| DBOp_OPERATION_UNKNOWN
| DBOp_OPERATION_INSERT
| DBOp_OPERATION_UPDATE
| DBOp_OPERATION_REMOVE.

Record DBOp : Type := mkDBOp {
  DBOp_Op : DBOp_Operation;
  DBOp_Code : string;
  DBOp_Scope : string;
  DBOp_TableName : string;
  DBOp_PrimaryKey : string;
  DBOp_NewPayer : string;
  DBOp_NewData : list byte
}.

Inductive TableOp_Operation : Type :=
| TableOp_OPERATION_UNKNOWN
| TableOp_OPERATION_INSERT
| TableOp_OPERATION_REMOVE.

Record TableOp : Type := mkTableOp {
  TableOp_Op : TableOp_Operation;
  TableOp_Code : string;
  TableOp_Scope : string;
  TableOp_TableName : string;
  TableOp_Payer : string
}.

Section TabletsMore.

Variable NA : string -> N.
Variable NameToString : N -> string.

(** [ContractStateTablet.Explode]: an index out of range is a panic. *)
Definition ContractStateTablet_Explode (t : string)
    : result (string * string * string * string) :=
  let segments := Split "/" t in
  match segments !! 1%nat with
  | None => Err (Panic "index out of range")
  | Some segment1 =>
      let tabletParts := Split ":" segment1 in
      match segments !! 0%nat, tabletParts !! 0%nat, tabletParts !! 1%nat,
            tabletParts !! 2%nat with
      | Some collection, Some contract, Some scope, Some table =>
          Ok (collection, contract, scope, table)
      | _, _, _, _ => Err (Panic "index out of range")
      end
  end.

Definition ContractStateTablet_PrimaryKeyByteCount (t : string) : nat := 8.

Definition ContractStateTablet_EncodePrimaryKey (t : string) (buffer : list byte)
    (primaryKey : string) : result (list byte) :=
  BigEndian.PutUint64 buffer (NA primaryKey).

Definition ContractStateTablet_DecodePrimaryKey (t : string) (buffer : list byte)
    : result string :=
  v ← BigEndian.Uint64 buffer; Ok (NameToString v).

Definition NewContractStateRow (blockNum : N) (op : DBOp) : result TabletRow :=
  let tablet := NewContractStateTablet (DBOp_Code op) (DBOp_Scope op) (DBOp_TableName op) in
  let isDeletion := match DBOp_Op op with
                    | DBOp_OPERATION_REMOVE => true
                    | _ => false
                    end in
  let payer := if negb isDeletion then DBOp_NewPayer op else EmptyString in
  let data := if negb isDeletion then DBOp_NewData op else [] in
  ContractStateTablet_NewRow NA tablet blockNum (DBOp_PrimaryKey op) payer data isDeletion.

(** [ContractTableScopeTablet.Explode] *)
Definition ContractTableScopeTablet_Explode (t : string)
    : result (string * string * string) :=
  let segments := Split "/" t in
  match segments !! 1%nat with
  | None => Err (Panic "index out of range")
  | Some segment1 =>
      let tabletParts := Split ":" segment1 in
      match segments !! 0%nat, tabletParts !! 0%nat, tabletParts !! 1%nat with
      | Some collection, Some contract, Some table => Ok (collection, contract, table)
      | _, _, _ => Err (Panic "index out of range")
      end
  end.

Definition ContractTableScopeTablet_KeyAt (t : string) (blockNum : N) : string :=
  t +:+ "/" +:+ HexBlockNum blockNum.

Definition ContractTableScopeTablet_KeyForRowAt (t : string) (blockNum : N)
    (primaryKey : string) : string :=
  ContractTableScopeTablet_KeyAt t blockNum +:+ "/" +:+ primaryKey.

Definition ContractTableScopeTablet_PrimaryKeyByteCount (t : string) : nat := 8.

Definition ContractTableScopeTablet_EncodePrimaryKey (t : string) (buffer : list byte)
    (primaryKey : string) : result (list byte) :=
  BigEndian.PutUint64 buffer (NA primaryKey).

Definition ContractTableScopeTablet_DecodePrimaryKey (t : string) (buffer : list byte)
    : result string :=
  v ← BigEndian.Uint64 buffer; Ok (NameToString v).

Definition NewContractTableScopeRow (blockNum : N) (op : TableOp) : result TabletRow :=
  let tablet := NewContractTableScopeTablet (TableOp_Code op) (TableOp_TableName op) in
  let isDeletion := match TableOp_Op op with
                    | TableOp_OPERATION_REMOVE => true
                    | _ => false
                    end in
  let payer := if negb isDeletion then TableOp_Payer op else EmptyString in
  ContractTableScopeTablet_NewRow NA tablet blockNum (TableOp_Scope op) payer isDeletion.

End TabletsMore.

(** ** Listing the scopes of a table ([fluxdb/server/read.go], the gRPC server) *)

(** What [listTableScopes] and [GetTableScopes] ask of [srv.db] besides
    what [prepareRead] asks. *)
Record ScopesDB : Type := mkScopesDB {
  ReadTableScopes : N -> string -> string -> list WriteRequest
                    -> list string * option error;
  ReadTabletAt : N -> string -> list WriteRequest -> result (list TabletRow);
  HasSeenTableOnce : string -> string -> result bool
}.

(** [pbfluxdb.TableScopeResponse] *)
Record TableScopeResponse : Type := mkTableScopeResponse {
  Response_BlockNum : N;
  Response_Scope : string
}.

Section FrontEnd.

(** [fluxdb.DataTableNotFoundError(ctx, account, table)], declared outside
    the files embedded here. *)
Variable DataTableNotFoundError : string -> string -> error.

(** [ContractTableScopeRow.Scope()], declared outside the files embedded
    here, and [sort.Slice] with the comparison [out[i] < out[j]]. *)
Variable Scope : TabletRow -> string.
Variable sort_Slice : list string -> list string.

(** [EOSServer.listTableScopes]: the named results [(scopes,
    actualBlockNum, err)].  [ReadTableScopes] assigns [scopes] and [err]
    together, so a failed one leaves in [scopes] what it returned. *)
Definition listTableScopes (db : ReadDB) (sdb : ScopesDB) (account table : string)
    (blockNum : N) : list string * N * option error :=
  let prepared := prepareRead db blockNum false in
  let actualBlockNum := chosenBlockNum prepared in
  match err prepared with
  | Some e => ([], actualBlockNum, Some (Wrap "unable to prepare read: %w" e))
  | None =>
      match ReadTableScopes sdb (uint32 actualBlockNum) account table
              (speculativeWrites prepared) with
      | (scopes, Some e) =>
          (scopes, actualBlockNum,
           Some (Wrap "unable to read table scopes from db: %w" e))
      | (scopes, None) =>
          if (length scopes =? 0)%nat then
            match HasSeenTableOnce sdb account table with
            | Err e =>
                ([], actualBlockNum,
                 Some (Wrap "unable to know if table was seen once in db: %w" e))
            | Ok seen =>
                if negb seen
                then ([], actualBlockNum, Some (DataTableNotFoundError account table))
                else (scopes, actualBlockNum, None)
            end
          else (scopes, actualBlockNum, None)
      end
  end.

Definition sortedScopes (tabletRows : list TabletRow) : list string :=
  if (length tabletRows <=? 0)%nat then []
  else sort_Slice (map Scope tabletRows).

(** [Server.GetTableScopes]: the responses sent on the stream and the
    error returned.  [derr.Statusf] formats its cause with [%s]: the error
    is a new one. *)
Definition GetTableScopes (db : ReadDB) (sdb : ScopesDB) (requestBlockNum : N)
    (contract table : string) : list TableScopeResponse * option error :=
  let blockNum := uint32 requestBlockNum in
  let prepared := prepareRead db blockNum false in
  let actualBlockNum := chosenBlockNum prepared in
  match err prepared with
  | Some _ => ([], Some (New "unable to prepare read: %s"))
  | None =>
      match ReadTabletAt sdb actualBlockNum (NewContractTableScopeTablet contract table)
              (speculativeWrites prepared) with
      | Err _ => ([], Some (New "uanble to read tablet at %d: %s"))
      | Ok tabletRows =>
          let scopes := sortedScopes tabletRows in
          let send := map (fun scope => {| Response_BlockNum := actualBlockNum;
                                           Response_Scope := scope |}) scopes in
          if (length scopes =? 0)%nat then
            match HasSeenTableOnce sdb contract table with
            | Err _ => ([], Some (New "unable to know if table was seen once in db: %s"))
            | Ok seen =>
                if negb seen
                then ([], Some (New "table %s/%s does not exist in ABI at this block height"))
                else (send, None)
            end
          else (send, None)
      end
  end.

End FrontEnd.

(** *** Sample data for the tablets and the front ends *)

(** Modelled from the spec: [ExplodeTabletRowKey], declared elsewhere in
    package [fluxdb].  A row key is
    [<prefix>/<tablet_parts>/<hex_block:8>/<primary_key>], and the key of
    its tablet is [<prefix>/<tablet_parts>]. *)
Definition ExplodeTabletRowKey_model (key : string)
    : result (string * string * string * string) :=
  match Split "/" key with
  | [collection; tabletParts; blockNumKey; primaryKey] =>
      Ok (collection, collection +:+ "/" +:+ tabletParts, blockNumKey, primaryKey)
  | _ => Err (New "row key should have 4 segments")
  end.

(** A cache in which an indexing of a contract-state tablet is scheduled. *)
Definition sample_cache_tablet : indexCache :=
  {| lastIndexes := ∅;
     lastCounters := ∅;
     scheduleIndexing := <["cst/eosio:eosio:global" := 7]> ∅ |}.

(** A database with the scopes [bob] and [alice] of the table [accounts]
    of [eosio.token], in that order, and no other table. *)
Definition sample_scope_rows : list TabletRow :=
  [ {| Collection := "ctbls"; TabletKey := "ctbls/eosio.token:accounts";
       BlockNumKey := "00000008"; PrimKey := "bob";
       Payload := be_bytes 8 (StringToName "bob") |};
    {| Collection := "ctbls"; TabletKey := "ctbls/eosio.token:accounts";
       BlockNumKey := "00000005"; PrimKey := "alice";
       Payload := be_bytes 8 (StringToName "alice") |} ].

Definition sample_scopes_db : ScopesDB :=
  {| ReadTableScopes := fun _ account table _ =>
       if String.eqb account "eosio.token" && String.eqb table "accounts"
       then (["alice"; "bob"], None) else ([], None);
     ReadTabletAt := fun _ tablet _ =>
       if String.eqb tablet "ctbls/eosio.token:accounts"
       then Ok sample_scope_rows else Ok [];
     HasSeenTableOnce := fun account table =>
       Ok (String.eqb account "eosio.token" && String.eqb table "accounts") |}.

(** [sort.Slice] on strings, as a merge sort. *)
Definition sample_sort : list string -> list string :=
  @merge_sort string (fun a b => String.leb a b = true)
    (fun a b => decide (String.leb a b = true)).

(** [sample_store] with a later snapshot, persisted at block 9, and a
    cache with nothing cached in which two tables are scheduled at block
    7: [sample_table], and a table without any snapshot or row. *)
Definition sample_store_ahead : KV :=
  {| kvRows := kvRows sample_store;
     kvIndexes :=
       <["ts:eosio:accounts:fffffff6" :=
           index_blob 8 3 [("0000000000000001", 2); ("0000000000000002", 4);
                           ("0000000000000003", 6)]]>
         (kvIndexes sample_store);
     kvBatch := [] |}.

Definition sample_cache_uncached : indexCache :=
  {| lastIndexes := ∅;
     lastCounters := <[sample_table := 1500%Z]> ∅;
     scheduleIndexing := <["ts:eosio:stat" := 7]> (<[sample_table := 7]> ∅) |}.

(** * Properties *)

(** ** Results *)

Lemma bind_Ok {A B : Type} (r : result A) (k : A -> result B) (b : B) :
  r ≫= k = Ok b -> exists a, r = Ok a /\ k a = Ok b.
Proof.
  destruct r as [a|e]; cbn; [eauto | discriminate].
Qed.

Lemma wrap_Ok {A : Type} (msg : string) (r : result A) (a : A) :
  wrap msg r = Ok a <-> r = Ok a.
Proof.
  destruct r; cbn; split; congruence.
Qed.

(** ** Bytes and big-endian numbers *)

Lemma byte_of_to_N (v : N) : Byte.to_N (byte_of v) = v mod 256.
Proof.
  unfold byte_of.
  destruct (Byte.of_N (v mod 256)) as [b|] eqn:E; cbn.
  - now apply Byte.to_of_N.
  - apply Byte.of_N_None_iff in E.
    pose proof (N.mod_upper_bound v 256). lia.
Qed.

Lemma length_be_bytes (n : nat) (v : N) : length (be_bytes n v) = n.
Proof.
  induction n as [|n IH]; cbn; [reflexivity | now rewrite IH].
Qed.

Lemma be_value_app_acc (n : nat) (v acc : N) :
  fold_left (fun a b => a * 256 + Byte.to_N b) (be_bytes n v) acc
  = acc * 256 ^ N.of_nat n + v mod 256 ^ N.of_nat n.
Proof.
  revert acc. induction n as [|n IH]; intros acc.
  - cbn. rewrite N.mod_1_r. lia.
  - cbn [be_bytes fold_left]. rewrite IH, byte_of_to_N.
    rewrite N.shiftr_div_pow2.
    replace (2 ^ (8 * N.of_nat n)) with (256 ^ N.of_nat n)
      by (rewrite N.pow_mul_r; reflexivity).
    rewrite Nat2N.inj_succ, N.pow_succ_r'.
    rewrite (N.mul_comm 256 (256 ^ N.of_nat n)).
    rewrite (N.Div0.mod_mul_r v (256 ^ N.of_nat n) 256).
    lia.
Qed.

(** The bytes [be_bytes] gives are the big-endian digits of [v]. *)
Lemma be_value_be_bytes (n : nat) (v : N) :
  be_value (be_bytes n v) = v mod 256 ^ N.of_nat n.
Proof.
  unfold be_value. rewrite be_value_app_acc. lia.
Qed.

Lemma be_value_be_bytes_4 (v : N) : v < 2 ^ 32 -> be_value (be_bytes 4 v) = v.
Proof.
  intros Hv. rewrite be_value_be_bytes. apply N.mod_small. exact Hv.
Qed.

Lemma be_value_be_bytes_8 (v : N) : v < 2 ^ 64 -> be_value (be_bytes 8 v) = v.
Proof.
  intros Hv. rewrite be_value_be_bytes. apply N.mod_small. exact Hv.
Qed.

(** ** The scheduling rule *)

(** C4. [shouldTriggerIndexing] answers true exactly when the mutation
    counter [c] of the table is at least 1000 and, when a snapshot of map
    size [s] is cached, neither [s > 100000] with [c < 10000] nor
    [s > 50000] with [c < 5000]; so it answers false whenever [c < 1000],
    and true when [c >= 1000] and no snapshot is cached yet. *)
Theorem shouldTriggerIndexing_rule (t : indexCache) (table : string) :
  let c := GetCount t table in
  (shouldTriggerIndexing t table = true <->
     (c >= 1000)%Z /\
     match GetIndex t table with
     | None => True
     | Some lastIndex =>
         let s := Z.of_nat (size (Map lastIndex)) in
         ~ (s > 100000 /\ c < 10000)%Z /\ ~ (s > 50000 /\ c < 5000)%Z
     end)
  /\ ((c < 1000)%Z -> shouldTriggerIndexing t table = false)
  /\ ((c >= 1000)%Z /\ GetIndex t table = None -> shouldTriggerIndexing t table = true).
Proof.
  unfold shouldTriggerIndexing, GetCount, GetIndex. cbv zeta.
  set (c := default 0%Z (lastCounters t !! table)).
  destruct (Z.ltb_spec c 1000) as [Hc|Hc].
  - repeat split; try lia; try discriminate; intros; lia.
  - destruct (lastIndexes t !! table) as [lastIndex|].
    + set (s := Z.of_nat (size (Map lastIndex))).
      destruct (Z.gtb_spec s 50000) as [Hs|Hs];
        destruct (Z.ltb_spec c 5000) as [Hc5|Hc5];
        destruct (Z.gtb_spec s 100000) as [Hs1|Hs1];
        destruct (Z.ltb_spec c 10000) as [Hc1|Hc1]; cbn;
        repeat split; try lia; try discriminate; try tauto; intros; try lia;
        intuition (try discriminate; try lia).
    + repeat split; try lia; intros; lia.
Qed.

(** ** Preparing a read *)

Lemma prepareRead_higher_than_LIB (db : ReadDB) (lastWrittenBlock : BlockRef)
    (blockNum : N) :
  FetchLastWrittenBlock db = Ok lastWrittenBlock ->
  uint32 (Num lastWrittenBlock) < blockNum ->
  err (prepareRead db blockNum true)
  = Some (AppBlockNumHigherThanLIBError blockNum (uint32 (Num lastWrittenBlock))).
Proof.
  intros Hfetch Hlt. unfold prepareRead. rewrite Hfetch.
  apply N.ltb_lt in Hlt. rewrite Hlt. reflexivity.
Qed.

(** With [irreversibleOnly], any request at or below the last written block
    is answered at the last written block: [chosenBlockNum] is still zero
    when it is tested, whatever [blockNum] is. *)
Lemma prepareRead_irreversible_chosen (db : ReadDB) (lastWrittenBlock : BlockRef)
    (blockNum : N) :
  FetchLastWrittenBlock db = Ok lastWrittenBlock ->
  blockNum <= uint32 (Num lastWrittenBlock) ->
  err (prepareRead db blockNum true) = None /\
  chosenBlockNum (prepareRead db blockNum true) = uint32 (Num lastWrittenBlock).
Proof.
  intros Hfetch Hle. unfold prepareRead. rewrite Hfetch.
  apply N.ltb_ge in Hle. rewrite Hle. cbn. split; reflexivity.
Qed.

Lemma prepareRead_head_when_zero (db : ReadDB) (lastWrittenBlock : BlockRef) :
  FetchLastWrittenBlock db = Ok lastWrittenBlock ->
  err (prepareRead db 0 false) = None /\
  chosenBlockNum (prepareRead db 0 false) = uint32 (Num (HeadBlock db)).
Proof.
  intros Hfetch. unfold prepareRead. rewrite Hfetch. cbn.
  rewrite N.ltb_irrefl.
  destruct (last _); cbn; split; reflexivity.
Qed.

(** C1. The request [block_num = 5] with [irreversible_only] against a last
    written block of 10 is answered without error at block 10, not at
    block 5 ([0 < 5 <= 10]); the same request without [irreversible_only]
    is answered at block 5. *)
Theorem prepareRead_irreversible_ignores_block_num :
  err (prepareRead db_lib10_head12 5 true) = None /\
  chosenBlockNum (prepareRead db_lib10_head12 5 true) = 10 /\
  chosenBlockNum (prepareRead db_lib10_head12 5 false) = 5.
Proof.
  repeat split; reflexivity.
Qed.

(** ** Tablet rows *)

Lemma PutUint64_make (n : nat) (v : N) :
  (8 <= n)%nat ->
  BigEndian.PutUint64 (make n) v = Ok (be_bytes 8 v ++ make (n - 8)).
Proof.
  intros Hn. unfold BigEndian.PutUint64, make.
  rewrite length_replicate. destruct (decide (n < 8)%nat); [lia|].
  now rewrite drop_replicate.
Qed.

Lemma slice_from_app_length (pre post : list byte) (n : nat) :
  length pre = n -> slice_from (pre ++ post) n = Ok post.
Proof.
  intros <-. unfold slice_from. rewrite length_app.
  destruct (decide _) as [_|H]; [|lia].
  now rewrite drop_app_length.
Qed.

Lemma copy_same_length (dst src : list byte) :
  length dst = length src -> copy dst src = src.
Proof.
  intros H. unfold copy. rewrite H, firstn_all, <- H, drop_all. apply app_nil_r.
Qed.

Lemma Uint64_be_bytes (v : N) (rest : list byte) :
  v < 2 ^ 64 -> BigEndian.Uint64 (be_bytes 8 v ++ rest) = Ok v.
Proof.
  intros Hv. unfold BigEndian.Uint64. rewrite length_app, length_be_bytes.
  destruct (decide _) as [H|_]; [lia|].
  rewrite take_app_length' by (now rewrite length_be_bytes).
  now rewrite be_value_be_bytes_8.
Qed.

Lemma Uint64_be_bytes_wrap (v : N) (rest : list byte) :
  BigEndian.Uint64 (be_bytes 8 v ++ rest) = Ok (uint64 v).
Proof.
  unfold BigEndian.Uint64. rewrite length_app, length_be_bytes.
  destruct (decide _) as [H|_]; [lia|].
  rewrite take_app_length' by (now rewrite length_be_bytes).
  now rewrite be_value_be_bytes.
Qed.

Section TabletProperties.

Variable NA : string -> N.
Variable NameToString : N -> string.
Variable ExplodeTabletRowKey : string -> result (string * string * string * string).

(** C7, as the code has it.  A non-deletion contract-state row holds the
    8 big-endian bytes of the payer name followed by the data, whatever
    the payer and the data, so [Data()] gives the data back and
    [Payer()] gives the name that the codec prints for the [uint64] of
    the payer: the payer itself exactly when the codec gives the payer
    back from its [uint64]. *)
Theorem ContractStateTablet_NewRow_payload (t : string) (blockNum : N)
    (primaryKey payer : string) (data : list byte) :
  exists row,
    ContractStateTablet_NewRow NA t blockNum primaryKey payer data false = Ok row /\
    Payload row = be_bytes 8 (NA payer) ++ data /\
    ContractStateRow_Data row = Ok data /\
    ContractStateRow_Payer NameToString row = Ok (NameToString (uint64 (NA payer))) /\
    (ContractStateRow_Payer NameToString row = Ok payer
     <-> NameToString (uint64 (NA payer)) = payer).
Proof.
  unfold ContractStateTablet_NewRow. cbn [negb].
  rewrite PutUint64_make by lia. cbn [mbind result_bind bind].
  rewrite slice_from_app_length by apply length_be_bytes.
  cbn [mbind result_bind bind].
  rewrite take_app_length' by (now rewrite length_be_bytes).
  rewrite copy_same_length
    by (unfold make; rewrite length_replicate; lia).
  eexists. split; [reflexivity|]. cbn [Payload].
  split; [reflexivity|].
  split.
  - unfold ContractStateRow_Data. cbn [Payload].
    apply slice_from_app_length, length_be_bytes.
  - unfold ContractStateRow_Payer. cbn [Payload].
    rewrite Uint64_be_bytes_wrap. cbn [mbind result_bind bind].
    split; [reflexivity|]. split; [intros H; now injection H | now intros ->].
Qed.

Lemma ContractStateTablet_NewRow_deletion (t : string) (blockNum : N)
    (primaryKey payer : string) (data : list byte) :
  exists row,
    ContractStateTablet_NewRow NA t blockNum primaryKey payer data true = Ok row /\
    Payload row = [].
Proof.
  eexists. split; reflexivity.
Qed.

(** C9. [ContractStateTablet.NewRowFromKV] fails exactly when the value
    has fewer than 8 bytes or the key does not explode; the empty payload
    of the deletion row that [NewRow] builds is among the values it
    rejects. *)
Theorem ContractStateTablet_NewRowFromKV_errors (t key : string)
    (value : list byte) :
  (is_err (ContractStateTablet_NewRowFromKV ExplodeTabletRowKey t key value) = true
   <-> (length value < 8)%nat \/ is_err (ExplodeTabletRowKey key) = true)
  /\ (forall (t0 : string) (blockNum : N) (primaryKey payer : string)
         (data : list byte),
        exists row,
          ContractStateTablet_NewRow NA t0 blockNum primaryKey payer data true
          = Ok row /\
          Payload row = [] /\
          is_err (ContractStateTablet_NewRowFromKV ExplodeTabletRowKey t key
                    (Payload row)) = true).
Proof.
  split.
  - unfold ContractStateTablet_NewRowFromKV.
    destruct (decide (length value < 8)%nat) as [Hlen|Hlen].
    + cbn. split; [now left | reflexivity].
    + destruct (ExplodeTabletRowKey key) as [[[[c tk] bk] pk]|e]; cbn.
      * split; [discriminate | intros [H|H]; [lia | discriminate]].
      * split; [now right | reflexivity].
  - intros t0 blockNum primaryKey payer data.
    eexists. split; [reflexivity|]. split; reflexivity.
Qed.

(** [ContractTableScopeTablet.NewRowFromKV] fails exactly on the values
    of 0 and of 8 bytes, and on keys that do not explode. *)
Lemma ContractTableScopeTablet_NewRowFromKV_errors (t key : string)
    (value : list byte) :
  is_err (ContractTableScopeTablet_NewRowFromKV ExplodeTabletRowKey t key value) = true
  <-> length value = 0%nat \/ length value = 8%nat
      \/ is_err (ExplodeTabletRowKey key) = true.
Proof.
  unfold ContractTableScopeTablet_NewRowFromKV.
  destruct (Nat.eqb_spec (length value) 0) as [H0|H0];
    [cbn; split; [now left | reflexivity]|].
  destruct (Nat.eqb_spec (length value) 8) as [H8|H8];
    [cbn; split; [now (right; left) | reflexivity]|].
  cbn [orb].
  destruct (ExplodeTabletRowKey key) as [[[[c tk] bk] pk]|e]; cbn.
  - split; [discriminate | intros [H|[H|H]]; [lia | lia | discriminate]].
  - split; [now (right; right) | reflexivity].
Qed.

(** C2. Every row that [ContractTableScopeTablet.NewRow] builds, deletion
    or not, has a valid table-scope payload, empty or the 8 bytes of the
    payer, and [NewRowFromKV] answers each of them with its error
    [should have at 0 byte (deletion) or 8 bytes (payer)]. *)
Theorem ContractTableScopeTablet_NewRowFromKV_rejects_valid (t t' key : string)
    (blockNum : N) (scope payer : string) (isDeletion : bool) :
  exists row,
    ContractTableScopeTablet_NewRow NA t blockNum scope payer isDeletion = Ok row /\
    Payload row = (if isDeletion then [] else be_bytes 8 (NA payer)) /\
    ContractTableScopeTablet_NewRowFromKV ExplodeTabletRowKey t' key (Payload row)
    = Err (New "contract table scope row value should have at 0 byte (deletion) or 8 bytes (payer)").
Proof.
  destruct isDeletion.
  - eexists. split; [reflexivity|]. split; reflexivity.
  - unfold ContractTableScopeTablet_NewRow. cbn [negb].
    rewrite PutUint64_make by lia. cbn [mbind result_bind bind Nat.sub make replicate].
    rewrite app_nil_r.
    eexists. split; [reflexivity|]. cbn [Payload]. split; [reflexivity|].
    unfold ContractTableScopeTablet_NewRowFromKV.
    rewrite length_be_bytes. reflexivity.
Qed.

End TabletProperties.

Lemma ContractStateTablet_NewRow_payload_witness :
  NameToString (uint64 (StringToName "alice")) = "alice" /\
  exists row,
    ContractStateTablet_NewRow StringToName "cst/eosio.token:alice:accounts" 100
      "EOS" "alice" [x01] false = Ok row /\
    Payload row = be_bytes 8 (StringToName "alice") ++ [x01] /\
    ContractStateRow_Data row = Ok [x01] /\
    ContractStateRow_Payer NameToString row = Ok "alice".
Proof.
  assert (Hname : NameToString (uint64 (StringToName "alice")) = "alice") by reflexivity.
  split; [exact Hname|].
  destruct (ContractStateTablet_NewRow_payload StringToName NameToString
              "cst/eosio.token:alice:accounts" 100 "EOS" "alice" [x01])
    as (row & Hrow & Hpayload & Hdata & _ & Hpayer).
  exists row. split; [exact Hrow|]. split; [exact Hpayload|]. split; [exact Hdata|].
  apply Hpayer. exact Hname.
Defined.

(** C7, as the specification has it, fails for the payer [Bob]: the name
    codec reads the capital letter as a dot, so the row that [NewRow]
    builds holds the [uint64] of [.ob], and [Payer()] gives [.ob], not the
    payer.  The payload and [Data()] are as the specification has them. *)
Lemma ContractStateTablet_NewRow_payer_not_given_back :
  exists row,
    ContractStateTablet_NewRow StringToName "cst/eosio.token:alice:accounts" 100
      "EOS" "Bob" [x01] false = Ok row /\
    Payload row = be_bytes 8 (StringToName "Bob") ++ [x01] /\
    ContractStateRow_Data row = Ok [x01] /\
    ContractStateRow_Payer NameToString row = Ok ".ob" /\
    ContractStateRow_Payer NameToString row <> Ok "Bob".
Proof.
  eexists. split; [vm_compute; reflexivity|].
  split; [vm_compute; reflexivity|].
  split; [vm_compute; reflexivity|].
  split; [vm_compute; reflexivity|].
  vm_compute. discriminate.
Qed.

(** ** Hexadecimal text *)

Lemma hexval_hexdigit (d : N) : d < 16 -> hexval (hexdigit d) = Some d.
Proof.
  intros Hd.
  assert (H : d = 0 \/ d = 1 \/ d = 2 \/ d = 3 \/ d = 4 \/ d = 5 \/ d = 6 \/ d = 7
              \/ d = 8 \/ d = 9 \/ d = 10 \/ d = 11 \/ d = 12 \/ d = 13 \/ d = 14
              \/ d = 15) by lia.
  repeat (destruct H as [->|H]; [reflexivity|]). subst d. reflexivity.
Qed.

Lemma is_lower_hex_hexdigit (d : N) : d < 16 -> is_lower_hex (hexdigit d) = true.
Proof.
  intros Hd.
  assert (H : d = 0 \/ d = 1 \/ d = 2 \/ d = 3 \/ d = 4 \/ d = 5 \/ d = 6 \/ d = 7
              \/ d = 8 \/ d = 9 \/ d = 10 \/ d = 11 \/ d = 12 \/ d = 13 \/ d = 14
              \/ d = 15) by lia.
  repeat (destruct H as [->|H]; [reflexivity|]). subst d. reflexivity.
Qed.

Lemma is_lower_hex_inv (c : ascii) :
  is_lower_hex c = true -> exists d, d < 16 /\ c = hexdigit d.
Proof.
  intros H. exists (default 0 (hexval c)).
  destruct c as [[] [] [] [] [] [] [] []]; try discriminate H;
    (split; [reflexivity | reflexivity]).
Qed.

Lemma is_lower_hex_not_colon (c : ascii) :
  is_lower_hex c = true -> Ascii.eqb c ":" = false.
Proof.
  intros H. destruct (Ascii.eqb_spec c ":") as [->|]; [discriminate H | reflexivity].
Qed.

Lemma parse_digits_hex_fixed (w : nat) (v acc : N) :
  parse_digits (hex_fixed w v) acc = Some (acc * 16 ^ N.of_nat w + v mod 16 ^ N.of_nat w).
Proof.
  revert acc. induction w as [|w IH]; intros acc.
  - cbn. rewrite N.mod_1_r. f_equal. lia.
  - cbn [hex_fixed parse_digits].
    rewrite hexval_hexdigit by (apply N.mod_upper_bound; lia).
    rewrite IH. f_equal.
    rewrite Nat2N.inj_succ, N.pow_succ_r'.
    rewrite (N.mul_comm 16 (16 ^ N.of_nat w)).
    rewrite (N.Div0.mod_mul_r v (16 ^ N.of_nat w) 16).
    lia.
Qed.

Lemma hex_fixed_add (w : nat) (a b : N) :
  hex_fixed w (a * 16 ^ N.of_nat w + b) = hex_fixed w b.
Proof.
  revert a. induction w as [|w IH]; intros a; [reflexivity|].
  cbn [hex_fixed]. f_equal.
  - f_equal.
    rewrite Nat2N.inj_succ, N.pow_succ_r'.
    replace (a * (16 * 16 ^ N.of_nat w) + b) with (a * 16 * 16 ^ N.of_nat w + b) by lia.
    rewrite N.div_add_l by (apply N.pow_nonzero; lia).
    rewrite N.add_comm, N.Div0.mod_add. reflexivity.
  - rewrite Nat2N.inj_succ, N.pow_succ_r'.
    replace (a * (16 * 16 ^ N.of_nat w) + b) with (a * 16 * 16 ^ N.of_nat w + b) by lia.
    apply IH.
Qed.

Lemma length_hex_fixed (w : nat) (v : N) : String.length (hex_fixed w v) = w.
Proof. induction w as [|w IH]; cbn; [reflexivity | now rewrite IH]. Qed.

Lemma all_lower_hex_hex_fixed (w : nat) (v : N) : all_lower_hex (hex_fixed w v) = true.
Proof.
  induction w as [|w IH]; cbn; [reflexivity|].
  rewrite is_lower_hex_hexdigit by (apply N.mod_upper_bound; lia). exact IH.
Qed.

Lemma is_hex_key_hex_fixed (w : nat) (v : N) : is_hex_key w (hex_fixed w v) = true.
Proof.
  unfold is_hex_key. rewrite length_hex_fixed, Nat.eqb_refl, all_lower_hex_hex_fixed.
  reflexivity.
Qed.

(** The keys of [w] lowercase hex digits are the texts [hex_fixed w v]. *)
Lemma is_hex_key_inv (w : nat) (s : string) :
  is_hex_key w s = true -> exists v, v < 16 ^ N.of_nat w /\ s = hex_fixed w v.
Proof.
  unfold is_hex_key. intros H. apply andb_true_iff in H as [Hlen Hhex].
  apply Nat.eqb_eq in Hlen. revert w Hlen Hhex.
  induction s as [|c s IH]; intros w Hlen Hhex.
  - cbn in Hlen. subst w. exists 0. split; [cbn; lia | reflexivity].
  - cbn in Hlen. destruct w as [|w]; [discriminate|].
    injection Hlen as Hlen. cbn in Hhex. apply andb_true_iff in Hhex as [Hc Hs].
    destruct (IH w Hlen Hs) as (v & Hv & ->).
    destruct (is_lower_hex_inv c Hc) as (d & Hd & ->).
    exists (d * 16 ^ N.of_nat w + v). split.
    + rewrite Nat2N.inj_succ, N.pow_succ_r'. nia.
    + cbn [hex_fixed]. rewrite hex_fixed_add. f_equal. f_equal.
      rewrite N.div_add_l by (apply N.pow_nonzero; lia).
      rewrite (N.div_small v) by exact Hv.
      rewrite N.add_0_r. symmetry. now apply N.mod_small.
Qed.

Lemma hex_value_hex_fixed (w : nat) (v : N) :
  v < 16 ^ N.of_nat w -> hex_value (hex_fixed w v) = v.
Proof.
  intros Hv. unfold hex_value. rewrite parse_digits_hex_fixed.
  rewrite N.mod_small by exact Hv. lia.
Qed.

Lemma ParseUint16_hex_fixed (w : nat) (v bitSize : N) :
  (0 < w)%nat -> v < 16 ^ N.of_nat w -> 16 ^ N.of_nat w <= 2 ^ bitSize ->
  ParseUint16 (hex_fixed w v) bitSize = Ok v.
Proof.
  intros Hw Hv Hbits. unfold ParseUint16.
  destruct w as [|w]; [lia|].
  rewrite parse_digits_hex_fixed.
  cbn [hex_fixed]. 
  rewrite N.mod_small by exact Hv. rewrite N.mul_0_l, N.add_0_l.
  destruct (N.ltb_spec v (2 ^ bitSize)); [reflexivity | lia].
Qed.

(** ** Primary keys *)

Lemma str_take_drop (n : nat) (s : string) : s = str_take n s +:+ str_drop n s.
Proof.
  revert s. induction n as [|n IH]; intros [|c s]; try reflexivity.
  change (String c s = String c (str_take n s +:+ str_drop n s)).
  f_equal. apply IH.
Qed.

Lemma split_colon_hex (s : string) : all_lower_hex s = true -> split_colon s = [s].
Proof.
  induction s as [|c s IH]; [reflexivity|].
  cbn. intros H. apply andb_true_iff in H as [Hc Hs].
  rewrite (is_lower_hex_not_colon c Hc), (IH Hs). reflexivity.
Qed.

Lemma split_colon_app (s rest : string) :
  all_lower_hex s = true ->
  split_colon (s +:+ String ":" rest) = s :: split_colon rest.
Proof.
  induction s as [|c s IH]; [reflexivity|].
  intros H. cbn in H. apply andb_true_iff in H as [Hc Hs].
  change (String c s +:+ String ":" rest) with (String c (s +:+ String ":" rest)).
  cbn [split_colon].
  rewrite (is_lower_hex_not_colon c Hc), (IH Hs). reflexivity.
Qed.

(** The valid keys, by their shape. *)
Lemma valid_primary_key_1 (k : string) :
  valid_primary_key 1 k = true -> exists v, v < 2 ^ 8 /\ k = hex_fixed 2 v.
Proof. intros H. apply (is_hex_key_inv 2 k H). Qed.

Lemma valid_primary_key_8 (k : string) :
  valid_primary_key 8 k = true -> exists v, v < 2 ^ 64 /\ k = hex_fixed 16 v.
Proof. intros H. apply (is_hex_key_inv 16 k H). Qed.

Lemma valid_primary_key_16 (k : string) :
  valid_primary_key 16 k = true ->
  exists v0 v1, v0 < 2 ^ 64 /\ v1 < 2 ^ 64 /\
    k = hex_fixed 16 v0 +:+ ":" +:+ hex_fixed 16 v1.
Proof.
  unfold valid_primary_key. intros H.
  rewrite (str_take_drop 16 k).
  destruct (str_drop 16 k) as [|c rest]; [discriminate|].
  destruct (Ascii.eqb_spec c ":") as [->|Hne].
  - apply andb_true_iff in H as [H0 H1].
    destruct (is_hex_key_inv 16 _ H0) as (v0 & Hv0 & ->).
    destruct (is_hex_key_inv 16 _ H1) as (v1 & Hv1 & ->).
    exists v0, v1. repeat split; try assumption.
  - exfalso. destruct c as [[] [] [] [] [] [] [] []]; try discriminate H.
    now apply Hne.
Qed.

Lemma split_colon_two_chunks (v0 v1 : N) :
  split_colon (hex_fixed 16 v0 +:+ ":" +:+ hex_fixed 16 v1)
  = [hex_fixed 16 v0; hex_fixed 16 v1].
Proof.
  change (hex_fixed 16 v0 +:+ ":" +:+ hex_fixed 16 v1)
    with (hex_fixed 16 v0 +:+ String ":" (hex_fixed 16 v1)).
  rewrite split_colon_app by apply all_lower_hex_hex_fixed.
  rewrite split_colon_hex by apply all_lower_hex_hex_fixed. reflexivity.
Qed.

Lemma parses_hex_fixed (w : nat) (v bitSize : N) :
  (0 < w)%nat -> v < 16 ^ N.of_nat w -> 16 ^ N.of_nat w <= 2 ^ bitSize ->
  parses bitSize (hex_fixed w v) = true.
Proof.
  intros. unfold parses. now rewrite ParseUint16_hex_fixed.
Qed.

Lemma valid_writable (byteCount : nat) (k : string) :
  valid_primary_key byteCount k = true -> writable_key byteCount k = true.
Proof.
  intros H.
  destruct (decide (byteCount = 1%nat)) as [->|];
    [|destruct (decide (byteCount = 8%nat)) as [->|];
      [|destruct (decide (byteCount = 16%nat)) as [->|]]].
  - destruct (valid_primary_key_1 k H) as (v & Hv & ->).
    apply parses_hex_fixed; [lia | exact Hv | reflexivity].
  - destruct (valid_primary_key_8 k H) as (v & Hv & ->).
    apply parses_hex_fixed; [lia | exact Hv | reflexivity].
  - destruct (valid_primary_key_16 k H) as (v0 & v1 & Hv0 & Hv1 & ->).
    unfold writable_key. rewrite split_colon_two_chunks.
    rewrite !parses_hex_fixed; try reflexivity; try lia; assumption.
  - exfalso. unfold valid_primary_key in H.
    do 17 (destruct byteCount as [|byteCount]; try discriminate H; try lia).
Qed.

(** ** The entries of an index blob *)

Lemma through_app (pre rest r : list byte) (f : list byte -> result (list byte)) :
  f rest = Ok r -> through (length pre) f (pre ++ rest) = Ok (pre ++ r).
Proof.
  intros Hf. unfold through.
  rewrite slice_from_app_length by reflexivity. cbn [mbind result_bind bind].
  rewrite Hf. cbn [mbind result_bind bind].
  now rewrite take_app_length.
Qed.

Lemma PutUint32_ok (b : list byte) (v : N) :
  (4 <= length b)%nat -> BigEndian.PutUint32 b v = Ok (be_bytes 4 v ++ drop 4 b).
Proof.
  intros H. unfold BigEndian.PutUint32. destruct (decide _); [lia | reflexivity].
Qed.

Lemma PutUint64_ok (b : list byte) (v : N) :
  (8 <= length b)%nat -> BigEndian.PutUint64 b v = Ok (be_bytes 8 v ++ drop 8 b).
Proof.
  intros H. unfold BigEndian.PutUint64. destruct (decide _); [lia | reflexivity].
Qed.

Lemma Uint32_be_bytes (v : N) (rest : list byte) :
  v < 2 ^ 32 -> BigEndian.Uint32 (be_bytes 4 v ++ rest) = Ok v.
Proof.
  intros Hv. unfold BigEndian.Uint32. rewrite length_app, length_be_bytes.
  destruct (decide _) as [H|_]; [lia|].
  rewrite take_app_length' by (now rewrite length_be_bytes).
  now rewrite be_value_be_bytes_4.
Qed.

Lemma slice_from_app_app (pre mid post : list byte) (n : nat) :
  n = (length pre + length mid)%nat -> slice_from (pre ++ mid ++ post) n = Ok post.
Proof.
  intros ->. rewrite app_assoc. apply slice_from_app_length, length_app.
Qed.

Section EntryLoops.

Variable Pb : nat.
Variable writer : indexPrimaryKeyWriter.
Variable reader : indexPrimaryKeyReader.

Hypothesis writer_ok : forall k buf,
  writable_key Pb k = true -> (Pb <= length buf)%nat ->
  writer k buf = Ok (primary_key_field Pb k ++ drop Pb buf).
Hypothesis field_length : forall k,
  writable_key Pb k = true -> length (primary_key_field Pb k) = Pb.
Hypothesis reader_ok : forall k rest,
  valid_primary_key Pb k = true -> reader (primary_key_field Pb k ++ rest) = Ok k.

Lemma length_index_entry (e : string * N) :
  writable_key Pb e.1 = true -> length (index_entry Pb e) = (Pb + 4)%nat.
Proof.
  intros H. unfold index_entry.
  now rewrite length_app, field_length, length_be_bytes.
Qed.

Lemma length_index_entries (entries : list (string * N)) :
  Forall (fun e => writable_key Pb e.1 = true) entries ->
  length (concat (map (index_entry Pb) entries)) = (length entries * (Pb + 4))%nat.
Proof.
  induction 1 as [|e es He _ IH]; [reflexivity|].
  cbn [map concat length]. rewrite length_app, length_index_entry, IH by exact He.
  lia.
Qed.

(** The loop of [MarshalBinary] fills the buffer after [pre] with the
    entries, one after the other. *)
Lemma marshalEntries_ok (entries : list (string * N)) (pre rest : list byte) :
  Forall (fun e => writable_key Pb e.1 = true) entries ->
  length rest = (length entries * (Pb + 4))%nat ->
  marshalEntries writer Pb entries (pre ++ rest) (length pre)
  = Ok (pre ++ concat (map (index_entry Pb) entries)).
Proof.
  intros Hall. revert pre rest.
  induction Hall as [|[k v] es Hk _ IH]; intros pre rest Hlen.
  - cbn in *. destruct rest; [reflexivity | discriminate].
  - cbn [marshalEntries]. cbn [length] in Hlen. cbn [fst] in Hk.
    rewrite (through_app pre rest (primary_key_field Pb k ++ drop Pb rest))
      by (apply writer_ok; [exact Hk | lia]).
    cbn [wrap mbind result_bind bind].
    replace (length pre + Pb)%nat with (length (pre ++ primary_key_field Pb k))
      by (rewrite length_app, field_length by exact Hk; reflexivity).
    rewrite (app_assoc pre).
    rewrite (through_app _ (drop Pb rest) (be_bytes 4 v ++ drop 4 (drop Pb rest)))
      by (apply PutUint32_ok; rewrite length_drop; lia).
    cbn [mbind result_bind bind].
    rewrite drop_drop.
    replace (length pre + (Pb + 4))%nat
      with (length (pre ++ index_entry Pb (k, v)))
      by (rewrite length_app, length_index_entry by exact Hk; reflexivity).
    replace ((pre ++ primary_key_field Pb k) ++ be_bytes 4 v ++ drop (Pb + 4) rest)
      with ((pre ++ index_entry Pb (k, v)) ++ drop (Pb + 4) rest)
      by (unfold index_entry; cbn [fst snd]; now rewrite <- !app_assoc).
    rewrite IH by (rewrite length_drop; lia).
    cbn [map concat]. now rewrite <- app_assoc.
Qed.

(** The loop of [NewTableIndexFromBinary] reads the entries back, one
    after the other, into the map. *)
Lemma readEntries_ok (entries : list (string * N)) (fuel : nat)
    (pre : list byte) (mapping : gmap string N) :
  Forall (fun e => valid_primary_key Pb e.1 = true /\ e.2 < 2 ^ 32) entries ->
  (length entries <= fuel)%nat ->
  readEntries fuel reader Pb (pre ++ concat (map (index_entry Pb) entries))
    (length pre) mapping
  = Ok (foldl (fun m e => <[e.1 := e.2]> m) mapping entries).
Proof.
  intros Hall. revert fuel pre mapping.
  induction Hall as [|[k v] es [Hk Hv] _ IH]; intros fuel pre mapping Hfuel.
  - cbn [map concat foldl]. rewrite app_nil_r.
    destruct fuel; cbn [readEntries];
      (destruct (decide _) as [H|_]; [lia | reflexivity]).
  - cbn [fst snd] in Hk, Hv. cbn [length] in Hfuel.
    destruct fuel as [|fuel]; [lia|].
    pose proof (valid_writable Pb k Hk) as Hw.
    cbn [readEntries map concat].
    destruct (decide _) as [_|Hpos].
    2:{ exfalso. apply Hpos. rewrite !length_app.
        rewrite (length_index_entry (k, v)) by exact Hw. lia. }
    assert (HE : index_entry Pb (k, v) = primary_key_field Pb k ++ be_bytes 4 v)
      by reflexivity.
    rewrite (slice_from_app_length pre _ (length pre)) by reflexivity.
    cbn [mbind result_bind bind].
    rewrite HE, <- !app_assoc.
    rewrite reader_ok by exact Hk.
    cbn [wrap mbind result_bind bind].
    rewrite (slice_from_app_app pre (primary_key_field Pb k))
      by (rewrite field_length by exact Hw; reflexivity).
    cbn [mbind result_bind bind].
    unfold big.Uint32. rewrite Uint32_be_bytes by exact Hv.
    cbn [mbind result_bind bind].
    replace (length pre + (Pb + 4))%nat
      with (length (pre ++ index_entry Pb (k, v)))
      by (rewrite length_app, length_index_entry by exact Hw; reflexivity).
    replace (pre ++ primary_key_field Pb k ++ be_bytes 4 v
             ++ concat (map (index_entry Pb) es))
      with ((pre ++ index_entry Pb (k, v)) ++ concat (map (index_entry Pb) es))
      by (rewrite HE; now rewrite <- !app_assoc).
    rewrite IH by lia. reflexivity.
Qed.

End EntryLoops.

(** ** The primary-key codecs *)

Lemma parses_Ok (bitSize : N) (s : string) :
  parses bitSize s = true -> ParseUint16 s bitSize = Ok (hex_value s).
Proof.
  unfold parses, ParseUint16, hex_value.
  destruct s as [|c s]; [discriminate|].
  destruct (parse_digits (String c s) 0) as [n|]; [|discriminate].
  destruct (n <? 2 ^ bitSize); [reflexivity | discriminate].
Qed.

Lemma writeOneUint64_ok (k : string) (buf : list byte) :
  parses 64 k = true -> (8 <= length buf)%nat ->
  writeOneUint64 k buf = Ok (be_bytes 8 (hex_value k) ++ drop 8 buf).
Proof.
  intros Hk Hlen. unfold writeOneUint64.
  rewrite (parses_Ok 64 k Hk). cbn [wrap mbind result_bind bind].
  now apply PutUint64_ok.
Qed.

Lemma readOneUint64_ok (v : N) (rest : list byte) :
  v < 2 ^ 64 -> readOneUint64 (be_bytes 8 v ++ rest) = Ok (hex_fixed 16 v).
Proof.
  intros Hv. unfold readOneUint64.
  rewrite length_app, length_be_bytes.
  destruct (decide _) as [H|_]; [lia|].
  unfold big.Uint64. now rewrite Uint64_be_bytes.
Qed.

(** *** One byte *)

Lemma oneByte_writer_ok (tag k : string) (buf : list byte) :
  writable_key 1 k = true -> (1 <= length buf)%nat ->
  oneBytePrimaryKeyWriterFactory tag k buf = Ok (primary_key_field 1 k ++ drop 1 buf).
Proof.
  intros Hk Hlen. unfold oneBytePrimaryKeyWriterFactory.
  rewrite (parses_Ok 8 k Hk). cbn [wrap mbind result_bind bind].
  destruct buf as [|b rest]; [cbn in Hlen; lia | reflexivity].
Qed.

Lemma oneByte_reader_ok (tag k : string) (rest : list byte) :
  valid_primary_key 1 k = true ->
  oneBytePrimaryKeyReaderFactory tag (primary_key_field 1 k ++ rest) = Ok k.
Proof.
  intros Hk. destruct (valid_primary_key_1 k Hk) as (v & Hv & ->).
  unfold primary_key_field. rewrite (hex_value_hex_fixed 2 v) by exact Hv.
  cbn [be_bytes app oneBytePrimaryKeyReaderFactory].
  rewrite byte_of_to_N.
  change (N.shiftr v (8 * N.of_nat 0)) with v.
  rewrite N.mod_small by exact Hv. reflexivity.
Qed.

(** *** One [uint64] *)

Lemma oneUint64_writer_ok (tag k : string) (buf : list byte) :
  writable_key 8 k = true -> (8 <= length buf)%nat ->
  oneUint64PrimaryKeyWriterFactory tag k buf = Ok (primary_key_field 8 k ++ drop 8 buf).
Proof.
  intros Hk Hlen. unfold oneUint64PrimaryKeyWriterFactory.
  now rewrite writeOneUint64_ok.
Qed.

Lemma oneUint64_reader_ok (tag k : string) (rest : list byte) :
  valid_primary_key 8 k = true ->
  oneUint64PrimaryKeyReaderFactory tag (primary_key_field 8 k ++ rest) = Ok k.
Proof.
  intros Hk. destruct (valid_primary_key_8 k Hk) as (v & Hv & ->).
  unfold primary_key_field, oneUint64PrimaryKeyReaderFactory.
  rewrite (hex_value_hex_fixed 16 v) by exact Hv.
  now rewrite readOneUint64_ok.
Qed.

(** *** Two [uint64] chunks *)

Lemma twoUint64_writer_ok (tag k : string) (buf : list byte) :
  writable_key 16 k = true -> (16 <= length buf)%nat ->
  twoUint64PrimaryKeyWriterFactory tag k buf = Ok (primary_key_field 16 k ++ drop 16 buf).
Proof.
  unfold writable_key, twoUint64PrimaryKeyWriterFactory, primary_key_field.
  intros Hk Hlen.
  destruct (split_colon k) as [|chunk0 [|chunk1 [|? ?]]]; try discriminate Hk.
  apply andb_true_iff in Hk as [H0 H1].
  rewrite writeOneUint64_ok by (exact H0 || lia).
  cbn [wrap mbind result_bind bind].
  replace 8%nat with (length (be_bytes 8 (hex_value chunk0))) at 1
    by apply length_be_bytes.
  rewrite (through_app _ (drop 8 buf)
             (be_bytes 8 (hex_value chunk1) ++ drop 8 (drop 8 buf))).
  - rewrite drop_drop, <- app_assoc. reflexivity.
  - rewrite writeOneUint64_ok; [reflexivity | exact H1 | rewrite length_drop; lia].
Qed.

Lemma twoUint64_reader_ok (tag k : string) (rest : list byte) :
  valid_primary_key 16 k = true ->
  twoUint64PrimaryKeyReaderFactory tag (primary_key_field 16 k ++ rest) = Ok k.
Proof.
  intros Hk. destruct (valid_primary_key_16 k Hk) as (v0 & v1 & Hv0 & Hv1 & ->).
  unfold primary_key_field, twoUint64PrimaryKeyReaderFactory.
  rewrite split_colon_two_chunks.
  rewrite !(hex_value_hex_fixed 16) by assumption.
  rewrite <- app_assoc.
  rewrite !length_app, !length_be_bytes.
  destruct (decide _) as [H|_]; [lia|].
  rewrite readOneUint64_ok by exact Hv0. cbn [wrap mbind result_bind bind].
  rewrite slice_from_app_length by apply length_be_bytes.
  cbn [mbind result_bind bind].
  rewrite readOneUint64_ok by exact Hv1. reflexivity.
Qed.

Lemma length_primary_key_field (byteCount : nat) (k : string) :
  writable_key byteCount k = true -> length (primary_key_field byteCount k) = byteCount.
Proof.
  unfold writable_key, primary_key_field. intros H.
  do 17 (try (destruct byteCount as [|byteCount]; try discriminate H));
    try apply length_be_bytes.
  destruct (split_colon k) as [|chunk0 [|chunk1 [|? ?]]]; try discriminate H.
  now rewrite length_app, !length_be_bytes.
Qed.

(** The three registries agree: a table key with a byte count has the
    writer and the reader of that width. *)
Lemma codec_by_table_key (tableKey : string) :
  indexPrimaryKeyByteCountByTableKey tableKey <> 0%nat ->
  exists writer reader,
    indexPrimaryKeyWriterByTableKey tableKey = Some writer /\
    indexPrimaryKeyReaderByTableKey tableKey = Some reader /\
    (forall k buf,
       writable_key (indexPrimaryKeyByteCountByTableKey tableKey) k = true ->
       (indexPrimaryKeyByteCountByTableKey tableKey <= length buf)%nat ->
       writer k buf
       = Ok (primary_key_field (indexPrimaryKeyByteCountByTableKey tableKey) k
             ++ drop (indexPrimaryKeyByteCountByTableKey tableKey) buf)) /\
    (forall k rest,
       valid_primary_key (indexPrimaryKeyByteCountByTableKey tableKey) k = true ->
       reader (primary_key_field (indexPrimaryKeyByteCountByTableKey tableKey) k ++ rest)
       = Ok k).
Proof.
  unfold indexPrimaryKeyByteCountByTableKey, indexPrimaryKeyWriterByTableKey,
    indexPrimaryKeyReaderByTableKey.
  intros Hcount.
  repeat (destruct (HasPrefix tableKey _);
          [eexists; eexists; split; [reflexivity|]; split; [reflexivity|]; split;
           first [ apply twoUint64_writer_ok | apply twoUint64_reader_ok
                 | apply oneByte_writer_ok | apply oneByte_reader_ok
                 | apply oneUint64_writer_ok | apply oneUint64_reader_ok ]|]).
  congruence.
Qed.

(** ** Marshalling and unmarshalling *)

(** Filling an empty map from the entries of [m], in any order, gives [m]. *)
Lemma foldl_insert_union (l : list (string * N)) (m : gmap string N) :
  foldl (fun m e => <[e.1 := e.2]> m) m l = list_to_map (reverse l) ∪ m.
Proof.
  revert m. induction l as [|[k v] l IH]; intros m.
  - cbn. now rewrite (left_id_L ∅ (∪)).
  - cbn [foldl fst snd]. rewrite IH, reverse_cons, list_to_map_app.
    cbn [list_to_map foldr fst snd].
    rewrite <- (assoc_L (∪)). f_equal.
    rewrite insert_empty. apply insert_union_singleton_l.
Qed.

Lemma foldl_insert_map_to_list (m : gmap string N) (order : list (string * N)) :
  order ≡ₚ map_to_list m ->
  foldl (fun m e => <[e.1 := e.2]> m) ∅ order = m.
Proof.
  intros Hperm. rewrite foldl_insert_union, (right_id_L ∅ (∪)).
  transitivity (list_to_map (map_to_list m) : gmap string N);
    [|apply list_to_map_to_list].
  apply list_to_map_proper.
  - rewrite fmap_reverse, reverse_Permutation, Hperm.
    apply NoDup_fst_map_to_list.
  - now rewrite reverse_Permutation.
Qed.

Lemma Forall_map_to_list_perm (P : string -> N -> Prop) (m : gmap string N)
    (order : list (string * N)) :
  order ≡ₚ map_to_list m -> map_Forall P m -> Forall (fun e => P e.1 e.2) order.
Proof.
  intros Hperm Hall. rewrite Hperm.
  apply Forall_forall. intros [k v] Hin. cbn.
  apply Hall. now apply elem_of_map_to_list.
Qed.

Lemma length_index_blob (byteCount : nat) (squelched : N)
    (entries : list (string * N)) :
  Forall (fun e => writable_key byteCount e.1 = true) entries ->
  length (index_blob byteCount squelched entries)
  = (16 + length entries * (byteCount + 4))%nat.
Proof.
  intros Hall. unfold index_blob.
  rewrite !length_app, length_be_bytes, length_replicate.
  rewrite (length_index_entries byteCount)
    by (exact (length_primary_key_field byteCount) || exact Hall).
  lia.
Qed.

Lemma MarshalBinary_index_blob (index : TableIndex) (tableKey : string)
    (order : list (string * N)) :
  indexPrimaryKeyByteCountByTableKey tableKey <> 0%nat ->
  map_Forall (fun k _ => writable_key (indexPrimaryKeyByteCountByTableKey tableKey) k = true)
    (Map index) ->
  order ≡ₚ map_to_list (Map index) ->
  MarshalBinary index tableKey order
  = Ok (index_blob (indexPrimaryKeyByteCountByTableKey tableKey) (Squelched index) order).
Proof.
  intros Hcount Hkeys Hperm.
  destruct (codec_by_table_key tableKey Hcount)
    as (writer & reader & Hw & _ & Hwriter & _).
  unfold MarshalBinary. set (Pb := indexPrimaryKeyByteCountByTableKey tableKey) in *.
  destruct (decide (Pb = 0%nat)) as [|_]; [contradiction|].
  rewrite Hw. cbv zeta.
  assert (Hsize : size (Map index) = length order).
  { rewrite Hperm. symmetry. apply length_map_to_list. }
  unfold big.PutUint32.
  rewrite PutUint32_ok by (unfold make; rewrite length_replicate; lia).
  cbn [mbind result_bind bind].
  unfold make. rewrite drop_replicate.
  replace ((Pb + 4) * size (Map index) + 16 - 4)%nat
    with (12 + length order * (Pb + 4))%nat by lia.
  rewrite replicate_add, app_assoc.
  change 16%nat with (length (be_bytes 4 (Squelched index) ++ replicate 12 x00)).
  rewrite (marshalEntries_ok Pb writer Hwriter (length_primary_key_field Pb)).
  - unfold index_blob. now rewrite <- app_assoc.
  - apply (Forall_map_to_list_perm (fun k _ => writable_key Pb k = true) (Map index));
      assumption.
  - apply length_replicate.
Qed.
Lemma NewTableIndexFromBinary_index_blob (tableKey : string) (atBlockNum squelched : N)
    (entries : list (string * N)) :
  indexPrimaryKeyByteCountByTableKey tableKey <> 0%nat ->
  squelched < 2 ^ 32 ->
  Forall (fun e => valid_primary_key (indexPrimaryKeyByteCountByTableKey tableKey) e.1 = true
                   /\ e.2 < 2 ^ 32) entries ->
  NewTableIndexFromBinary tableKey atBlockNum
    (index_blob (indexPrimaryKeyByteCountByTableKey tableKey) squelched entries)
  = Ok {| AtBlockNum := atBlockNum;
          Squelched := squelched;
          Map := foldl (fun m e => <[e.1 := e.2]> m) ∅ entries |}.
Proof.
  intros Hcount Hsq Hall.
  destruct (codec_by_table_key tableKey Hcount)
    as (writer & reader & _ & Hr & _ & Hreader).
  unfold NewTableIndexFromBinary.
  set (Pb := indexPrimaryKeyByteCountByTableKey tableKey) in *.
  destruct (decide (Pb = 0%nat)) as [|_]; [contradiction|].
  assert (Hw : Forall (fun e => writable_key Pb e.1 = true) entries).
  { eapply Forall_impl; [exact Hall|]. intros e [He _]. now apply valid_writable. }
  cbv zeta. rewrite (length_index_blob Pb squelched entries Hw).
  replace (Z.of_nat (16 + length entries * (Pb + 4)) - 16)%Z
    with (Z.of_nat (length entries) * Z.of_nat (Pb + 4))%Z by lia.
  rewrite Z.rem_mul by lia.
  destruct (Z.ltb_spec (Z.of_nat (length entries) * Z.of_nat (Pb + 4)) 0) as [Hneg|_];
    [lia|].
  cbn [orb negb Z.eqb]. rewrite Hr.
  assert (Hbuf : index_blob Pb squelched entries
                 = (be_bytes 4 squelched ++ replicate 12 x00)
                   ++ concat (map (index_entry Pb) entries))
    by (unfold index_blob; now rewrite <- app_assoc).
  pose proof (readEntries_ok Pb reader (length_primary_key_field Pb) Hreader entries
                (16 + length entries * (Pb + 4))
                (be_bytes 4 squelched ++ replicate 12 x00) ∅ Hall) as Hread.
  change (length (be_bytes 4 squelched ++ replicate 12 x00)) with 16%nat in Hread.
  rewrite <- Hbuf in Hread. rewrite Hread by lia.
  cbn [mbind result_bind bind].
  unfold index_blob.
  rewrite take_app_length' by (now rewrite length_be_bytes).
  unfold big.Uint32.
  rewrite <- (app_nil_r (be_bytes 4 squelched)), Uint32_be_bytes by exact Hsq.
  reflexivity.
Qed.

(** C3, as the code has it.  For a table key with a registered primary-key
    codec of [Pb] bytes and an index whose keys are text the writer can
    parse, [MarshalBinary] gives a blob of exactly [16 + n * (Pb + 4)] bytes:
    the squelched count in bytes 0..4 as a big-endian u32, zeros in bytes
    4..16, then one entry [<primary_key:Pb><block_num:u32>] for each entry
    of the map, in the order of the range over the map, the numbers
    big-endian. *)
Theorem MarshalBinary_layout (index : TableIndex) (tableKey : string)
    (order : list (string * N)) :
  indexPrimaryKeyByteCountByTableKey tableKey <> 0%nat ->
  map_Forall (fun k _ => writable_key (indexPrimaryKeyByteCountByTableKey tableKey) k = true)
    (Map index) ->
  order ≡ₚ map_to_list (Map index) ->
  exists blob,
    MarshalBinary index tableKey order = Ok blob /\
    length blob
    = (16 + size (Map index) * (indexPrimaryKeyByteCountByTableKey tableKey + 4))%nat /\
    take 4 blob = be_bytes 4 (Squelched index) /\
    take 12 (drop 4 blob) = replicate 12 x00 /\
    drop 16 blob
    = concat (map (fun e => primary_key_field (indexPrimaryKeyByteCountByTableKey tableKey) e.1
                            ++ be_bytes 4 e.2) order).
Proof.
  intros Hcount Hkeys Hperm.
  exists (index_blob (indexPrimaryKeyByteCountByTableKey tableKey) (Squelched index) order).
  split; [now apply MarshalBinary_index_blob|].
  split.
  - rewrite length_index_blob.
    + rewrite Hperm, length_map_to_list. reflexivity.
    + apply (Forall_map_to_list_perm
               (fun k _ => writable_key (indexPrimaryKeyByteCountByTableKey tableKey) k = true)
               (Map index)); assumption.
  - unfold index_blob. repeat split.
Qed.

Lemma MarshalBinary_layout_witness :
  indexPrimaryKeyByteCountByTableKey "ts:eosio:accounts" <> 0%nat /\
  map_Forall (fun k _ => writable_key
                           (indexPrimaryKeyByteCountByTableKey "ts:eosio:accounts") k = true)
    (Map sample_index) /\
  [("0000000000000002", 9); ("0000000000000001", 5)] ≡ₚ map_to_list (Map sample_index) /\
  exists blob,
    MarshalBinary sample_index "ts:eosio:accounts"
      [("0000000000000002", 9); ("0000000000000001", 5)] = Ok blob /\
    length blob = 40%nat /\
    take 4 blob = be_bytes 4 3 /\
    take 12 (drop 4 blob) = replicate 12 x00 /\
    drop 16 blob
    = concat (map (fun e => primary_key_field 8 e.1 ++ be_bytes 4 e.2)
                [("0000000000000002", 9); ("0000000000000001", 5)]).
Proof.
  assert (H1 : indexPrimaryKeyByteCountByTableKey "ts:eosio:accounts" <> 0%nat)
    by (vm_compute; discriminate).
  assert (H2 : map_Forall
                 (fun k _ => writable_key
                               (indexPrimaryKeyByteCountByTableKey "ts:eosio:accounts") k
                             = true)
                 (Map sample_index))
    by (apply map_Forall_insert_2; [reflexivity|];
        apply map_Forall_insert_2; [reflexivity | apply map_Forall_empty]).
  assert (H3 : [("0000000000000002", 9); ("0000000000000001", 5)]
               ≡ₚ map_to_list (Map sample_index))
    by (vm_compute; apply perm_swap).
  split; [exact H1|]. split; [exact H2|]. split; [exact H3|].
  exact (MarshalBinary_layout sample_index "ts:eosio:accounts"
           [("0000000000000002", 9); ("0000000000000001", 5)] H1 H2 H3).
Defined.

(** C3, as the specification has it, fails twice over.  The blob of [sample_index]
    holds the squelched count 3 and the block number 9 of its first entry
    most significant byte first, which is not what a little-endian field
    holds; and for an index with a key that is not hexadecimal text
    [MarshalBinary] gives an error, no blob. *)
Lemma MarshalBinary_not_little_endian :
  (exists blob,
     MarshalBinary sample_index "ts:eosio:accounts"
       [("0000000000000002", 9); ("0000000000000001", 5)] = Ok blob /\
     take 4 blob = [x00; x00; x00; x03] /\
     take 4 blob <> LittleEndian.bytes 4 3 /\
     take 4 (drop 24 blob) = [x00; x00; x00; x09] /\
     take 4 (drop 24 blob) <> LittleEndian.bytes 4 9)
  /\ is_err (MarshalBinary sample_index_bad_key "ts:eosio:accounts" [("eosio", 5)]) = true.
Proof.
  split; [|reflexivity].
  eexists. split; [vm_compute; reflexivity|].
  repeat split; vm_compute; congruence.
Qed.

(** C5. For a table key with a registered primary-key codec and an index
    whose keys are primary keys of that kind (and whose numbers are
    [uint32]s), unmarshalling at [AtBlockNum] what [MarshalBinary] gives,
    whatever the order of its range over the map, gives the index back. *)
Theorem NewTableIndexFromBinary_MarshalBinary (index : TableIndex) (tableKey : string)
    (order : list (string * N)) :
  indexPrimaryKeyByteCountByTableKey tableKey <> 0%nat ->
  Squelched index < 2 ^ 32 ->
  map_Forall (fun k v => valid_primary_key (indexPrimaryKeyByteCountByTableKey tableKey) k = true
                         /\ v < 2 ^ 32) (Map index) ->
  order ≡ₚ map_to_list (Map index) ->
  exists blob,
    MarshalBinary index tableKey order = Ok blob /\
    NewTableIndexFromBinary tableKey (AtBlockNum index) blob = Ok index.
Proof.
  intros Hcount Hsq Hkeys Hperm.
  exists (index_blob (indexPrimaryKeyByteCountByTableKey tableKey) (Squelched index) order).
  split.
  - apply MarshalBinary_index_blob; [exact Hcount | | exact Hperm].
    intros k v Hkv. apply valid_writable. now apply (Hkeys k v).
  - rewrite NewTableIndexFromBinary_index_blob; [| exact Hcount | exact Hsq |].
    + rewrite (foldl_insert_map_to_list (Map index) order Hperm).
      now destruct index.
    + apply (Forall_map_to_list_perm
               (fun k v => valid_primary_key (indexPrimaryKeyByteCountByTableKey tableKey) k
                           = true /\ v < 2 ^ 32) (Map index)); assumption.
Qed.

(** The round trip is about the keys the readers print: a key that the
    writer merely parses comes back in the readers' form. *)
Lemma NewTableIndexFromBinary_MarshalBinary_short_key :
  exists blob,
    MarshalBinary sample_index_short_key "ts:eosio:accounts" [("A", 5)] = Ok blob /\
    NewTableIndexFromBinary "ts:eosio:accounts" 7 blob
    = Ok {| AtBlockNum := 7; Squelched := 3; Map := <["000000000000000a" := 5]> ∅ |}.
Proof.
  eexists. split; vm_compute; reflexivity.
Qed.

Lemma NewTableIndexFromBinary_MarshalBinary_witness :
  indexPrimaryKeyByteCountByTableKey "ts:eosio:accounts" <> 0%nat /\
  Squelched sample_index < 2 ^ 32 /\
  map_Forall (fun k v => valid_primary_key
                           (indexPrimaryKeyByteCountByTableKey "ts:eosio:accounts") k = true
                         /\ v < 2 ^ 32) (Map sample_index) /\
  [("0000000000000001", 5); ("0000000000000002", 9)] ≡ₚ map_to_list (Map sample_index) /\
  exists blob,
    MarshalBinary sample_index "ts:eosio:accounts"
      [("0000000000000001", 5); ("0000000000000002", 9)] = Ok blob /\
    NewTableIndexFromBinary "ts:eosio:accounts" (AtBlockNum sample_index) blob
    = Ok sample_index.
Proof.
  assert (H1 : indexPrimaryKeyByteCountByTableKey "ts:eosio:accounts" <> 0%nat)
    by (vm_compute; discriminate).
  assert (H2 : Squelched sample_index < 2 ^ 32) by reflexivity.
  assert (H3 : map_Forall
                 (fun k v => valid_primary_key
                               (indexPrimaryKeyByteCountByTableKey "ts:eosio:accounts") k
                             = true /\ v < 2 ^ 32)
                 (Map sample_index))
    by (apply map_Forall_insert_2; [split; reflexivity|];
        apply map_Forall_insert_2; [split; reflexivity | apply map_Forall_empty]).
  assert (H4 : [("0000000000000001", 5); ("0000000000000002", 9)]
               ≡ₚ map_to_list (Map sample_index))
    by (vm_compute; reflexivity).
  split; [exact H1|]. split; [exact H2|]. split; [exact H3|]. split; [exact H4|].
  exact (NewTableIndexFromBinary_MarshalBinary sample_index "ts:eosio:accounts"
           [("0000000000000001", 5); ("0000000000000002", 9)] H1 H2 H3 H4).
Defined.



(** ** Building the indexes *)

Lemma int_wrap_mod (z : Z) : (int_wrap z mod 2 ^ 32 = z mod 2 ^ 32)%Z.
Proof.
  unfold int_wrap.
  pose proof (Z.div_mod (z + 2 ^ 63) (2 ^ 64) ltac:(lia)) as Hdm.
  replace ((z + 2 ^ 63) mod 2 ^ 64 - 2 ^ 63)%Z
    with (z + (- ((z + 2 ^ 63) / 2 ^ 64) * 2 ^ 32) * 2 ^ 32)%Z by lia.
  apply Z.mod_add. lia.
Qed.

Section IndexTablesProperties.

Variable Backend : Type.
Variable NewBatch : Backend -> Backend.
Variable FlushIfFull : Backend -> result Backend.
Variable SetIndex : string -> list byte -> Backend -> Backend.
Variable Flush : Backend -> result Backend.
Variable FetchIndex : Backend -> string -> string -> string -> result (string * list byte).
Variable ScanTabletRows : Backend -> string -> string -> result (list (string * list byte)).
Variable explodeWritableRowKey : string -> result (string * N * string).
Variable chunkKeyRevBlockNum : string -> string -> result N.
Variable rangeOrder : TableIndex -> list (string * N).

Abbreviation scanRows' := (scanRows explodeWritableRowKey).
Abbreviation entry_after_rows' := (entry_after_rows explodeWritableRowKey).
Abbreviation getIndex' := (getIndex Backend FetchIndex chunkKeyRevBlockNum).
Abbreviation buildIndex' :=
  (buildIndex Backend FetchIndex ScanTabletRows explodeWritableRowKey chunkKeyRevBlockNum).
Abbreviation indexTable' :=
  (indexTable Backend FlushIfFull SetIndex FetchIndex ScanTabletRows
     explodeWritableRowKey chunkKeyRevBlockNum rangeOrder).
Abbreviation indexTablesLoop' :=
  (indexTablesLoop Backend FlushIfFull SetIndex FetchIndex ScanTabletRows
     explodeWritableRowKey chunkKeyRevBlockNum rangeOrder).
Abbreviation IndexTables' :=
  (IndexTables Backend NewBatch FlushIfFull SetIndex Flush FetchIndex ScanTabletRows
     explodeWritableRowKey chunkKeyRevBlockNum rangeOrder).

(** A scan that succeeds counts its rows and leaves under every primary
    key what its last row for that key says. *)
Lemma scanRows_Ok (rows : list (string * list byte)) (indexMap indexMap' : gmap string N)
    (count count' : Z) :
  scanRows' rows (indexMap, count) = Ok (indexMap', count') ->
  (count' mod 2 ^ 32 = (count + Z.of_nat (length rows)) mod 2 ^ 32)%Z /\
  forall primKey,
    indexMap' !! primKey = entry_after_rows' rows primKey (indexMap !! primKey).
Proof.
  revert indexMap count.
  induction rows as [|[key value] rows IH]; intros indexMap count Hscan.
  - cbn in Hscan. injection Hscan as <- <-. split; [f_equal; cbn; lia | reflexivity].
  - cbn [scanRows entry_after_rows] in *.
    apply bind_Ok in Hscan as ([m1 c1] & Hrow & Hrest).
    unfold scanRow in Hrow.
    destruct (explodeWritableRowKey key) as [[[tk blockNum] pk]|e]; [|discriminate].
    apply IH in Hrest as [Hcount Hmap].
    assert (Hc1 : c1 = int_wrap (count + 1))
      by (destruct (length value =? 0)%nat; congruence).
    split.
    + rewrite Hcount, Hc1. cbn [length].
      rewrite Zplus_mod, int_wrap_mod, <- Zplus_mod. f_equal. lia.
    + intros primKey. rewrite Hmap.
      destruct (length value =? 0)%nat; injection Hrow as <- _;
        destruct (decide (pk = primKey)) as [->|Hne].
      * now rewrite lookup_delete_eq.
      * now rewrite lookup_delete_ne.
      * now rewrite lookup_insert_eq.
      * now rewrite lookup_insert_ne.
Qed.

(** What a build that succeeds has done. *)
Lemma buildIndex_Ok (b : Backend) (cached : option TableIndex)
    (tableKey : string) (blockNum : N) (index : TableIndex) :
  buildIndex' b cached tableKey blockNum = Ok index ->
  exists start rows,
    match cached with
    | Some cachedIndex => start = cachedIndex
    | None =>
        exists snapshot,
          getIndex' b tableKey blockNum = Ok snapshot /\
          start = default NewTableIndex snapshot
    end /\
    ScanTabletRows b
      (tableKey +:+ ":" +:+ HexBlockNum (uint32 (AtBlockNum start + 1)))
      (tableKey +:+ ":" +:+ HexBlockNum (uint32 (blockNum + 1))) = Ok rows /\
    (forall primKey,
       Map index !! primKey = entry_after_rows' rows primKey (Map start !! primKey)) /\
    AtBlockNum index = blockNum /\
    Squelched index = uint32 (N.of_nat (length rows)).
Proof.
  unfold buildIndex. intros Hbuild.
  apply bind_Ok in Hbuild as (start & Hstart & Hbuild).
  apply bind_Ok in Hbuild as ([indexMap count] & Hscan & Hindex).
  apply wrap_Ok, bind_Ok in Hscan as (rows & Hrows & Hscan).
  apply scanRows_Ok in Hscan as [Hcount Hmap].
  injection Hindex as <-. cbn [AtBlockNum Squelched Map].
  exists start, rows. split; [|split; [exact Hrows|split; [exact Hmap|split; [reflexivity|]]]].
  - destruct cached as [cachedIndex|]; [congruence|].
    apply bind_Ok in Hstart as (snapshot & Hget & Hsnap).
    apply wrap_Ok in Hget. exists snapshot. split; [exact Hget|].
    destruct snapshot; cbn in *; congruence.
  - rewrite Hcount. unfold uint32. cbn [Z.add].
    rewrite <- (N2Z.id (N.of_nat (length rows) mod 2 ^ 32)).
    f_equal. rewrite N2Z.inj_mod, nat_N_Z. reflexivity.
Qed.

(** One turn of the loop that succeeds has built the index of its table
    on the store as it is after [FlushIfFull], cached it, reset the counter
    of the table and taken the table off the schedule; the rest of the
    cache is as before. *)
Lemma indexTable_Ok (st st' : Backend * indexCache) (tableKey : string) (blockNum : N) :
  indexTable' st tableKey blockNum = Ok st' ->
  exists b index,
    FlushIfFull st.1 = Ok b /\
    buildIndex' b (GetIndex st.2 tableKey) tableKey blockNum = Ok index /\
    st'.2 = unschedule (ResetCounter (CacheIndex st.2 tableKey index) tableKey) tableKey.
Proof.
  destruct st as [batch idxCache]. unfold indexTable. intros Hturn.
  apply bind_Ok in Hturn as (b & Hflush & Hturn). apply wrap_Ok in Hflush.
  apply bind_Ok in Hturn as (index & Hbuild & Hturn).
  apply bind_Ok in Hturn as (snapshot & _ & Hturn).
  injection Hturn as <-. exists b, index. repeat split; assumption.
Qed.

Lemma indexTablesLoop_Ok (schedule : list (string * N)) (st st' : Backend * indexCache) :
  NoDup schedule.*1 ->
  indexTablesLoop' schedule st = Ok st' ->
  (forall tableKey blockNum,
     (tableKey, blockNum) ∈ schedule ->
     exists b index,
       buildIndex' b (GetIndex st.2 tableKey) tableKey blockNum = Ok index /\
       GetIndex st'.2 tableKey = Some index /\
       lastCounters st'.2 !! tableKey = Some 0%Z) /\
  (forall tableKey,
     tableKey ∉ schedule.*1 ->
     GetIndex st'.2 tableKey = GetIndex st.2 tableKey /\
     lastCounters st'.2 !! tableKey = lastCounters st.2 !! tableKey /\
     scheduleIndexing st'.2 !! tableKey = scheduleIndexing st.2 !! tableKey) /\
  (forall tableKey,
     tableKey ∈ schedule.*1 -> scheduleIndexing st'.2 !! tableKey = None).
Proof.
  revert st. induction schedule as [|[tk bn] schedule IH]; intros st Hnodup Hloop.
  - cbn in Hloop. injection Hloop as <-.
    split; [intros ? ? Hin; inversion Hin|].
    split; [intros; repeat split | intros ? Hin; inversion Hin].
  - cbn [indexTablesLoop] in Hloop.
    apply bind_Ok in Hloop as (st1 & Hturn & Hloop).
    cbn [fmap list_fmap fst] in Hnodup. apply NoDup_cons in Hnodup as [Hfresh Hnodup].
    destruct (IH st1 Hnodup Hloop) as (Hbuilt & Hframe & Hgone).
    apply indexTable_Ok in Hturn as (b & index & _ & Hbuild & Hst1).
    assert (Hother : forall tableKey, tableKey <> tk ->
              GetIndex st1.2 tableKey = GetIndex st.2 tableKey /\
              lastCounters st1.2 !! tableKey = lastCounters st.2 !! tableKey /\
              scheduleIndexing st1.2 !! tableKey = scheduleIndexing st.2 !! tableKey).
    { intros tableKey Hne. rewrite Hst1. unfold GetIndex. cbn.
      rewrite !lookup_insert_ne, lookup_delete_ne by congruence. repeat split. }
    split; [|split].
    + intros tableKey blockNum Hin. apply elem_of_cons in Hin as [Heq|Hin].
      * injection Heq as -> ->.
        destruct (Hframe tk Hfresh) as (Hidx & Hcnt & _).
        exists b, index. split; [exact Hbuild|].
        rewrite Hidx, Hcnt, Hst1. unfold GetIndex. cbn.
        now rewrite !lookup_insert_eq.
      * assert (Hne : tableKey <> tk).
        { intros ->. apply Hfresh. apply list_elem_of_fmap.
          now exists (tk, blockNum). }
        destruct (Hbuilt tableKey blockNum Hin) as (b' & index' & Hb' & Hrest).
        destruct (Hother tableKey Hne) as (Hidx & _).
        exists b', index'. rewrite <- Hidx. split; assumption.
    + intros tableKey Hnotin. cbn [fmap list_fmap fst] in Hnotin.
      apply not_elem_of_cons in Hnotin as [Hne Hnotin].
      destruct (Hframe tableKey Hnotin) as (-> & -> & ->).
      now apply Hother.
    + intros tableKey Hin. cbn [fmap list_fmap fst] in Hin.
      apply elem_of_cons in Hin as [->|Hin]; [|now apply Hgone].
      destruct (Hframe tk Hfresh) as (_ & _ & ->).
      rewrite Hst1. cbn. apply lookup_delete_eq.
Qed.

Lemma IndexTables_Ok (schedule : list (string * N)) (fdb fdb' : Backend * indexCache) :
  schedule ≡ₚ map_to_list (scheduleIndexing fdb.2) ->
  IndexTables' schedule fdb = Ok fdb' ->
  (forall tableKey blockNum,
     scheduleIndexing fdb.2 !! tableKey = Some blockNum ->
     exists b index,
       buildIndex' b (GetIndex fdb.2 tableKey) tableKey blockNum = Ok index /\
       GetIndex fdb'.2 tableKey = Some index /\
       lastCounters fdb'.2 !! tableKey = Some 0%Z) /\
  scheduleIndexing fdb'.2 = ∅.
Proof.
  destruct fdb as [store idxCache]. cbn [fst snd]. intros Hperm Hrun.
  unfold IndexTables in Hrun.
  apply bind_Ok in Hrun as ([batch idxCache'] & Hloop & Hrun).
  apply bind_Ok in Hrun as (batch' & _ & Hrun). injection Hrun as <-. cbn [snd].
  assert (Hnodup : NoDup schedule.*1)
    by (rewrite Hperm; apply NoDup_fst_map_to_list).
  destruct (indexTablesLoop_Ok schedule _ _ Hnodup Hloop) as (Hbuilt & Hframe & Hgone).
  cbn [fst snd] in *. split.
  - intros tableKey blockNum Hsched. apply Hbuilt.
    rewrite Hperm. now apply elem_of_map_to_list.
  - apply map_empty. intros tableKey.
    destruct (scheduleIndexing idxCache !! tableKey) as [blockNum|] eqn:Hsched.
    + apply Hgone. apply list_elem_of_fmap. exists (tableKey, blockNum).
      split; [reflexivity|]. rewrite Hperm. now apply elem_of_map_to_list.
    + destruct (decide (tableKey ∈ schedule.*1)) as [Hin|Hnotin];
        [now apply Hgone|].
      destruct (Hframe tableKey Hnotin) as (_ & _ & ->). exact Hsched.
Qed.

(** C10. When [IndexTables] returns without error, every table that was in
    the indexing schedule on entry has its freshly built index in the
    cache, its mutation counter at 0 and its entry gone from the schedule:
    the indexing schedule is empty. *)
Theorem IndexTables_clears_schedule (schedule : list (string * N))
    (fdb fdb' : Backend * indexCache) :
  schedule ≡ₚ map_to_list (scheduleIndexing fdb.2) ->
  IndexTables' schedule fdb = Ok fdb' ->
  (forall tableKey blockNum,
     scheduleIndexing fdb.2 !! tableKey = Some blockNum ->
     exists b index,
       buildIndex' b (GetIndex fdb.2 tableKey) tableKey blockNum = Ok index /\
       AtBlockNum index = blockNum /\
       GetIndex fdb'.2 tableKey = Some index /\
       GetCount fdb'.2 tableKey = 0%Z /\
       IndexingSchedule fdb'.2 !! tableKey = None) /\
  IndexingSchedule fdb'.2 = ∅.
Proof.
  intros Hperm Hrun.
  destruct (IndexTables_Ok schedule fdb fdb' Hperm Hrun) as [Hbuilt Hempty].
  split; [|exact Hempty].
  intros tableKey blockNum Hsched.
  destruct (Hbuilt tableKey blockNum Hsched) as (b & index & Hbuild & Hcached & Hcount).
  destruct (buildIndex_Ok b _ tableKey blockNum index Hbuild)
    as (_ & _ & _ & _ & _ & Hat & _).
  exists b, index. unfold GetCount, IndexingSchedule.
  rewrite Hcount, Hempty, lookup_empty. repeat split; assumption.
Qed.

End IndexTablesProperties.

Lemma IndexTables_clears_schedule_witness :
  exists fdb',
    [(sample_table, 7)] ≡ₚ map_to_list (scheduleIndexing (sample_store, sample_cache).2) /\
    KV_IndexTables [(sample_table, 7)] (sample_store, sample_cache) = Ok fdb' /\
    (forall tableKey blockNum,
       scheduleIndexing (sample_store, sample_cache).2 !! tableKey = Some blockNum ->
       exists b index,
         KV_buildIndex b (GetIndex (sample_store, sample_cache).2 tableKey)
           tableKey blockNum = Ok index /\
         AtBlockNum index = blockNum /\
         GetIndex fdb'.2 tableKey = Some index /\
         GetCount fdb'.2 tableKey = 0%Z /\
         IndexingSchedule fdb'.2 !! tableKey = None) /\
    IndexingSchedule fdb'.2 = ∅.
Proof.
  assert (Hperm : [(sample_table, 7)]
                  ≡ₚ map_to_list (scheduleIndexing (sample_store, sample_cache).2))
    by (vm_compute; reflexivity).
  destruct (KV_IndexTables [(sample_table, 7)] (sample_store, sample_cache))
    as [fdb'|e] eqn:Hrun.
  - exists fdb'. split; [exact Hperm|]. split; [reflexivity|].
    exact (IndexTables_clears_schedule KV KV_NewBatch KV_FlushIfFull
             KV_SetIndex KV_Flush KV_FetchIndex KV_ScanTabletRows
             explodeWritableRowKey_model chunkKeyRevBlockNum_model
             (fun index => map_to_list (Map index))
             [(sample_table, 7)] (sample_store, sample_cache) fdb' Hperm Hrun).
  - vm_compute in Hrun. discriminate Hrun.
Defined.

(** ** Unmarshalling any buffer *)

Lemma be_value_bound (bs : list byte) : be_value bs < 256 ^ N.of_nat (length bs).
Proof.
  unfold be_value.
  assert (H : forall acc n, acc < 256 ^ n ->
            fold_left (fun a b => a * 256 + Byte.to_N b) bs acc
            < 256 ^ (n + N.of_nat (length bs))).
  { induction bs as [|b bs IH]; intros acc n Hacc.
    - cbn. now rewrite N.add_0_r.
    - cbn [fold_left length]. rewrite Nat2N.inj_succ.
      replace (n + N.succ (N.of_nat (length bs))) with (N.succ n + N.of_nat (length bs)) by lia.
      apply IH. rewrite N.pow_succ_r'.
      pose proof (Byte.to_N_bounded b). lia. }
  apply (H 0 0). cbn. lia.
Qed.

Lemma slice_from_ok (b : list byte) (pos : nat) :
  (pos <= length b)%nat -> slice_from b pos = Ok (drop pos b).
Proof.
  intros H. unfold slice_from. destruct (decide _); [reflexivity | lia].
Qed.

Lemma Uint32_total (b : list byte) :
  (4 <= length b)%nat -> exists v, BigEndian.Uint32 b = Ok v /\ v < 2 ^ 32.
Proof.
  intros Hlen. unfold BigEndian.Uint32.
  destruct (decide _) as [H|_]; [lia|].
  eexists. split; [reflexivity|].
  pose proof (be_value_bound (take 4 b)) as Hb.
  rewrite length_take, Nat.min_l in Hb by lia. exact Hb.
Qed.

Lemma readOneUint64_total (buffer : list byte) :
  (8 <= length buffer)%nat ->
  exists v, readOneUint64 buffer = Ok (hex_fixed 16 v).
Proof.
  intros Hlen. unfold readOneUint64, big.Uint64, BigEndian.Uint64.
  destruct (decide _) as [H|_]; [lia|].
  eexists. reflexivity.
Qed.

Lemma valid_two_chunks (v0 v1 : N) :
  valid_primary_key 16 (hex_fixed 16 v0 +:+ ":" +:+ hex_fixed 16 v1) = true.
Proof.
  unfold valid_primary_key.
  assert (Hd : forall s t, String.length s = 16%nat ->
                 str_drop 16 (s +:+ t) = t /\ str_take 16 (s +:+ t) = s).
  { intros s t Hs.
    do 17 (destruct s as [|? s]; try discriminate Hs). split; reflexivity. }
  destruct (Hd (hex_fixed 16 v0) (":" +:+ hex_fixed 16 v1) (length_hex_fixed 16 v0))
    as [-> ->].
  change (":" +:+ hex_fixed 16 v1) with (String ":" (hex_fixed 16 v1)).
  now rewrite !is_hex_key_hex_fixed.
Qed.

(** On a buffer that is long enough, the reader of a registered table key
    gives a primary key of the kind, whatever the bytes. *)
Lemma reader_total_by_table_key (tableKey : string) :
  indexPrimaryKeyByteCountByTableKey tableKey <> 0%nat ->
  exists reader,
    indexPrimaryKeyReaderByTableKey tableKey = Some reader /\
    forall buffer,
      (indexPrimaryKeyByteCountByTableKey tableKey <= length buffer)%nat ->
      exists k, reader buffer = Ok k /\
        valid_primary_key (indexPrimaryKeyByteCountByTableKey tableKey) k = true.
Proof.
  unfold indexPrimaryKeyByteCountByTableKey, indexPrimaryKeyReaderByTableKey.
  intros Hcount.
  assert (Htwo : forall tag buffer, (16 <= length buffer)%nat ->
            exists k, twoUint64PrimaryKeyReaderFactory tag buffer = Ok k /\
                      valid_primary_key 16 k = true).
  { intros tag buffer Hlen. unfold twoUint64PrimaryKeyReaderFactory.
    destruct (decide _) as [H|_]; [lia|].
    destruct (readOneUint64_total buffer ltac:(lia)) as [v0 ->].
    cbn [wrap mbind result_bind bind]. unfold slice_from.
    destruct (decide _) as [_|H]; [|lia]. cbn [mbind result_bind bind].
    destruct (readOneUint64_total (drop 8 buffer)
                ltac:(rewrite length_drop; lia)) as [v1 ->].
    cbn [wrap mbind result_bind bind].
    eexists. split; [reflexivity | apply valid_two_chunks]. }
  assert (Hone : forall tag buffer, (1 <= length buffer)%nat ->
            exists k, oneBytePrimaryKeyReaderFactory tag buffer = Ok k /\
                      valid_primary_key 1 k = true).
  { intros tag [|b0 rest] Hlen; [cbn in Hlen; lia|].
    eexists. split; [reflexivity | apply (is_hex_key_hex_fixed 2)]. }
  assert (Hu64 : forall tag buffer, (8 <= length buffer)%nat ->
            exists k, oneUint64PrimaryKeyReaderFactory tag buffer = Ok k /\
                      valid_primary_key 8 k = true).
  { intros tag buffer Hlen. unfold oneUint64PrimaryKeyReaderFactory.
    destruct (readOneUint64_total buffer Hlen) as [v ->].
    eexists. split; [reflexivity | apply (is_hex_key_hex_fixed 16)]. }
  repeat (destruct (HasPrefix tableKey _);
          [eexists; split; [reflexivity|];
           first [ apply Htwo | apply Hone | apply Hu64 ]|]).
  congruence.
Qed.

(** The loop of [NewTableIndexFromBinary] goes through any buffer that
    holds a whole number of entries after [pos]. *)
Lemma readEntries_total (Pb : nat) (reader : indexPrimaryKeyReader)
    (buffer : list byte) :
  (forall b, (Pb <= length b)%nat ->
     exists k, reader b = Ok k /\ valid_primary_key Pb k = true) ->
  forall (n fuel pos : nat) (mapping : gmap string N),
    length buffer = (pos + n * (Pb + 4))%nat ->
    (n <= fuel)%nat ->
    exists mapping',
      readEntries fuel reader Pb buffer pos mapping = Ok mapping' /\
      (size mapping' <= size mapping + n)%nat /\
      (map_Forall (fun k v => valid_primary_key Pb k = true /\ v < 2 ^ 32) mapping ->
       map_Forall (fun k v => valid_primary_key Pb k = true /\ v < 2 ^ 32) mapping').
Proof.
  intros Hreader n. induction n as [|n IH]; intros fuel pos mapping Hlen Hfuel.
  - exists mapping. split; [|split; [lia | auto]].
    destruct fuel; cbn [readEntries]; (destruct (decide _) as [H|_]; [lia | reflexivity]).
  - destruct fuel as [|fuel]; [lia|]. cbn [readEntries].
    destruct (decide _) as [_|H]; [|lia].
    rewrite !slice_from_ok by lia.
    cbn [mbind result_bind bind].
    destruct (Hreader (drop pos buffer) ltac:(rewrite length_drop; lia))
      as (k & -> & Hk).
    cbn [wrap mbind result_bind bind]. unfold big.Uint32.
    destruct (Uint32_total (drop (pos + Pb) buffer)
                ltac:(rewrite length_drop; lia)) as (v & -> & Hv).
    cbn [mbind result_bind bind].
    destruct (IH fuel (pos + (Pb + 4))%nat (<[k:=v]> mapping) ltac:(lia) ltac:(lia))
      as (mapping' & Hread & Hsize & Hall).
    exists mapping'. split; [exact Hread|]. split.
    + pose proof (map_size_insert k v mapping) as Hins.
      destruct (mapping !! k); unfold id in Hins; lia.
    + intros Hm. apply Hall. apply map_Forall_insert_2; [split; assumption | exact Hm].
Qed.


Lemma NewTableIndexFromBinary_off (tableKey : string) (atBlockNum : N)
    (buffer : list byte) :
  indexPrimaryKeyByteCountByTableKey tableKey = 0%nat
  \/ (length buffer < 16)%nat
  \/ ((length buffer - 16) mod (indexPrimaryKeyByteCountByTableKey tableKey + 4) <> 0)%nat ->
  is_err (NewTableIndexFromBinary tableKey atBlockNum buffer) = true.
Proof.
  unfold NewTableIndexFromBinary.
  set (Pb := indexPrimaryKeyByteCountByTableKey tableKey).
  intros Hoff.
  destruct (decide (Pb = 0%nat)) as [H0|H0]; [reflexivity|].
  cbv zeta.
  destruct (Z.ltb_spec (Z.of_nat (length buffer) - 16) 0) as [Hshort|Hlong];
    [reflexivity|].
  cbn [orb].
  rewrite Z.rem_mod_nonneg by lia.
  replace (Z.of_nat (length buffer) - 16)%Z with (Z.of_nat (length buffer - 16)) by lia.
  rewrite <- Nat2Z.inj_mod.
  destruct (Z.eqb_spec (Z.of_nat ((length buffer - 16) mod (Pb + 4))) 0) as [Hal|Hal];
    [|reflexivity].
  exfalso. destruct Hoff as [H|[H|H]]; lia.
Qed.

Lemma NewTableIndexFromBinary_aligned (tableKey : string) (atBlockNum : N)
    (buffer : list byte) :
  indexPrimaryKeyByteCountByTableKey tableKey <> 0%nat ->
  (16 <= length buffer)%nat ->
  ((length buffer - 16) mod (indexPrimaryKeyByteCountByTableKey tableKey + 4) = 0)%nat ->
  exists index,
    NewTableIndexFromBinary tableKey atBlockNum buffer = Ok index /\
    AtBlockNum index = atBlockNum /\
    Squelched index < 2 ^ 32 /\
    map_Forall (fun k v => valid_primary_key (indexPrimaryKeyByteCountByTableKey tableKey) k
                           = true /\ v < 2 ^ 32) (Map index) /\
    (16 + size (Map index) * (indexPrimaryKeyByteCountByTableKey tableKey + 4)
     <= length buffer)%nat.
Proof.
  unfold NewTableIndexFromBinary.
  set (Pb := indexPrimaryKeyByteCountByTableKey tableKey).
  intros H0 Hlen Hal.
  destruct (decide (Pb = 0%nat)) as [|_]; [contradiction|].
  cbv zeta.
  destruct (Z.ltb_spec (Z.of_nat (length buffer) - 16) 0) as [Hshort|_]; [lia|].
  cbn [orb].
  rewrite Z.rem_mod_nonneg by lia.
  replace (Z.of_nat (length buffer) - 16)%Z with (Z.of_nat (length buffer - 16)) by lia.
  rewrite <- Nat2Z.inj_mod, Hal. cbn [Z.of_nat Z.eqb negb].
  destruct (reader_total_by_table_key tableKey H0) as (reader & -> & Hreader).
  fold Pb in Hreader.
  pose proof (Nat.div_mod_eq (length buffer - 16) (Pb + 4)) as Hdm.
  pose proof (Nat.Div0.div_le_upper_bound (length buffer - 16) (Pb + 4)
                (length buffer - 16)) as Hdiv.
  destruct (readEntries_total Pb reader buffer Hreader
              ((length buffer - 16) / (Pb + 4)) (length buffer) 16 ∅)
    as (mapping & -> & Hsize & Hall); [lia | nia |].
  cbn [mbind result_bind bind]. unfold big.Uint32.
  destruct (Uint32_total (take 4 buffer)) as (sq & -> & Hsq);
    [rewrite length_take; lia|].
  eexists. split; [reflexivity|]. cbn [AtBlockNum Squelched Map].
  split; [reflexivity|]. split; [exact Hsq|]. split.
  - apply Hall, map_Forall_empty.
  - rewrite map_size_empty in Hsize. nia.
Qed.

(** X1. [NewTableIndexFromBinary] fails in exactly three cases: the table
    key has no registered primary-key codec, the buffer is shorter than
    the 16-byte header, or what follows the header is not a whole number
    of entries of [Pb + 4] bytes.  No content of a buffer of the right
    size makes it fail. *)
Theorem NewTableIndexFromBinary_fails_iff (tableKey : string) (atBlockNum : N)
    (buffer : list byte) :
  is_err (NewTableIndexFromBinary tableKey atBlockNum buffer) = true <->
  indexPrimaryKeyByteCountByTableKey tableKey = 0%nat
  \/ (length buffer < 16)%nat
  \/ ((length buffer - 16) mod (indexPrimaryKeyByteCountByTableKey tableKey + 4) <> 0)%nat.
Proof.
  split; [|apply NewTableIndexFromBinary_off].
  intros Herr.
  destruct (decide (indexPrimaryKeyByteCountByTableKey tableKey = 0%nat)) as [|H0];
    [now left|].
  destruct (decide (length buffer < 16)%nat) as [|Hlen]; [now (right; left)|].
  destruct (decide ((length buffer - 16)
                    mod (indexPrimaryKeyByteCountByTableKey tableKey + 4) = 0)%nat)
    as [Hal|]; [|now (right; right)].
  destruct (NewTableIndexFromBinary_aligned tableKey atBlockNum buffer H0
              ltac:(lia) Hal) as (index & Hok & _).
  rewrite Hok in Herr. discriminate Herr.
Qed.

(** X2. The index that [NewTableIndexFromBinary] reads from a buffer it
    accepts is well formed: it is at the block asked for, its squelched
    count and its block numbers are [uint32]s, its keys are primary keys
    of the kind of the table in the text form the readers print, and
    [MarshalBinary] turns it, whatever the order of its range over the
    map, into a blob no longer than the buffer from which the same index
    is read again. *)
Theorem NewTableIndexFromBinary_well_formed (tableKey : string) (atBlockNum : N)
    (buffer : list byte) (index : TableIndex) (order : list (string * N)) :
  NewTableIndexFromBinary tableKey atBlockNum buffer = Ok index ->
  order ≡ₚ map_to_list (Map index) ->
  AtBlockNum index = atBlockNum /\
  Squelched index < 2 ^ 32 /\
  map_Forall (fun k v => valid_primary_key (indexPrimaryKeyByteCountByTableKey tableKey) k
                         = true /\ v < 2 ^ 32) (Map index) /\
  exists blob,
    MarshalBinary index tableKey order = Ok blob /\
    (length blob <= length buffer)%nat /\
    NewTableIndexFromBinary tableKey atBlockNum blob = Ok index.
Proof.
  intros Hok Hperm.
  set (Pb := indexPrimaryKeyByteCountByTableKey tableKey).
  destruct (decide (Pb = 0%nat \/ (length buffer < 16)%nat
                    \/ ((length buffer - 16) mod (Pb + 4) <> 0)%nat)) as [Hoff|Hon].
  { apply (NewTableIndexFromBinary_off tableKey atBlockNum) in Hoff.
    rewrite Hok in Hoff. discriminate Hoff. }
  destruct (NewTableIndexFromBinary_aligned tableKey atBlockNum buffer)
    as (index' & Hok' & Hat & Hsq & Hall & Hsize); [fold Pb; lia ..|].
  rewrite Hok in Hok'. injection Hok' as <-. fold Pb in Hall, Hsize.
  split; [exact Hat|]. split; [exact Hsq|]. split; [exact Hall|].
  assert (Hw : Forall (fun e => writable_key Pb e.1 = true) order).
  { apply (Forall_map_to_list_perm (fun k _ => writable_key Pb k = true) (Map index));
      [exact Hperm|].
    intros k v Hkv. apply valid_writable. now apply (Hall k v). }
  exists (index_blob Pb (Squelched index) order). split; [|split].
  - apply MarshalBinary_index_blob; [fold Pb; lia | | exact Hperm].
    intros k v Hkv. apply valid_writable. now apply (Hall k v).
  - rewrite length_index_blob by exact Hw.
    rewrite Hperm, length_map_to_list. exact Hsize.
  - unfold Pb. rewrite NewTableIndexFromBinary_index_blob; [| fold Pb; lia | exact Hsq |].
    + rewrite (foldl_insert_map_to_list (Map index) order Hperm).
      rewrite <- Hat. now destruct index.
    + apply (Forall_map_to_list_perm
               (fun k v => valid_primary_key Pb k = true /\ v < 2 ^ 32) (Map index));
        assumption.
Qed.

(** ** When marshalling fails *)

Lemma parses_false (bitSize : N) (s : string) :
  parses bitSize s = false -> is_err (ParseUint16 s bitSize) = true.
Proof.
  unfold parses. now destruct (ParseUint16 s bitSize).
Qed.

Lemma writeOneUint64_err (k : string) (buf : list byte) :
  parses 64 k = false -> is_err (writeOneUint64 k buf) = true.
Proof.
  intros Hk. apply parses_false in Hk. unfold writeOneUint64.
  now destruct (ParseUint16 k 64).
Qed.

Lemma writer_err_by_table_key (tableKey : string) :
  indexPrimaryKeyByteCountByTableKey tableKey <> 0%nat ->
  exists writer,
    indexPrimaryKeyWriterByTableKey tableKey = Some writer /\
    forall k buf,
      writable_key (indexPrimaryKeyByteCountByTableKey tableKey) k = false ->
      is_err (writer k buf) = true.
Proof.
  unfold indexPrimaryKeyByteCountByTableKey, indexPrimaryKeyWriterByTableKey.
  intros Hcount.
  assert (Htwo : forall tag k buf, writable_key 16 k = false ->
            is_err (twoUint64PrimaryKeyWriterFactory tag k buf) = true).
  { intros tag k buf Hk. unfold writable_key in Hk.
    unfold twoUint64PrimaryKeyWriterFactory.
    destruct (split_colon k) as [|chunk0 [|chunk1 [|? ?]]]; try reflexivity.
    apply andb_false_iff in Hk as [Hk|Hk].
    - pose proof (writeOneUint64_err chunk0 buf Hk) as Herr.
      now destruct (writeOneUint64 chunk0 buf).
    - destruct (writeOneUint64 chunk0 buf) as [buf'|e]; [|reflexivity].
      cbn [wrap mbind result_bind bind]. unfold through.
      destruct (slice_from buf' 8) as [rest|e]; [|reflexivity].
      cbn [mbind result_bind bind].
      pose proof (writeOneUint64_err chunk1 rest Hk) as Herr.
      now destruct (writeOneUint64 chunk1 rest). }
  assert (Hone : forall tag k buf, writable_key 1 k = false ->
            is_err (oneBytePrimaryKeyWriterFactory tag k buf) = true).
  { intros tag k buf Hk. apply parses_false in Hk.
    unfold oneBytePrimaryKeyWriterFactory. now destruct (ParseUint16 k 8). }
  assert (Hu64 : forall tag k buf, writable_key 8 k = false ->
            is_err (oneUint64PrimaryKeyWriterFactory tag k buf) = true).
  { intros tag k buf Hk. unfold oneUint64PrimaryKeyWriterFactory.
    pose proof (writeOneUint64_err k buf Hk). now destruct (writeOneUint64 k buf). }
  repeat (destruct (HasPrefix tableKey _);
          [eexists; split; [reflexivity|];
           first [ apply Htwo | apply Hone | apply Hu64 ]|]).
  congruence.
Qed.

Lemma marshalEntries_err (Pb : nat) (writer : indexPrimaryKeyWriter)
    (entries : list (string * N)) :
  (forall k buf, writable_key Pb k = false -> is_err (writer k buf) = true) ->
  Exists (fun e => writable_key Pb e.1 = false) entries ->
  forall snapshot pos, is_err (marshalEntries writer Pb entries snapshot pos) = true.
Proof.
  intros Hwriter Hex.
  induction entries as [|[k v] entries IH]; intros snapshot pos; [inversion Hex|].
  cbn [marshalEntries].
  destruct (decide (writable_key Pb k = false)) as [Hk|Hk].
  - unfold through at 2.
    destruct (slice_from snapshot pos) as [tl|e]; [|reflexivity].
    cbn [mbind result_bind bind].
    pose proof (Hwriter k tl Hk). now destruct (writer k tl).
  - apply Exists_cons in Hex as [Hex|Hex]; [cbn in Hex; congruence|].
    destruct (wrap _ _) as [s1|e]; [|reflexivity]. cbn [mbind result_bind bind].
    destruct (through _ _ s1) as [s2|e]; [|reflexivity]. cbn [mbind result_bind bind].
    now apply IH.
Qed.

(** What a marshalling that succeeds says of the index. *)
Lemma MarshalBinary_Ok_inv (index : TableIndex) (tableKey : string)
    (order : list (string * N)) (blob : list byte) :
  order ≡ₚ map_to_list (Map index) ->
  MarshalBinary index tableKey order = Ok blob ->
  indexPrimaryKeyByteCountByTableKey tableKey <> 0%nat /\
  map_Forall (fun k _ => writable_key (indexPrimaryKeyByteCountByTableKey tableKey) k = true)
    (Map index) /\
  blob = index_blob (indexPrimaryKeyByteCountByTableKey tableKey) (Squelched index) order.
Proof.
  intros Hperm Hok.
  assert (H0 : indexPrimaryKeyByteCountByTableKey tableKey <> 0%nat).
  { intros H0. unfold MarshalBinary in Hok.
    destruct (decide _); [discriminate | contradiction]. }
  assert (Hkeys : map_Forall
                    (fun k _ => writable_key (indexPrimaryKeyByteCountByTableKey tableKey) k
                                = true) (Map index)).
  { intros k v Hkv.
    destruct (writable_key _ k) eqn:Hk; [reflexivity|]. exfalso.
    destruct (writer_err_by_table_key tableKey H0) as (writer & Hw & Hwriter).
    unfold MarshalBinary in Hok. destruct (decide _) as [|_]; [contradiction|].
    rewrite Hw in Hok. cbv zeta in Hok.
    destruct (big.PutUint32 _ _) as [snapshot|e]; [|discriminate].
    cbn [mbind result_bind bind] in Hok.
    assert (Hex : Exists (fun e => writable_key
                            (indexPrimaryKeyByteCountByTableKey tableKey) e.1 = false)
                    order).
    { apply Exists_exists. exists (k, v). split; [|exact Hk].
      rewrite Hperm. now apply elem_of_map_to_list. }
    pose proof (marshalEntries_err _ writer order Hwriter Hex snapshot 16%nat) as Herr.
    rewrite Hok in Herr. discriminate Herr. }
  split; [exact H0|]. split; [exact Hkeys|].
  rewrite (MarshalBinary_index_blob index tableKey order H0 Hkeys Hperm) in Hok.
  congruence.
Qed.

(** X3. [MarshalBinary] succeeds exactly when the table key has a
    registered primary-key codec and every key of the map is text that
    the writer of the codec can parse. *)
Theorem MarshalBinary_succeeds_iff (index : TableIndex) (tableKey : string)
    (order : list (string * N)) :
  order ≡ₚ map_to_list (Map index) ->
  (is_err (MarshalBinary index tableKey order) = false <->
   indexPrimaryKeyByteCountByTableKey tableKey <> 0%nat /\
   map_Forall (fun k _ => writable_key (indexPrimaryKeyByteCountByTableKey tableKey) k = true)
     (Map index)).
Proof.
  intros Hperm. split.
  - intros Hok.
    destruct (MarshalBinary index tableKey order) as [blob|e] eqn:Hrun; [|discriminate].
    destruct (MarshalBinary_Ok_inv index tableKey order blob Hperm Hrun) as (H0 & Hkeys & _).
    split; assumption.
  - intros [H0 Hkeys]. now rewrite MarshalBinary_index_blob.
Qed.

(** ** More on building the indexes *)

Lemma tablet_keys_have_no_index_codec (contract scope table : string) :
  indexPrimaryKeyByteCountByTableKey (NewContractStateTablet contract scope table) = 0%nat /\
  indexPrimaryKeyByteCountByTableKey (NewContractTableScopeTablet contract table) = 0%nat.
Proof.
  split; reflexivity.
Qed.

Lemma int_wrap_small (z : Z) : (- 2 ^ 63 <= z < 2 ^ 63)%Z -> int_wrap z = z.
Proof.
  intros Hz. unfold int_wrap. rewrite Z.mod_small by lia. lia.
Qed.

Section IndexTablesMore.

Variable Backend : Type.
Variable NewBatch : Backend -> Backend.
Variable FlushIfFull : Backend -> result Backend.
Variable SetIndex : string -> list byte -> Backend -> Backend.
Variable Flush : Backend -> result Backend.
Variable FetchIndex : Backend -> string -> string -> string -> result (string * list byte).
Variable ScanTabletRows : Backend -> string -> string -> result (list (string * list byte)).
Variable explodeWritableRowKey : string -> result (string * N * string).
Variable chunkKeyRevBlockNum : string -> string -> result N.
Variable rangeOrder : TableIndex -> list (string * N).

Abbreviation buildIndex'' :=
  (buildIndex Backend FetchIndex ScanTabletRows explodeWritableRowKey chunkKeyRevBlockNum).
Abbreviation indexTable'' :=
  (indexTable Backend FlushIfFull SetIndex FetchIndex ScanTabletRows
     explodeWritableRowKey chunkKeyRevBlockNum rangeOrder).
Abbreviation indexTablesLoop'' :=
  (indexTablesLoop Backend FlushIfFull SetIndex FetchIndex ScanTabletRows
     explodeWritableRowKey chunkKeyRevBlockNum rangeOrder).
Abbreviation IndexTables'' :=
  (IndexTables Backend NewBatch FlushIfFull SetIndex Flush FetchIndex ScanTabletRows
     explodeWritableRowKey chunkKeyRevBlockNum rangeOrder).

Lemma indexTable_no_codec (st : Backend * indexCache) (tableKey : string) (blockNum : N) :
  indexPrimaryKeyByteCountByTableKey tableKey = 0%nat ->
  is_err (indexTable'' st tableKey blockNum) = true.
Proof.
  intros H0. destruct st as [batch idxCache]. unfold indexTable.
  destruct (wrap _ (FlushIfFull batch)) as [b|e]; [|reflexivity].
  cbn [mbind result_bind bind].
  destruct (buildIndex'' b _ tableKey blockNum) as [index|e]; [|reflexivity].
  cbn [mbind result_bind bind]. unfold MarshalBinary.
  destruct (decide _) as [_|H]; [reflexivity | contradiction].
Qed.

Lemma indexTablesLoop_no_codec (schedule : list (string * N))
    (st : Backend * indexCache) (tableKey : string) (blockNum : N) :
  (tableKey, blockNum) ∈ schedule ->
  indexPrimaryKeyByteCountByTableKey tableKey = 0%nat ->
  is_err (indexTablesLoop'' schedule st) = true.
Proof.
  intros Hin H0. revert st.
  induction schedule as [|[tk bn] schedule IH]; intros st; [inversion Hin|].
  cbn [indexTablesLoop].
  apply elem_of_cons in Hin as [Heq|Hin].
  - injection Heq as <- <-.
    pose proof (indexTable_no_codec st tableKey blockNum H0) as Herr.
    now destruct (indexTable'' st tableKey blockNum).
  - destruct (indexTable'' st tk bn) as [st1|e]; [|reflexivity].
    cbn [mbind result_bind bind]. now apply IH.
Qed.

(** X4. The keys that [NewContractStateTablet] and
    [NewContractTableScopeTablet] build start with none of the prefixes
    of the codec tables of [indexing.go]: a run of [IndexTables] whose
    schedule holds such a key ends with an error, whatever the store
    holds. *)
Theorem IndexTables_fails_on_contract_tablets (schedule : list (string * N))
    (fdb : Backend * indexCache) (tableKey contract scope table : string)
    (blockNum : N) :
  schedule ≡ₚ map_to_list (scheduleIndexing fdb.2) ->
  tableKey = NewContractStateTablet contract scope table
  \/ tableKey = NewContractTableScopeTablet contract table ->
  scheduleIndexing fdb.2 !! tableKey = Some blockNum ->
  is_err (IndexTables'' schedule fdb) = true.
Proof.
  intros Hperm Hkey Hsched.
  assert (Hin : (tableKey, blockNum) ∈ schedule)
    by (rewrite Hperm; apply elem_of_map_to_list; exact Hsched).
  destruct fdb as [store idxCache]. unfold IndexTables.
  assert (H0 : indexPrimaryKeyByteCountByTableKey tableKey = 0%nat)
    by (destruct (tablet_keys_have_no_index_codec contract scope table) as [H1 H2];
        destruct Hkey as [->| ->]; assumption).
  pose proof (indexTablesLoop_no_codec schedule (NewBatch store, idxCache)
                tableKey blockNum Hin H0) as Herr.
  destruct (indexTablesLoop'' schedule (NewBatch store, idxCache)) as [st'|e];
    [discriminate Herr | reflexivity].
Qed.

(** X6. After a run of [IndexTables] that succeeds, the counter of every
    table that was scheduled is back to zero and [shouldTriggerIndexing]
    answers [false] for it. *)
Theorem IndexTables_then_no_trigger (schedule : list (string * N))
    (fdb fdb' : Backend * indexCache) (tableKey : string) (blockNum : N) :
  schedule ≡ₚ map_to_list (scheduleIndexing fdb.2) ->
  IndexTables'' schedule fdb = Ok fdb' ->
  scheduleIndexing fdb.2 !! tableKey = Some blockNum ->
  GetCount fdb'.2 tableKey = 0%Z /\
  shouldTriggerIndexing fdb'.2 tableKey = false.
Proof.
  intros Hperm Hrun Hsched.
  destruct (IndexTables_Ok _ _ _ _ _ _ _ _ _ _ schedule fdb fdb' Hperm Hrun) as [Hbuilt _].
  destruct (Hbuilt tableKey blockNum Hsched) as (b & index & _ & _ & Hcount).
  unfold shouldTriggerIndexing, GetCount. rewrite Hcount. split; reflexivity.
Qed.

(** X7. A run of [IndexTables] that succeeds leaves alone the tables that
    were not scheduled: their cached index, their counter and the answer
    of [shouldTriggerIndexing] are what they were. *)
Theorem IndexTables_frame (schedule : list (string * N))
    (fdb fdb' : Backend * indexCache) (tableKey : string) :
  schedule ≡ₚ map_to_list (scheduleIndexing fdb.2) ->
  IndexTables'' schedule fdb = Ok fdb' ->
  scheduleIndexing fdb.2 !! tableKey = None ->
  GetIndex fdb'.2 tableKey = GetIndex fdb.2 tableKey /\
  GetCount fdb'.2 tableKey = GetCount fdb.2 tableKey /\
  shouldTriggerIndexing fdb'.2 tableKey = shouldTriggerIndexing fdb.2 tableKey.
Proof.
  destruct fdb as [store idxCache]. cbn [fst snd]. intros Hperm Hrun Hsched.
  unfold IndexTables in Hrun.
  apply bind_Ok in Hrun as ([batch idxCache'] & Hloop & Hrun).
  apply bind_Ok in Hrun as (batch' & _ & Hrun). injection Hrun as <-. cbn [snd].
  assert (Hnodup : NoDup schedule.*1)
    by (rewrite Hperm; apply NoDup_fst_map_to_list).
  destruct (indexTablesLoop_Ok _ _ _ _ _ _ _ _ schedule _ _ Hnodup Hloop)
    as (_ & Hframe & _).
  assert (Hnotin : tableKey ∉ schedule.*1).
  { intros Hin. apply list_elem_of_fmap in Hin as ([tk bn] & -> & Hin).
    rewrite Hperm in Hin. apply elem_of_map_to_list in Hin. cbn in Hsched. congruence. }
  destruct (Hframe tableKey Hnotin) as (Hidx & Hcnt & _). cbn [snd] in Hidx, Hcnt.
  unfold shouldTriggerIndexing, GetCount, GetIndex in *.
  rewrite Hidx, Hcnt. repeat split.
Qed.

(** X8. One turn of the loop of [IndexTables] that succeeds writes to the
    batch, under the key of the table followed by the reverse hex of the
    block number, the marshalling of the very index it leaves in the
    cache; that snapshot has [16 + n * (Pb + 4)] bytes for the [n] keys of
    the index and, when the keys are primary keys of the kind of the
    table, [NewTableIndexFromBinary] reads the cached index back from
    it at that block. *)
Theorem indexTable_persists_cached_index (st st' : Backend * indexCache)
    (tableKey : string) (blockNum : N) :
  (forall index, rangeOrder index ≡ₚ map_to_list (Map index)) ->
  indexTable'' st tableKey blockNum = Ok st' ->
  exists b index snapshot,
    FlushIfFull st.1 = Ok b /\
    st'.1 = SetIndex (tableKey +:+ ":" +:+ HexRevBlockNum blockNum) snapshot b /\
    GetIndex st'.2 tableKey = Some index /\
    MarshalBinary index tableKey (rangeOrder index) = Ok snapshot /\
    length snapshot
    = (16 + size (Map index) * (indexPrimaryKeyByteCountByTableKey tableKey + 4))%nat /\
    (map_Forall (fun k v => valid_primary_key (indexPrimaryKeyByteCountByTableKey tableKey) k
                            = true /\ v < 2 ^ 32) (Map index) ->
     NewTableIndexFromBinary tableKey blockNum snapshot = Ok index).
Proof.
  intros Horder Hturn. destruct st as [batch idxCache]. unfold indexTable in Hturn.
  apply bind_Ok in Hturn as (b & Hflush & Hturn). apply wrap_Ok in Hflush.
  apply bind_Ok in Hturn as (index & Hbuild & Hturn).
  apply bind_Ok in Hturn as (snapshot & Hmarshal & Hturn). apply wrap_Ok in Hmarshal.
  injection Hturn as <-. cbn [fst snd].
  destruct (buildIndex_Ok _ _ _ _ _ b _ tableKey blockNum index Hbuild)
    as (_ & rows & _ & _ & _ & Hat & Hsq).
  rewrite Hat.
  exists b, index, snapshot.
  split; [exact Hflush|]. split; [reflexivity|].
  split; [unfold GetIndex; cbn; apply lookup_insert_eq|].
  split; [exact Hmarshal|].
  destruct (MarshalBinary_Ok_inv index tableKey (rangeOrder index) snapshot
              (Horder index) Hmarshal) as (H0 & Hkeys & ->).
  split.
  - rewrite length_index_blob.
    + now rewrite Horder, length_map_to_list.
    + apply (Forall_map_to_list_perm
               (fun k _ => writable_key (indexPrimaryKeyByteCountByTableKey tableKey) k = true)
               (Map index)); [apply Horder | exact Hkeys].
  - intros Hvalid.
    rewrite NewTableIndexFromBinary_index_blob; [| exact H0 | |].
    + rewrite (foldl_insert_map_to_list (Map index) _ (Horder index)).
      rewrite <- Hat. now destruct index.
    + rewrite Hsq. unfold uint32. apply N.mod_upper_bound. lia.
    + apply (Forall_map_to_list_perm
               (fun k v => valid_primary_key (indexPrimaryKeyByteCountByTableKey tableKey) k
                           = true /\ v < 2 ^ 32) (Map index)); [apply Horder | exact Hvalid].
Qed.

End IndexTablesMore.

(** ** Counting mutations *)

Lemma GetCount_IncCount_iter (t : indexCache) (table : string) (n : nat) :
  (Z.of_nat n < 2 ^ 63)%Z ->
  GetCount (Nat.iter n (fun t => IncCount t table) (ResetCounter t table)) table
  = Z.of_nat n /\
  lastIndexes (Nat.iter n (fun t => IncCount t table) (ResetCounter t table))
  = lastIndexes t.
Proof.
  induction n as [|n IH]; intros Hn.
  - split; [|reflexivity]. unfold GetCount.
    cbn [Nat.iter nat_rect ResetCounter lastCounters].
    now rewrite lookup_insert_eq.
  - destruct IH as [IHc IHi]; [lia|].
    rewrite Nat.iter_succ. split; [|exact IHi].
    unfold GetCount at 1. cbn [IncCount lastCounters].
    rewrite lookup_insert_eq. cbn [default]. rewrite IHc.
    unfold id. rewrite int_wrap_small by lia. lia.
Qed.

(** X5. After [ResetCounter], [n] calls of [IncCount] on the table leave
    its counter at [n]; [shouldTriggerIndexing] does not answer [true]
    before the thousandth of them, and answers [true] from the thousandth
    on for a table with no index in the cache. *)
Theorem shouldTriggerIndexing_after_reset (t : indexCache) (table : string) (n : nat) :
  (Z.of_nat n < 2 ^ 63)%Z ->
  let t' := Nat.iter n (fun t => IncCount t table) (ResetCounter t table) in
  GetCount t' table = Z.of_nat n /\
  (shouldTriggerIndexing t' table = true -> (1000 <= n)%nat) /\
  (GetIndex t table = None -> (1000 <= n)%nat -> shouldTriggerIndexing t' table = true).
Proof.
  intros Hn t'.
  destruct (GetCount_IncCount_iter t table n Hn) as [Hc Hi]. fold t' in Hc, Hi.
  split; [exact Hc|].
  unfold shouldTriggerIndexing, GetIndex. unfold GetCount in Hc. rewrite Hc, Hi.
  split.
  - destruct (Z.ltb_spec (Z.of_nat n) 1000); [discriminate | lia].
  - intros -> Hge. destruct (Z.ltb_spec (Z.of_nat n) 1000); [lia | reflexivity].
Qed.

(** ** More on the tablets *)

Lemma Split_no_sep (sep : ascii) (s : string) :
  has_char sep s = false -> Split sep s = [s].
Proof.
  induction s as [|c s IH]; [reflexivity|].
  cbn. intros H. apply orb_false_iff in H as [Hc Hs].
  rewrite Hc, (IH Hs). reflexivity.
Qed.

Lemma Split_app (sep : ascii) (s rest : string) :
  has_char sep s = false ->
  Split sep (s +:+ String sep rest) = s :: Split sep rest.
Proof.
  induction s as [|c s IH].
  - intros _. change (EmptyString +:+ String sep rest) with (String sep rest).
    cbn [Split]. now rewrite Ascii.eqb_refl.
  - intros H. cbn in H. apply orb_false_iff in H as [Hc Hs].
    change (String c s +:+ String sep rest) with (String c (s +:+ String sep rest)).
    cbn [Split]. rewrite Hc, (IH Hs). reflexivity.
Qed.

Lemma has_char_app (a : ascii) (s1 s2 : string) :
  has_char a (s1 +:+ s2) = has_char a s1 || has_char a s2.
Proof.
  induction s1 as [|c s1 IH]; [reflexivity|].
  change (String c s1 +:+ s2) with (String c (s1 +:+ s2)).
  cbn [has_char]. rewrite IH. now rewrite orb_assoc.
Qed.

Lemma app_assoc_string (s1 s2 s3 : string) : (s1 +:+ s2) +:+ s3 = s1 +:+ (s2 +:+ s3).
Proof.
  induction s1 as [|c s1 IH]; [reflexivity|].
  change (String c ((s1 +:+ s2) +:+ s3) = String c (s1 +:+ (s2 +:+ s3))).
  now rewrite IH.
Qed.

Lemma Payload_short_panics (payload : list byte) :
  (is_err (BigEndian.Uint64 payload) = true <-> (length payload < 8)%nat) /\
  (is_err (slice_from payload 8) = true <-> (length payload < 8)%nat).
Proof.
  unfold BigEndian.Uint64, slice_from.
  split; destruct (decide _); cbn; split; try discriminate; try reflexivity; lia.
Qed.

Section TabletsMoreProperties.

Variable NA : string -> N.
Variable NameToString : N -> string.
Variable ExplodeTabletRowKey : string -> result (string * string * string * string).

(** X9. [Explode] undoes [NewContractStateTablet]: for a contract, a scope
    and a table with neither a slash nor a colon, it gives the collection
    [cst] and the three parts back. *)
Theorem ContractStateTablet_Explode_New (contract scope table : string) :
  has_char "/" contract = false -> has_char ":" contract = false ->
  has_char "/" scope = false -> has_char ":" scope = false ->
  has_char "/" table = false -> has_char ":" table = false ->
  ContractStateTablet_Explode (NewContractStateTablet contract scope table)
  = Ok ("cst"%string, contract, scope, table).
Proof.
  intros Hc1 Hc2 Hs1 Hs2 Ht1 Ht2.
  unfold ContractStateTablet_Explode, NewContractStateTablet, cstPrefix.
  assert (Hseg : has_char "/" (contract +:+ ":" +:+ scope +:+ ":" +:+ table) = false).
  { rewrite !has_char_app, Hc1, Hs1, Ht1. reflexivity. }
  change ("cst" +:+ "/" +:+ contract +:+ ":" +:+ scope +:+ ":" +:+ table)
    with ("cst" +:+ String "/" (contract +:+ ":" +:+ scope +:+ ":" +:+ table)).
  rewrite Split_app by reflexivity.
  rewrite Split_no_sep by exact Hseg.
  cbn [lookup list_lookup].
  change (contract +:+ ":" +:+ scope +:+ ":" +:+ table)
    with (contract +:+ String ":" (scope +:+ String ":" table)).
  rewrite Split_app by exact Hc2.
  rewrite Split_app by exact Hs2.
  rewrite Split_no_sep by exact Ht2.
  reflexivity.
Qed.

(** X10. [Explode] undoes [NewContractTableScopeTablet]: for a contract
    and a table with neither a slash nor a colon, it gives the collection
    [ctbls] and the two parts back. *)
Theorem ContractTableScopeTablet_Explode_New (contract table : string) :
  has_char "/" contract = false -> has_char ":" contract = false ->
  has_char "/" table = false -> has_char ":" table = false ->
  ContractTableScopeTablet_Explode (NewContractTableScopeTablet contract table)
  = Ok ("ctbls"%string, contract, table).
Proof.
  intros Hc1 Hc2 Ht1 Ht2.
  unfold ContractTableScopeTablet_Explode, NewContractTableScopeTablet, ctblsPrefix.
  assert (Hseg : has_char "/" (contract +:+ ":" +:+ table) = false).
  { rewrite !has_char_app, Hc1, Ht1. reflexivity. }
  change ("ctbls" +:+ "/" +:+ contract +:+ ":" +:+ table)
    with ("ctbls" +:+ String "/" (contract +:+ ":" +:+ table)).
  rewrite Split_app by reflexivity.
  rewrite Split_no_sep by exact Hseg.
  cbn [lookup list_lookup].
  change (contract +:+ ":" +:+ table) with (contract +:+ String ":" table).
  rewrite Split_app by exact Hc2.
  rewrite Split_no_sep by exact Ht2.
  reflexivity.
Qed.

(** X11. [Payer()] and [Data()] of a contract-state row panic exactly
    when the payload has fewer than 8 bytes.  They never do on a row that
    [NewRowFromKV] has built, and always do on the deletion row that
    [NewRow] builds. *)
Theorem ContractStateRow_accessors_panic_iff (r : TabletRow) :
  (is_err (ContractStateRow_Payer NameToString r) = true <-> (length (Payload r) < 8)%nat) /\
  (is_err (ContractStateRow_Data r) = true <-> (length (Payload r) < 8)%nat) /\
  (forall t key value row,
     ContractStateTablet_NewRowFromKV ExplodeTabletRowKey t key value = Ok row ->
     is_err (ContractStateRow_Payer NameToString row) = false /\
     is_err (ContractStateRow_Data row) = false) /\
  (forall t blockNum primaryKey payer data row,
     ContractStateTablet_NewRow NA t blockNum primaryKey payer data true = Ok row ->
     ContractStateRow_Payer NameToString row = Err (Panic "index out of range") /\
     ContractStateRow_Data row = Err (Panic "slice bounds out of range")).
Proof.
  destruct (Payload_short_panics (Payload r)) as [Hp Hd].
  split; [|split; [exact Hd|split]].
  - unfold ContractStateRow_Payer. rewrite <- Hp.
    now destruct (BigEndian.Uint64 (Payload r)).
  - intros t key value row Hrow. unfold ContractStateTablet_NewRowFromKV in Hrow.
    destruct (decide (length value < 8)%nat) as [|Hlen]; [discriminate|].
    destruct (ExplodeTabletRowKey key) as [[[[c tk] bk] pk]|e]; [|discriminate].
    injection Hrow as <-.
    unfold ContractStateRow_Payer, ContractStateRow_Data, BigEndian.Uint64, slice_from.
    cbn [Payload].
    destruct (decide (length value < 8)%nat); [contradiction|].
    destruct (decide (8 <= length value)%nat); [|lia]. split; reflexivity.
  - intros t blockNum primaryKey payer data row Hrow.
    cbn in Hrow. injection Hrow as <-. split; reflexivity.
Qed.

(** X12. A non-deletion table-scope row holds as payload the 8 big-endian
    bytes of the payer name and nothing else, whatever the payer, and
    [Payer()] gives the name that the codec prints for the [uint64] of
    the payer: the payer itself exactly when the codec gives the payer
    back from its [uint64]. *)
Theorem ContractTableScopeTablet_NewRow_payload (t : string) (blockNum : N)
    (scope payer : string) :
  exists row,
    ContractTableScopeTablet_NewRow NA t blockNum scope payer false = Ok row /\
    Collection row = "ctbls"%string /\ TabletKey row = t /\
    BlockNumKey row = HexBlockNum blockNum /\ PrimKey row = scope /\
    Payload row = be_bytes 8 (NA payer) /\
    ContractTableScopeRow_Payer NameToString row
    = Ok (NameToString (uint64 (NA payer))) /\
    (ContractTableScopeRow_Payer NameToString row = Ok payer
     <-> NameToString (uint64 (NA payer)) = payer).
Proof.
  unfold ContractTableScopeTablet_NewRow. cbn [negb].
  rewrite PutUint64_make by lia.
  cbn [mbind result_bind bind Nat.sub make replicate]. rewrite app_nil_r.
  eexists. split; [reflexivity|]. cbn [Collection TabletKey BlockNumKey PrimKey Payload].
  repeat (split; [reflexivity|]).
  unfold ContractTableScopeRow_Payer. cbn [Payload].
  rewrite <- (app_nil_r (be_bytes 8 (NA payer))), Uint64_be_bytes_wrap.
  cbn [mbind result_bind bind]. split; [reflexivity|].
  split; [intros H; now injection H | now intros ->].
Qed.

(** X13. When the key explodes, [NewRowFromKV] accepts the payload of
    every non-deletion row that [NewRow] builds, whatever the payer and
    the data: the row it gives has that payload and the parts of the
    exploded key, its [Data()] is the data given to [NewRow], and its
    [Payer()] is the name that the codec prints for the [uint64] of the
    payer given to [NewRow]. *)
Theorem ContractStateTablet_NewRowFromKV_NewRow (t t' key : string) (blockNum : N)
    (primaryKey payer : string) (data : list byte)
    (collection tabletKey blockNumKey primKey : string) :
  ExplodeTabletRowKey key = Ok (collection, tabletKey, blockNumKey, primKey) ->
  exists row row',
    ContractStateTablet_NewRow NA t blockNum primaryKey payer data false = Ok row /\
    ContractStateTablet_NewRowFromKV ExplodeTabletRowKey t' key (Payload row) = Ok row' /\
    Payload row' = Payload row /\
    TabletKey row' = tabletKey /\ BlockNumKey row' = blockNumKey /\ PrimKey row' = primKey /\
    ContractStateRow_Payer NameToString row' = Ok (NameToString (uint64 (NA payer))) /\
    ContractStateRow_Data row' = Ok data.
Proof.
  intros Hkey.
  unfold ContractStateTablet_NewRow. cbn [negb].
  rewrite PutUint64_make by lia. cbn [mbind result_bind bind].
  rewrite slice_from_app_length by apply length_be_bytes.
  cbn [mbind result_bind bind].
  rewrite take_app_length' by (now rewrite length_be_bytes).
  rewrite copy_same_length by (unfold make; rewrite length_replicate; lia).
  eexists. eexists. split; [reflexivity|]. cbn [Payload].
  unfold ContractStateTablet_NewRowFromKV.
  rewrite length_app, length_be_bytes.
  destruct (decide _) as [H|_]; [lia|]. rewrite Hkey.
  split; [reflexivity|]. cbn [Payload TabletKey BlockNumKey PrimKey].
  repeat (split; [reflexivity|]). split.
  - unfold ContractStateRow_Payer. cbn [Payload].
    now rewrite Uint64_be_bytes_wrap.
  - unfold ContractStateRow_Data. cbn [Payload].
    apply slice_from_app_length, length_be_bytes.
Qed.

(** X14. [EncodePrimaryKey] panics exactly when the buffer is shorter than
    [PrimaryKeyByteCount()], which is 8; on a buffer of at least 8 bytes
    it overwrites the first 8 bytes, leaves the length and the rest of
    the buffer alone, and [DecodePrimaryKey] gives from the buffer the
    name that the codec prints for the [uint64] of the primary key.  The
    two tablets share one encoding. *)
Theorem EncodePrimaryKey_DecodePrimaryKey (t : string) (buffer : list byte)
    (primaryKey : string) :
  (is_err (ContractStateTablet_EncodePrimaryKey NA t buffer primaryKey) = true
   <-> (length buffer < ContractStateTablet_PrimaryKeyByteCount t)%nat) /\
  ContractStateTablet_PrimaryKeyByteCount t = 8%nat /\
  ((ContractStateTablet_PrimaryKeyByteCount t <= length buffer)%nat ->
   exists buffer',
     ContractStateTablet_EncodePrimaryKey NA t buffer primaryKey = Ok buffer' /\
     length buffer' = length buffer /\
     drop 8 buffer' = drop 8 buffer /\
     ContractStateTablet_DecodePrimaryKey NameToString t buffer'
     = Ok (NameToString (uint64 (NA primaryKey))) /\
     ContractTableScopeTablet_EncodePrimaryKey NA t buffer primaryKey = Ok buffer' /\
     ContractTableScopeTablet_DecodePrimaryKey NameToString t buffer'
     = Ok (NameToString (uint64 (NA primaryKey)))).
Proof.
  unfold ContractStateTablet_EncodePrimaryKey, ContractStateTablet_PrimaryKeyByteCount,
    ContractTableScopeTablet_EncodePrimaryKey, ContractStateTablet_DecodePrimaryKey,
    ContractTableScopeTablet_DecodePrimaryKey.
  split; [|split; [reflexivity|]].
  - unfold BigEndian.PutUint64. destruct (decide _); cbn; split;
      try discriminate; try reflexivity; lia.
  - intros Hlen. rewrite PutUint64_ok by exact Hlen.
    eexists. split; [reflexivity|].
    split; [rewrite length_app, length_be_bytes, length_drop; lia|].
    split; [now rewrite drop_app_length' by (now rewrite length_be_bytes)|].
    rewrite Uint64_be_bytes_wrap. cbn. repeat split.
Qed.

(** X15. [NewContractStateRow] always gives a row, of the tablet of the
    code, scope and table name of the operation, at the block and primary
    key given.  The payload is empty exactly for a [REMOVE]; for any
    other operation, [UNKNOWN] included, it is the payer followed by the
    data of the operation. *)
Theorem NewContractStateRow_of_op (blockNum : N) (op : DBOp) :
  exists row,
    NewContractStateRow NA blockNum op = Ok row /\
    Collection row = "cst"%string /\
    TabletKey row = NewContractStateTablet (DBOp_Code op) (DBOp_Scope op) (DBOp_TableName op) /\
    BlockNumKey row = HexBlockNum blockNum /\
    PrimKey row = DBOp_PrimaryKey op /\
    (Payload row = [] <-> DBOp_Op op = DBOp_OPERATION_REMOVE) /\
    (DBOp_Op op <> DBOp_OPERATION_REMOVE ->
     Payload row = be_bytes 8 (NA (DBOp_NewPayer op)) ++ DBOp_NewData op).
Proof.
  unfold NewContractStateRow.
  assert (Hrow : forall payer data,
            ContractStateTablet_NewRow NA
              (NewContractStateTablet (DBOp_Code op) (DBOp_Scope op) (DBOp_TableName op))
              blockNum (DBOp_PrimaryKey op) payer data false
            = Ok {| Collection := cstPrefix;
                    TabletKey := NewContractStateTablet (DBOp_Code op) (DBOp_Scope op)
                                   (DBOp_TableName op);
                    BlockNumKey := HexBlockNum blockNum;
                    PrimKey := DBOp_PrimaryKey op;
                    Payload := be_bytes 8 (NA payer) ++ data |}).
  { intros payer data. unfold ContractStateTablet_NewRow. cbn [negb].
    rewrite PutUint64_make by lia. cbn [mbind result_bind bind].
    rewrite slice_from_app_length by apply length_be_bytes.
    cbn [mbind result_bind bind].
    rewrite take_app_length' by (now rewrite length_be_bytes).
    rewrite copy_same_length by (unfold make; rewrite length_replicate; lia).
    reflexivity. }
  destruct (DBOp_Op op) eqn:Hop; cbn [negb];
    try (rewrite Hrow; eexists; split; [reflexivity|];
         cbn [Collection TabletKey BlockNumKey PrimKey Payload];
         repeat (split; [reflexivity|]);
         split; [split; [intros H; apply (f_equal (@length byte)) in H;
                         rewrite length_app, length_be_bytes in H; cbn in H; lia
                        | discriminate]
                | reflexivity]).
  eexists. split; [reflexivity|].
  cbn [Collection TabletKey BlockNumKey PrimKey Payload].
  repeat (split; [reflexivity|]). split; [split; reflexivity | congruence].
Qed.

(** X16. [NewContractTableScopeRow] always gives a row, of the tablet of
    the code and table name of the operation, whose primary key is the
    scope.  The payload is empty exactly for a [REMOVE]; for any other
    operation it is the 8 bytes of the payer. *)
Theorem NewContractTableScopeRow_of_op (blockNum : N) (op : TableOp) :
  exists row,
    NewContractTableScopeRow NA blockNum op = Ok row /\
    Collection row = "ctbls"%string /\
    TabletKey row = NewContractTableScopeTablet (TableOp_Code op) (TableOp_TableName op) /\
    BlockNumKey row = HexBlockNum blockNum /\
    PrimKey row = TableOp_Scope op /\
    (Payload row = [] <-> TableOp_Op op = TableOp_OPERATION_REMOVE) /\
    (TableOp_Op op <> TableOp_OPERATION_REMOVE ->
     Payload row = be_bytes 8 (NA (TableOp_Payer op))).
Proof.
  unfold NewContractTableScopeRow.
  assert (Hrow : forall payer,
            ContractTableScopeTablet_NewRow NA
              (NewContractTableScopeTablet (TableOp_Code op) (TableOp_TableName op))
              blockNum (TableOp_Scope op) payer false
            = Ok {| Collection := ctblsPrefix;
                    TabletKey := NewContractTableScopeTablet (TableOp_Code op)
                                   (TableOp_TableName op);
                    BlockNumKey := HexBlockNum blockNum;
                    PrimKey := TableOp_Scope op;
                    Payload := be_bytes 8 (NA payer) |}).
  { intros payer. unfold ContractTableScopeTablet_NewRow. cbn [negb].
    rewrite PutUint64_make by lia.
    cbn [mbind result_bind bind Nat.sub make replicate]. now rewrite app_nil_r. }
  destruct (TableOp_Op op) eqn:Hop; cbn [negb];
    try (rewrite Hrow; eexists; split; [reflexivity|];
         cbn [Collection TabletKey BlockNumKey PrimKey Payload];
         repeat (split; [reflexivity|]);
         split; [split; [discriminate | discriminate]|];
         intros _; reflexivity).
  eexists. split; [reflexivity|].
  cbn [Collection TabletKey BlockNumKey PrimKey Payload].
  repeat (split; [reflexivity|]). split; [split; reflexivity|].
  congruence.
Qed.

End TabletsMoreProperties.

(** ** The order of the keys *)

Lemma N_of_ascii_hexdigit (d : N) :
  d < 16 -> N_of_ascii (hexdigit d) = if d <? 10 then 48 + d else 87 + d.
Proof.
  intros Hd. unfold hexdigit.
  destruct (N.ltb_spec d 10); apply N_ascii_embedding; lia.
Qed.

Lemma compare_hexdigit (x y : N) :
  x < 16 -> y < 16 -> Ascii.compare (hexdigit x) (hexdigit y) = (x ?= y).
Proof.
  intros Hx Hy. unfold Ascii.compare. rewrite !N_of_ascii_hexdigit by assumption.
  destruct (N.ltb_spec x 10), (N.ltb_spec y 10);
    destruct (N.compare_spec x y) as [Hc|Hc|Hc];
    first [ apply N.compare_eq_iff; lia
          | apply N.compare_lt_iff; lia
          | apply N.compare_gt_iff; lia ].
Qed.

Lemma compare_app_prefix (p x y : string) :
  String.compare (p +:+ x) (p +:+ y) = String.compare x y.
Proof.
  induction p as [|c p IH]; [reflexivity|].
  change (String.compare (String c (p +:+ x)) (String c (p +:+ y)) = String.compare x y).
  cbn [String.compare]. unfold Ascii.compare. now rewrite N.compare_refl.
Qed.

(** Hex texts of one width compare as their numbers do, whatever follows
    them. *)
Lemma compare_hex_fixed (w : nat) (a b : N) (x y : string) :
  a < 16 ^ N.of_nat w -> b < 16 ^ N.of_nat w ->
  String.compare (hex_fixed w a +:+ x) (hex_fixed w b +:+ y)
  = match a ?= b with
    | Eq => String.compare x y
    | c => c
    end.
Proof.
  revert a b. induction w as [|w IH]; intros a b Ha Hb.
  - cbn in Ha, Hb. assert (a = 0) as -> by lia. assert (b = 0) as -> by lia.
    reflexivity.
  - rewrite Nat2N.inj_succ, N.pow_succ_r' in Ha, Hb.
    set (P := 16 ^ N.of_nat w) in *.
    assert (HP : 0 < P) by (apply N.neq_0_lt_0, N.pow_nonzero; lia).
    pose proof (N.div_mod a P ltac:(lia)) as Hda.
    pose proof (N.div_mod b P ltac:(lia)) as Hdb.
    pose proof (N.mod_upper_bound a P ltac:(lia)) as Hra.
    pose proof (N.mod_upper_bound b P ltac:(lia)) as Hrb.
    assert (Hqa : a / P < 16) by (apply N.Div0.div_lt_upper_bound; lia).
    assert (Hqb : b / P < 16) by (apply N.Div0.div_lt_upper_bound; lia).
    cbn [hex_fixed]. fold P.
    change (String.compare
              (String (hexdigit ((a / P) mod 16)) (hex_fixed w a +:+ x))
              (String (hexdigit ((b / P) mod 16)) (hex_fixed w b +:+ y))
            = match a ?= b with Eq => String.compare x y | c => c end).
    cbn [String.compare].
    rewrite !N.mod_small by assumption.
    rewrite compare_hexdigit by assumption.
    assert (Hta : hex_fixed w a = hex_fixed w (a mod P)).
    { rewrite Hda at 1. rewrite (N.mul_comm P). apply hex_fixed_add. }
    assert (Htb : hex_fixed w b = hex_fixed w (b mod P)).
    { rewrite Hdb at 1. rewrite (N.mul_comm P). apply hex_fixed_add. }
    rewrite Hta, Htb, IH by assumption.
    remember (a / P) as qa eqn:Eqa. remember (b / P) as qb eqn:Eqb.
    remember (a mod P) as ra eqn:Era. remember (b mod P) as rb eqn:Erb.
    destruct (N.compare_spec qa qb) as [Hq|Hq|Hq].
    + subst qb.
      destruct (N.compare_spec ra rb) as [Hr|Hr|Hr].
      * replace (a ?= b) with Eq; [reflexivity|].
        symmetry. apply N.compare_eq_iff. lia.
      * replace (a ?= b) with Lt; [reflexivity|].
        symmetry. apply N.compare_lt_iff. lia.
      * replace (a ?= b) with Gt; [reflexivity|].
        symmetry. apply N.compare_gt_iff. lia.
    + assert (Hm : P * (qa + 1) <= P * qb) by (apply N.mul_le_mono_l; lia).
      rewrite N.mul_add_distr_l, N.mul_1_r in Hm.
      replace (a ?= b) with Lt; [reflexivity|].
      symmetry. apply N.compare_lt_iff. lia.
    + assert (Hm : P * (qb + 1) <= P * qa) by (apply N.mul_le_mono_l; lia).
      rewrite N.mul_add_distr_l, N.mul_1_r in Hm.
      replace (a ?= b) with Gt; [reflexivity|].
      symmetry. apply N.compare_gt_iff. lia.
Qed.

(** X17. The row keys that [KeyForRowAt] builds in one tablet sort by
    block number first and by primary key within a block, for both
    tablets. *)
Theorem KeyForRowAt_compare (t : string) (blockNum1 blockNum2 : N)
    (primaryKey1 primaryKey2 : string) :
  blockNum1 < 2 ^ 32 -> blockNum2 < 2 ^ 32 ->
  String.compare (ContractStateTablet_KeyForRowAt t blockNum1 primaryKey1)
                 (ContractStateTablet_KeyForRowAt t blockNum2 primaryKey2)
  = match blockNum1 ?= blockNum2 with
    | Eq => String.compare primaryKey1 primaryKey2
    | c => c
    end /\
  String.compare (ContractTableScopeTablet_KeyForRowAt t blockNum1 primaryKey1)
                 (ContractTableScopeTablet_KeyForRowAt t blockNum2 primaryKey2)
  = match blockNum1 ?= blockNum2 with
    | Eq => String.compare primaryKey1 primaryKey2
    | c => c
    end.
Proof.
  intros H1 H2.
  unfold ContractStateTablet_KeyForRowAt, ContractStateTablet_KeyAt,
    ContractTableScopeTablet_KeyForRowAt, ContractTableScopeTablet_KeyAt, HexBlockNum.
  rewrite !app_assoc_string, !compare_app_prefix.
  rewrite compare_hex_fixed by assumption.
  change (String.compare ("/" +:+ primaryKey1) ("/" +:+ primaryKey2))
    with (String.compare primaryKey1 primaryKey2).
  split; reflexivity.
Qed.

Lemma append_empty_r (s : string) : s +:+ EmptyString = s.
Proof.
  induction s as [|c s IH]; [reflexivity|].
  change (String c (s +:+ EmptyString) = String c s). now rewrite IH.
Qed.

(** X19. The keys under which [IndexTables] stores the snapshots of a
    table sort from the latest block to the earliest, and the keys at or
    after the key from which [getIndex] starts its lookup at [blockNum]
    are those of the snapshots at blocks up to [blockNum]: the first of
    them is the latest snapshot at or before [blockNum]. *)
Theorem index_keys_latest_first (tableKey : string) (blockNum b1 b2 : N) :
  blockNum < 2 ^ 32 -> b1 < 2 ^ 32 -> b2 < 2 ^ 32 ->
  let indexKey b := tableKey +:+ ":" +:+ HexRevBlockNum b in
  String.compare (indexKey b1) (indexKey b2) = (b2 ?= b1) /\
  (String.leb (indexKey blockNum) (indexKey b1) = true <-> b1 <= blockNum).
Proof.
  intros Hn H1 H2 indexKey. unfold indexKey, String.leb, HexRevBlockNum.
  rewrite !compare_app_prefix.
  rewrite <- (append_empty_r (hex_fixed 8 (4294967295 - b1))).
  rewrite <- (append_empty_r (hex_fixed 8 (4294967295 - b2))).
  rewrite <- (append_empty_r (hex_fixed 8 (4294967295 - blockNum))).
  change (2 ^ 32) with 4294967296 in *.
  rewrite !compare_hex_fixed by (change (16 ^ N.of_nat 8) with 4294967296; lia).
  cbn [String.compare]. split.
  - destruct (N.compare_spec b2 b1);
      destruct (N.compare_spec (4294967295 - b1) (4294967295 - b2)); try reflexivity; lia.
  - destruct (N.compare_spec (4294967295 - blockNum) (4294967295 - b1));
      split; intros; try discriminate; try reflexivity; lia.
Qed.

(** ** The snapshot a build starts from *)

(** *** The order of strings *)

Lemma leb_refl (s : string) : String.leb s s = true.
Proof. destruct (String.leb_total s s); assumption. Qed.

Lemma leb_trans (a b c : string) :
  String.leb a b = true -> String.leb b c = true -> String.leb a c = true.
Proof.
  unfold String.leb. revert b c.
  induction a as [|x a IH]; intros [|y b] [|z c]; cbn [String.compare];
    try reflexivity; try discriminate.
  unfold Ascii.compare.
  destruct (N.compare_spec (N_of_ascii x) (N_of_ascii y)) as [Hxy|Hxy|Hxy];
    destruct (N.compare_spec (N_of_ascii y) (N_of_ascii z)) as [Hyz|Hyz|Hyz];
    destruct (N.compare_spec (N_of_ascii x) (N_of_ascii z)) as [Hxz|Hxz|Hxz];
    try reflexivity; try discriminate; try lia.
  apply IH.
Qed.

Lemma HasPrefix_app (p s : string) : HasPrefix (p +:+ s) p = true.
Proof.
  unfold HasPrefix. induction p as [|c p IH]; [now destruct s|].
  change (String c p +:+ s) with (String c (p +:+ s)).
  cbn [String.prefix]. destruct (ascii_dec c c); [exact IH | contradiction].
Qed.

Lemma substring_all (s : string) : String.substring 0 (String.length s) s = s.
Proof.
  induction s as [|c s IH]; [reflexivity|]. cbn. now rewrite IH.
Qed.

Lemma substring_app (p s : string) :
  String.substring (String.length p) (String.length (p +:+ s) - String.length p) (p +:+ s)
  = s.
Proof.
  induction p as [|c p IH].
  - cbn [String.length]. rewrite Nat.sub_0_r. apply substring_all.
  - change (String c p +:+ s) with (String c (p +:+ s)).
    cbn [String.length String.substring Nat.sub]. exact IH.
Qed.

(** *** The keys of the snapshots *)

Lemma snapshot_key_assoc (tableKey : string) (n : N) :
  (tableKey +:+ ":") +:+ HexRevBlockNum n = tableKey +:+ ":" +:+ HexRevBlockNum n.
Proof. apply app_assoc_string. Qed.

(** The key of a later snapshot comes first. *)
Lemma snapshot_key_leb (tableKey : string) (n m : N) :
  n < 2 ^ 32 -> m < 2 ^ 32 ->
  (String.leb (tableKey +:+ ":" +:+ HexRevBlockNum n)
     (tableKey +:+ ":" +:+ HexRevBlockNum m) = true <-> m <= n).
Proof.
  intros Hn Hm. unfold String.leb, HexRevBlockNum.
  rewrite !compare_app_prefix.
  rewrite <- (append_empty_r (hex_fixed 8 (4294967295 - n))).
  rewrite <- (append_empty_r (hex_fixed 8 (4294967295 - m))).
  change (2 ^ 32) with 4294967296 in *.
  rewrite compare_hex_fixed by (change (16 ^ N.of_nat 8) with 4294967296; lia).
  cbn [String.compare].
  destruct (N.compare_spec (4294967295 - n) (4294967295 - m));
    split; intros; try discriminate; try reflexivity; lia.
Qed.

Lemma snapshot_key_prefix (tableKey : string) (n : N) :
  HasPrefix (tableKey +:+ ":" +:+ HexRevBlockNum n) (tableKey +:+ ":") = true.
Proof. rewrite <- snapshot_key_assoc. apply HasPrefix_app. Qed.

(** *** The latest snapshot, in the words of the specification *)

Lemma latest_snapshot_from_spec (entries : gmap string (list byte)) (tableKey : string)
    (fuel : nat) (n : N) :
  (N.to_nat n <= fuel)%nat ->
  match latest_snapshot_from fuel entries tableKey n with
  | Some (m, raw) =>
      m <= n /\ snapshot_at entries tableKey m = Some raw /\
      forall n', m < n' <= n -> snapshot_at entries tableKey n' = None
  | None => forall n', n' <= n -> snapshot_at entries tableKey n' = None
  end.
Proof.
  revert n. induction fuel as [|fuel IH]; intros n Hfuel; cbn [latest_snapshot_from].
  - assert (n = 0) as -> by lia.
    destruct (snapshot_at entries tableKey 0) as [raw|] eqn:E.
    + split; [lia|]. split; [exact E|]. intros n' Hn'. lia.
    + intros n' Hn'. assert (n' = 0) as -> by lia. exact E.
  - destruct (snapshot_at entries tableKey n) as [raw|] eqn:E.
    + split; [lia|]. split; [exact E|]. intros n' Hn'. lia.
    + destruct (N.eqb_spec n 0) as [->|Hnz].
      * intros n' Hn'. assert (n' = 0) as -> by lia. exact E.
      * specialize (IH (n - 1) ltac:(lia)).
        destruct (latest_snapshot_from fuel entries tableKey (n - 1)) as [[m raw]|].
        -- destruct IH as (Hm & Hraw & Hnone). split; [lia|]. split; [exact Hraw|].
           intros n' Hn'. destruct (N.eq_dec n' n) as [->|Hne]; [exact E|].
           apply Hnone. lia.
        -- intros n' Hn'. destruct (N.eq_dec n' n) as [->|Hne]; [exact E|].
           apply IH. lia.
Qed.

Lemma latest_snapshot_Some (entries : gmap string (list byte)) (tableKey : string)
    (blockNum m : N) (raw : list byte) :
  m <= blockNum ->
  snapshot_at entries tableKey m = Some raw ->
  (forall n', m < n' <= blockNum -> snapshot_at entries tableKey n' = None) ->
  latest_snapshot entries tableKey blockNum = Some (m, raw).
Proof.
  intros Hm Hraw Hnone. unfold latest_snapshot.
  pose proof (latest_snapshot_from_spec entries tableKey (N.to_nat blockNum) blockNum
                (le_n _)) as Hspec.
  destruct (latest_snapshot_from _ entries tableKey blockNum) as [[m' raw']|].
  - destruct Hspec as (Hm' & Hraw' & Hnone').
    destruct (N.lt_trichotomy m m') as [Hlt|[->|Hlt]].
    + rewrite Hnone in Hraw' by lia. discriminate.
    + congruence.
    + rewrite Hnone' in Hraw by lia. discriminate.
  - rewrite Hspec in Hraw by lia. discriminate.
Qed.

Lemma latest_snapshot_None (entries : gmap string (list byte)) (tableKey : string)
    (blockNum : N) :
  (forall n', n' <= blockNum -> snapshot_at entries tableKey n' = None) ->
  latest_snapshot entries tableKey blockNum = None.
Proof.
  intros Hnone. unfold latest_snapshot.
  pose proof (latest_snapshot_from_spec entries tableKey (N.to_nat blockNum) blockNum
                (le_n _)) as Hspec.
  destruct (latest_snapshot_from _ entries tableKey blockNum) as [[m raw]|];
    [|reflexivity].
  destruct Hspec as (Hm & Hraw & _). rewrite Hnone in Hraw by lia. discriminate.
Qed.
(** *** [getIndex] and the build against the specification *)

Section SnapshotLookup.

Variable Backend : Type.
Variable NewBatch : Backend -> Backend.
Variable FlushIfFull : Backend -> result Backend.
Variable SetIndex : string -> list byte -> Backend -> Backend.
Variable Flush : Backend -> result Backend.
Variable FetchIndex : Backend -> string -> string -> string -> result (string * list byte).
Variable ScanTabletRows : Backend -> string -> string -> result (list (string * list byte)).
Variable IndexEntries : Backend -> gmap string (list byte).
Variable explodeWritableRowKey : string -> result (string * N * string).
Variable chunkKeyRevBlockNum : string -> string -> result N.
Variable rangeOrder : TableIndex -> list (string * N).

(** The store keeps the contract of [FetchIndex], and
    [chunkKeyRevBlockNum] reads the block number back from the key of a
    snapshot. *)
Hypothesis FetchIndex_first :
  forall b tableKey prefixKey startKey,
    first_index_entry (IndexEntries b) prefixKey startKey
      (FetchIndex b tableKey prefixKey startKey).

Hypothesis chunkKeyRevBlockNum_rev :
  forall prefixKey n,
    n < 2 ^ 32 -> chunkKeyRevBlockNum (prefixKey +:+ HexRevBlockNum n) prefixKey = Ok n.

Abbreviation getIndex_ := (getIndex Backend FetchIndex chunkKeyRevBlockNum).
Abbreviation buildIndex_ :=
  (buildIndex Backend FetchIndex ScanTabletRows explodeWritableRowKey chunkKeyRevBlockNum).
Abbreviation indexTable_ :=
  (indexTable Backend FlushIfFull SetIndex FetchIndex ScanTabletRows
     explodeWritableRowKey chunkKeyRevBlockNum rangeOrder).
Abbreviation indexTablesLoop_ :=
  (indexTablesLoop Backend FlushIfFull SetIndex FetchIndex ScanTabletRows
     explodeWritableRowKey chunkKeyRevBlockNum rangeOrder).
Abbreviation IndexTables_ :=
  (IndexTables Backend NewBatch FlushIfFull SetIndex Flush FetchIndex ScanTabletRows
     explodeWritableRowKey chunkKeyRevBlockNum rangeOrder).
Abbreviation spec_build_ :=
  (spec_build Backend ScanTabletRows IndexEntries explodeWritableRowKey).

(** [getIndex] finds the latest snapshot at or before [blockNum], and
    nothing, without error, when there is none. *)
Lemma getIndex_latest_snapshot (b : Backend) (tableKey : string) (blockNum : N) :
  blockNum < 2 ^ 32 ->
  snapshots_only (IndexEntries b) tableKey ->
  getIndex_ b tableKey blockNum
  = match latest_snapshot (IndexEntries b) tableKey blockNum with
    | Some (n, raw) =>
        index ← wrap "couldn't unmarshal binary index"
                  (NewTableIndexFromBinary tableKey n raw);
        Ok (Some index)
    | None => Ok None
    end.
Proof.
  intros HN Hwf. unfold getIndex.
  pose proof (FetchIndex_first b tableKey (tableKey +:+ ":")
                ((tableKey +:+ ":") +:+ HexRevBlockNum blockNum)) as Hfetch.
  destruct (FetchIndex b tableKey (tableKey +:+ ":")
              ((tableKey +:+ ":") +:+ HexRevBlockNum blockNum)) as [[rowKey rawIndex]|e].
  - destruct Hfetch as (Hin & Hge & Hpre & Hmin).
    destruct (Hwf rowKey rawIndex Hin Hpre) as (m & Hm & ->).
    rewrite snapshot_key_assoc in Hge.
    apply snapshot_key_leb in Hge; [|assumption|assumption].
    rewrite <- snapshot_key_assoc, chunkKeyRevBlockNum_rev by exact Hm.
    rewrite (latest_snapshot_Some (IndexEntries b) tableKey blockNum m rawIndex);
      [reflexivity | exact Hge | exact Hin |].
    intros n' Hn'. unfold snapshot_at.
    destruct (IndexEntries b !! (tableKey +:+ ":" +:+ HexRevBlockNum n')) as [raw'|] eqn:E;
      [|reflexivity].
    assert (Hle : n' <= m).
    { apply (snapshot_key_leb tableKey m n'); [assumption | lia |].
      apply (Hmin _ raw' E).
      - rewrite snapshot_key_assoc. apply snapshot_key_leb; lia.
      - apply snapshot_key_prefix. }
    lia.
  - destruct Hfetch as (-> & Hnone).
    rewrite latest_snapshot_None; [reflexivity|].
    intros n' Hn'. unfold snapshot_at.
    destruct (IndexEntries b !! (tableKey +:+ ":" +:+ HexRevBlockNum n')) as [raw'|] eqn:E;
      [|reflexivity].
    exfalso. apply (Hnone _ raw' E).
    + rewrite snapshot_key_assoc. apply snapshot_key_leb; lia.
    + apply snapshot_key_prefix.
Qed.

(** The build from a given index [start], and the rest of the build of
    the specification from it. *)
Lemma buildIndex_from (b : Backend) (start : TableIndex) (tableKey : string)
    (blockNum : N) (index : TableIndex) :
  buildIndex_ b (Some start) tableKey blockNum = Ok index <->
  exists rows indexMap count,
    ScanTabletRows b
      (tableKey +:+ ":" +:+ HexBlockNum (uint32 (AtBlockNum start + 1)))
      (tableKey +:+ ":" +:+ HexBlockNum (uint32 (blockNum + 1))) = Ok rows /\
    scanRows explodeWritableRowKey rows (Map start, 0%Z) = Ok (indexMap, count) /\
    index = {| AtBlockNum := blockNum;
               Squelched := uint32 (N.of_nat (length rows));
               Map := indexMap |}.
Proof.
  unfold buildIndex. cbn [mbind result_bind bind].
  assert (Hsq : forall rows indexMap count,
            scanRows explodeWritableRowKey rows (Map start, 0%Z) = Ok (indexMap, count) ->
            Z.to_N (count mod 2 ^ 32) = uint32 (N.of_nat (length rows))).
  { intros rows indexMap count Hscan.
    apply scanRows_Ok in Hscan as [Hcount _].
    rewrite Hcount. unfold uint32. cbn [Z.add].
    rewrite <- (N2Z.id (N.of_nat (length rows) mod 2 ^ 32)).
    f_equal. rewrite N2Z.inj_mod, nat_N_Z. reflexivity. }
  destruct (ScanTabletRows b _ _) as [rows|e]; cbn [wrap mbind result_bind bind].
  - destruct (scanRows explodeWritableRowKey rows (Map start, 0%Z))
      as [[indexMap count]|e] eqn:Hscan; cbn [wrap mbind result_bind bind].
    + rewrite (Hsq rows indexMap count Hscan). split.
      * intros Hindex. injection Hindex as <-. now exists rows, indexMap, count.
      * intros (rows' & indexMap' & count' & Hrows & Hscan' & ->).
        injection Hrows as <-. rewrite Hscan in Hscan'. injection Hscan' as <- _.
        reflexivity.
    + split; [discriminate|].
      intros (rows' & indexMap' & count' & Hrows & Hscan' & _).
      injection Hrows as <-. rewrite Hscan in Hscan'. discriminate.
  - split; [discriminate|]. intros (? & ? & ? & ? & _). discriminate.
Qed.

Lemma buildIndex_uncached_start (b : Backend) (tableKey : string) (blockNum : N) :
  blockNum < 2 ^ 32 ->
  snapshots_only (IndexEntries b) tableKey ->
  forall index,
    buildIndex_ b None tableKey blockNum = Ok index <->
    exists start,
      match latest_snapshot (IndexEntries b) tableKey blockNum with
      | Some (n, raw) => NewTableIndexFromBinary tableKey n raw
      | None => Ok NewTableIndex
      end = Ok start /\
      buildIndex_ b (Some start) tableKey blockNum = Ok index.
Proof.
  intros HN Hwf index. unfold buildIndex at 1.
  rewrite getIndex_latest_snapshot by assumption.
  destruct (latest_snapshot (IndexEntries b) tableKey blockNum) as [[n raw]|].
  - destruct (NewTableIndexFromBinary tableKey n raw) as [start|e];
      cbn [wrap mbind result_bind bind].
    + split; [intros H; exists start; split; [reflexivity | exact H]|].
      intros (start' & Hstart & H). injection Hstart as <-. exact H.
    + split; [discriminate|]. intros (? & ? & _). discriminate.
  - cbn [wrap mbind result_bind bind].
    split; [intros H; exists NewTableIndex; split; [reflexivity | exact H]|].
    intros (start' & Hstart & H). injection Hstart as <-. exact H.
Qed.

(** When nothing is cached for the table, the build and the build of the
    specification succeed together, on the same index. *)
Lemma buildIndex_uncached (b : Backend) (tableKey : string) (blockNum : N) :
  blockNum < 2 ^ 32 ->
  snapshots_only (IndexEntries b) tableKey ->
  forall index,
    buildIndex_ b None tableKey blockNum = Ok index <->
    exists expected,
      spec_build_ b tableKey blockNum = Ok expected /\
      AtBlockNum index = AtBlockNum expected /\
      Map index = Map expected /\
      Squelched index = uint32 (Squelched expected).
Proof.
  intros HN Hwf index.
  rewrite (buildIndex_uncached_start b tableKey blockNum HN Hwf index).
  unfold spec_build. split.
  - intros (start & -> & Hbuild). cbn [mbind result_bind bind].
    apply buildIndex_from in Hbuild as (rows & indexMap & count & -> & Hscan & ->).
    cbn [mbind result_bind bind]. rewrite Hscan. cbn [mbind result_bind bind].
    eexists. split; [reflexivity|]. repeat split.
  - intros (expected & Hspec & Hat & Hmap & Hsq).
    apply bind_Ok in Hspec as (start & Hstart & Hspec).
    apply bind_Ok in Hspec as (rows & Hrows & Hspec).
    apply bind_Ok in Hspec as ([indexMap count] & Hscan & Hspec).
    injection Hspec as <-. cbn [AtBlockNum Map Squelched] in *.
    exists start. split; [exact Hstart|].
    apply buildIndex_from. exists rows, indexMap, count.
    split; [exact Hrows|]. split; [exact Hscan|].
    destruct index. cbn in *. congruence.
Qed.

(** The builds of a run go through stores that keep what the store has
    kept from the start. *)
Lemma indexTable_Ok_batch (st st' : Backend * indexCache) (tableKey : string)
    (blockNum : N) :
  indexTable_ st tableKey blockNum = Ok st' ->
  exists b index snapshot key,
    FlushIfFull st.1 = Ok b /\
    buildIndex_ b (GetIndex st.2 tableKey) tableKey blockNum = Ok index /\
    st'.1 = SetIndex key snapshot b /\
    st'.2 = unschedule (ResetCounter (CacheIndex st.2 tableKey index) tableKey) tableKey.
Proof.
  destruct st as [batch idxCache]. unfold indexTable. intros Hturn.
  apply bind_Ok in Hturn as (b & Hflush & Hturn). apply wrap_Ok in Hflush.
  apply bind_Ok in Hturn as (index & Hbuild & Hturn).
  apply bind_Ok in Hturn as (snapshot & _ & Hturn).
  injection Hturn as <-. eexists b, index, snapshot, _. repeat split; assumption.
Qed.

Lemma indexTablesLoop_Inv (Inv : Backend -> Prop) (schedule : list (string * N))
    (st st' : Backend * indexCache) :
  (forall b b', Inv b -> FlushIfFull b = Ok b' -> Inv b') ->
  (forall key value b, Inv b -> Inv (SetIndex key value b)) ->
  NoDup schedule.*1 ->
  Inv st.1 ->
  indexTablesLoop_ schedule st = Ok st' ->
  forall tableKey blockNum,
    (tableKey, blockNum) ∈ schedule ->
    exists b index,
      Inv b /\
      buildIndex_ b (GetIndex st.2 tableKey) tableKey blockNum = Ok index /\
      GetIndex st'.2 tableKey = Some index.
Proof.
  intros Hflush Hset. revert st.
  induction schedule as [|[tk bn] schedule IH]; intros st Hnodup Hinv Hloop
    tableKey blockNum Hin; [inversion Hin|].
  cbn [indexTablesLoop] in Hloop.
  apply bind_Ok in Hloop as (st1 & Hturn & Hloop).
  cbn [fmap list_fmap fst] in Hnodup. apply NoDup_cons in Hnodup as [Hfresh Hnodup].
  apply indexTable_Ok_batch in Hturn as (b & index & snapshot & key & Hb & Hbuild & Hst1 & Hc1).
  assert (Hinvb : Inv b) by (apply (Hflush st.1); assumption).
  assert (Hinv1 : Inv st1.1) by (rewrite Hst1; apply Hset; exact Hinvb).
  apply elem_of_cons in Hin as [Heq|Hin].
  - injection Heq as -> ->.
    exists b, index. split; [exact Hinvb|]. split; [exact Hbuild|].
    destruct (indexTablesLoop_Ok _ _ _ _ _ _ _ _ schedule st1 st' Hnodup Hloop)
      as (_ & Hframe & _).
    destruct (Hframe tk Hfresh) as (-> & _).
    rewrite Hc1. unfold GetIndex. cbn. now rewrite !lookup_insert_eq.
  - assert (Hne : tableKey <> tk).
    { intros ->. apply Hfresh. apply list_elem_of_fmap. now exists (tk, blockNum). }
    destruct (IH st1 Hnodup Hinv1 Hloop tableKey blockNum Hin)
      as (b' & index' & Hinvb' & Hbuild' & Hget').
    exists b', index'. split; [exact Hinvb'|]. split; [|exact Hget'].
    replace (GetIndex st.2 tableKey) with (GetIndex st1.2 tableKey); [exact Hbuild'|].
    rewrite Hc1. unfold GetIndex. cbn. now rewrite !lookup_insert_ne by congruence.
Qed.


End SnapshotLookup.
(** *** The store of the samples keeps the contract *)

Lemma first_entry_spec (entries : list (string * list byte)) :
  match first_entry entries with
  | Some e => e ∈ entries /\ forall e', e' ∈ entries -> String.leb e.1 e'.1 = true
  | None => entries = []
  end.
Proof.
  induction entries as [|e entries IH]; [reflexivity|].
  cbn [first_entry foldr]. fold (first_entry entries).
  destruct (first_entry entries) as [e0|].
  - destruct IH as [Hin Hmin].
    destruct (String.leb e.1 e0.1) eqn:Hle.
    + split; [left|]. intros e' He'. apply elem_of_cons in He' as [->|He'].
      * apply leb_refl.
      * apply (leb_trans _ e0.1); [exact Hle | now apply Hmin].
    + assert (Hge : String.leb e0.1 e.1 = true)
        by (destruct (String.leb_total e.1 e0.1); congruence).
      split; [now right|]. intros e' He'. apply elem_of_cons in He' as [->|He'].
      * exact Hge.
      * now apply Hmin.
  - subst entries. split; [left|].
    intros e' He'. apply list_elem_of_singleton in He' as ->. apply leb_refl.
Qed.

Lemma KV_FetchIndex_first (kv : KV) (tableKey prefixKey startKey : string) :
  first_index_entry (kvIndexes kv) prefixKey startKey
    (KV_FetchIndex kv tableKey prefixKey startKey).
Proof.
  unfold KV_FetchIndex.
  pose proof (first_entry_spec
                (filter (fun row => String.leb startKey row.1 && HasPrefix row.1 prefixKey
                                    = true)
                   (map_to_list (kvIndexes kv)))) as Hspec.
  destruct (first_entry _) as [[key value]|]; cbn [first_index_entry].
  - destruct Hspec as [Hin Hmin].
    apply list_elem_of_filter in Hin as [Hp Hin]. cbn [fst] in Hp.
    apply andb_true_iff in Hp as [Hge Hpre]. apply elem_of_map_to_list in Hin.
    repeat split; try assumption.
    intros key' value' Hin' Hge' Hpre'.
    apply (Hmin (key', value')). apply list_elem_of_filter. split.
    + cbn [fst]. now rewrite Hge', Hpre'.
    + now apply elem_of_map_to_list.
  - split; [reflexivity|]. intros key' value' Hin' Hge' Hpre'.
    assert (Hin : (key', value')
                  ∈ filter (fun row => String.leb startKey row.1
                                       && HasPrefix row.1 prefixKey = true)
                      (map_to_list (kvIndexes kv))).
    { apply list_elem_of_filter. split.
      - cbn [fst]. now rewrite Hge', Hpre'.
      - now apply elem_of_map_to_list. }
    rewrite Hspec in Hin. inversion Hin.
Qed.

Lemma chunkKeyRevBlockNum_model_rev (prefixKey : string) (n : N) :
  n < 2 ^ 32 ->
  chunkKeyRevBlockNum_model (prefixKey +:+ HexRevBlockNum n) prefixKey = Ok n.
Proof.
  intros Hn. unfold chunkKeyRevBlockNum_model.
  rewrite HasPrefix_app, substring_app. unfold HexRevBlockNum.
  rewrite length_hex_fixed. cbn [Nat.eqb].
  change (2 ^ 32) with 4294967296 in Hn.
  rewrite ParseUint16_hex_fixed;
    [| lia | change (16 ^ N.of_nat 8) with 4294967296; lia | reflexivity].
  cbn [mbind result_bind bind]. f_equal. lia.
Qed.

Lemma KV_ScanTabletRows_scanned (kv : KV) (startKey endKey : string)
    (rows : list (string * list byte)) :
  KV_ScanTabletRows kv startKey endKey = Ok rows ->
  scanned_rows (kvRows kv) rows startKey endKey.
Proof.
  unfold KV_ScanTabletRows. intros Hrows. injection Hrows as <-. intros row.
  rewrite list_elem_of_filter, andb_true_iff. tauto.
Qed.

Lemma sample_store_ahead_snapshots_only :
  snapshots_only (kvIndexes sample_store_ahead) sample_table.
Proof.
  intros key raw Hlook Hpre. cbn [sample_store_ahead sample_store kvIndexes] in Hlook.
  apply lookup_insert_Some in Hlook as [[<- _]|[_ Hlook]];
    [exists 9; split; reflexivity|].
  apply lookup_insert_Some in Hlook as [[<- _]|[_ Hlook]];
    [exists 5; split; reflexivity|].
  apply lookup_insert_Some in Hlook as [[<- _]|[_ Hlook]];
    [exists 3; split; reflexivity|].
  rewrite lookup_empty in Hlook. discriminate.
Qed.


(** ** The rows a build scans *)

Lemma row_key_in_range (tableKey rest : string) (first last b : N) :
  first < 2 ^ 32 -> last < 2 ^ 32 -> b < 2 ^ 32 ->
  (String.leb (tableKey +:+ ":" +:+ HexBlockNum first)
     (tableKey +:+ ":" +:+ HexBlockNum b +:+ rest) = true /\
   String.ltb (tableKey +:+ ":" +:+ HexBlockNum b +:+ rest)
     (tableKey +:+ ":" +:+ HexBlockNum last) = true)
  <-> first <= b < last.
Proof.
  intros Hfirst Hlast Hb. unfold String.leb, String.ltb, HexBlockNum.
  rewrite !compare_app_prefix.
  rewrite <- (append_empty_r (hex_fixed 8 first)).
  rewrite <- (append_empty_r (hex_fixed 8 last)).
  rewrite !compare_hex_fixed by assumption.
  destruct (N.compare_spec first b) as [Hc|Hc|Hc];
    destruct (N.compare_spec b last) as [Hd|Hd|Hd];
    destruct rest; cbn; split; try (intros [? ?]); intros; try discriminate; try lia;
    split; reflexivity.
Qed.

Section ScanRange.

Variable Backend : Type.
Variable FetchIndex : Backend -> string -> string -> string -> result (string * list byte).
Variable ScanTabletRows : Backend -> string -> string -> result (list (string * list byte)).
Variable RowTable : Backend -> list (string * list byte).
Variable explodeWritableRowKey : string -> result (string * N * string).
Variable chunkKeyRevBlockNum : string -> string -> result N.

(** The store keeps the contract of [Scan]. *)
Hypothesis ScanTabletRows_range :
  forall b startKey endKey rows,
    ScanTabletRows b startKey endKey = Ok rows ->
    scanned_rows (RowTable b) rows startKey endKey.

(** X18. On a store that keeps the contract of [Scan], a build that
    succeeds has scanned, among the rows whose key is the table key,
    [":"], the hex of a [uint32] block number and anything after it,
    exactly those of the row table whose block number is at least
    [start.AtBlockNum + 1] and below [blockNum + 1], both taken as
    [uint32]s, where [start] is the index the build starts from; the
    number of rows scanned is [Squelched].  The upper bound wraps: a
    build at block [2 ^ 32 - 1] scans no row of the table. *)
Theorem buildIndex_scans_blocks (b : Backend) (cached : option TableIndex)
    (tableKey : string) (blockNum : N) (index : TableIndex) :
  buildIndex Backend FetchIndex ScanTabletRows explodeWritableRowKey chunkKeyRevBlockNum
    b cached tableKey blockNum = Ok index ->
  exists start rows,
    match cached with
    | Some cachedIndex => start = cachedIndex
    | None =>
        exists snapshot,
          getIndex Backend FetchIndex chunkKeyRevBlockNum b tableKey blockNum
          = Ok snapshot /\
          start = default NewTableIndex snapshot
    end /\
    Squelched index = uint32 (N.of_nat (length rows)) /\
    (forall rowBlockNum rest value,
       rowBlockNum < 2 ^ 32 ->
       ((tableKey +:+ ":" +:+ HexBlockNum rowBlockNum +:+ rest, value) ∈ rows <->
        (tableKey +:+ ":" +:+ HexBlockNum rowBlockNum +:+ rest, value) ∈ RowTable b /\
        uint32 (AtBlockNum start + 1) <= rowBlockNum < uint32 (blockNum + 1))) /\
    (blockNum = 2 ^ 32 - 1 ->
     forall rowBlockNum rest value,
       rowBlockNum < 2 ^ 32 ->
       (tableKey +:+ ":" +:+ HexBlockNum rowBlockNum +:+ rest, value) ∉ rows).
Proof.
  intros Hbuild.
  destruct (buildIndex_Ok _ _ _ _ _ b cached tableKey blockNum index Hbuild)
    as (start & rows & Hstart & Hrows & _ & _ & Hsq).
  exists start, rows. split; [exact Hstart|]. split; [exact Hsq|].
  pose proof (ScanTabletRows_range b _ _ rows Hrows) as Hscan.
  assert (Hrange : forall rowBlockNum rest value,
            rowBlockNum < 2 ^ 32 ->
            ((tableKey +:+ ":" +:+ HexBlockNum rowBlockNum +:+ rest, value) ∈ rows <->
             (tableKey +:+ ":" +:+ HexBlockNum rowBlockNum +:+ rest, value) ∈ RowTable b /\
             uint32 (AtBlockNum start + 1) <= rowBlockNum < uint32 (blockNum + 1))).
  { intros rowBlockNum rest value Hb. rewrite (Hscan _). cbn [fst].
    rewrite <- (row_key_in_range tableKey rest _ _ rowBlockNum);
      [tauto | apply N.mod_upper_bound; lia | apply N.mod_upper_bound; lia | exact Hb]. }
  split; [exact Hrange|].
  intros -> rowBlockNum rest value Hb Hin.
  apply Hrange in Hin as [_ [_ Hlt]]; [|exact Hb].
  change (uint32 (2 ^ 32 - 1 + 1)) with 0 in Hlt. lia.
Qed.

End ScanRange.

Lemma buildIndex_scans_blocks_witness :
  exists index,
    KV_buildIndex sample_store (GetIndex sample_cache sample_table) sample_table 7
    = Ok index /\
    exists start rows,
      match GetIndex sample_cache sample_table with
      | Some cachedIndex => start = cachedIndex
      | None =>
          exists snapshot,
            KV_getIndex sample_store sample_table 7 = Ok snapshot /\
            start = default NewTableIndex snapshot
      end /\
      Squelched index = uint32 (N.of_nat (length rows)) /\
      (forall rowBlockNum rest value,
         rowBlockNum < 2 ^ 32 ->
         ((sample_table +:+ ":" +:+ HexBlockNum rowBlockNum +:+ rest, value) ∈ rows <->
          (sample_table +:+ ":" +:+ HexBlockNum rowBlockNum +:+ rest, value)
          ∈ kvRows sample_store /\
          uint32 (AtBlockNum start + 1) <= rowBlockNum < uint32 (7 + 1))) /\
      (7 = 2 ^ 32 - 1 ->
       forall rowBlockNum rest value,
         rowBlockNum < 2 ^ 32 ->
         (sample_table +:+ ":" +:+ HexBlockNum rowBlockNum +:+ rest, value) ∉ rows).
Proof.
  destruct (KV_buildIndex sample_store (GetIndex sample_cache sample_table) sample_table 7)
    as [index|e] eqn:Hbuild.
  - exists index. split; [reflexivity|].
    exact (buildIndex_scans_blocks KV KV_FetchIndex KV_ScanTabletRows kvRows
             explodeWritableRowKey_model chunkKeyRevBlockNum_model
             KV_ScanTabletRows_scanned
             sample_store (GetIndex sample_cache sample_table) sample_table 7 index
             Hbuild).
  - vm_compute in Hbuild. discriminate Hbuild.
Defined.

(** ** More on preparing a read *)

(** X20. [prepareRead] never assigns its named result
    [lastWrittenBlockID]: it is the empty string on every path. *)
Theorem prepareRead_never_sets_lastWrittenBlockID (db : ReadDB) (blockNum : N)
    (irreversibleOnly : bool) :
  lastWrittenBlockID (prepareRead db blockNum irreversibleOnly) = EmptyString.
Proof.
  unfold prepareRead.
  destruct (FetchLastWrittenBlock db) as [lastWrittenBlock|e]; [|reflexivity].
  destruct irreversibleOnly.
  - destruct (_ <? blockNum); reflexivity.
  - cbn [set_chosenBlockNum chosenBlockNum].
    destruct (blockNum =? 0); cbn [chosenBlockNum set_chosenBlockNum];
      destruct (_ <? _); try reflexivity;
      cbn [set_speculativeWrites speculativeWrites]; destruct (last _); reflexivity.
Qed.

(** X21. Without [irreversibleOnly], [prepareRead] chooses the block
    asked for, or the head block for the block number 0.  A block above
    the head is an [AppBlockNumHigherThanHeadBlockError] with no
    speculative writes; any other is accepted, also one at or below the
    last written block, with the speculative writes fetched from the head
    block down to the chosen one and, as [upToBlockID], the hex of the
    block id of the last of them. *)
Theorem prepareRead_speculative (db : ReadDB) (lastWrittenBlock : BlockRef)
    (blockNum : N) :
  FetchLastWrittenBlock db = Ok lastWrittenBlock ->
  let headBlockNum := uint32 (Num (HeadBlock db)) in
  let chosen := if blockNum =? 0 then headBlockNum else blockNum in
  let ret := prepareRead db blockNum false in
  chosenBlockNum ret = chosen /\
  (headBlockNum < blockNum ->
   err ret = Some (AppBlockNumHigherThanHeadBlockError blockNum headBlockNum
                     (uint32 (Num lastWrittenBlock))) /\
   speculativeWrites ret = [] /\ upToBlockID ret = EmptyString) /\
  (blockNum <= headBlockNum ->
   err ret = None /\
   speculativeWrites ret = SpeculativeWritesFetcher db (ID (HeadBlock db)) chosen /\
   upToBlockID ret
   = match last (SpeculativeWritesFetcher db (ID (HeadBlock db)) chosen) with
     | Some wr => EncodeToString (BlockID wr)
     | None => EmptyString
     end).
Proof.
  intros Hfetch headBlockNum chosen ret. unfold ret, prepareRead. rewrite Hfetch.
  cbn [set_chosenBlockNum chosenBlockNum]. fold headBlockNum.
  destruct (N.eqb_spec blockNum 0) as [->|Hnz]; cbn [chosenBlockNum set_chosenBlockNum].
  - rewrite N.ltb_irrefl. cbn [set_speculativeWrites speculativeWrites].
    unfold chosen. cbn [N.eqb].
    destruct (last _); (split; [reflexivity|]); (split; [lia|]); intros _; repeat split.
  - unfold chosen. destruct (N.eqb_spec blockNum 0) as [|_]; [contradiction|].
    destruct (N.ltb_spec headBlockNum blockNum) as [Hlt|Hle].
    + split; [reflexivity|]. split; [intros _; repeat split | lia].
    + cbn [set_speculativeWrites speculativeWrites].
      destruct (last _); (split; [reflexivity|]); (split; [lia|]); intros _; repeat split.
Qed.

(** X22. With [irreversibleOnly], [prepareRead] gives no speculative
    writes and an empty [upToBlockID]; when it succeeds the block asked
    for is at most the last written block, and the block chosen is the
    last written one. *)
Theorem prepareRead_irreversible_no_speculative_writes (db : ReadDB) (blockNum : N) :
  speculativeWrites (prepareRead db blockNum true) = [] /\
  upToBlockID (prepareRead db blockNum true) = EmptyString /\
  (err (prepareRead db blockNum true) = None ->
   exists lastWrittenBlock,
     FetchLastWrittenBlock db = Ok lastWrittenBlock /\
     blockNum <= uint32 (Num lastWrittenBlock) /\
     chosenBlockNum (prepareRead db blockNum true) = uint32 (Num lastWrittenBlock)).
Proof.
  unfold prepareRead.
  destruct (FetchLastWrittenBlock db) as [lastWrittenBlock|e];
    [|repeat split; discriminate].
  destruct (N.ltb_spec (uint32 (Num lastWrittenBlock)) blockNum) as [Hlt|Hle].
  - repeat split. discriminate.
  - cbn. repeat split. intros _. exists lastWrittenBlock. repeat split. exact Hle.
Qed.

Lemma uint32_add_wrap (n k : N) : uint32 (n + k * 2 ^ 32) = uint32 n.
Proof. unfold uint32. apply N.Div0.mod_add. Qed.

Lemma prepareRead_false_ok (db : ReadDB) (blockNum : N) :
  err (prepareRead db blockNum false) = None ->
  let headBlockNum := uint32 (Num (HeadBlock db)) in
  chosenBlockNum (prepareRead db blockNum false)
  = (if blockNum =? 0 then headBlockNum else blockNum) /\
  blockNum <= headBlockNum.
Proof.
  unfold prepareRead.
  destruct (FetchLastWrittenBlock db) as [lastWrittenBlock|e]; [|discriminate].
  cbn [set_chosenBlockNum chosenBlockNum].
  destruct (N.eqb_spec blockNum 0) as [->|Hnz]; cbn [chosenBlockNum set_chosenBlockNum].
  - rewrite N.ltb_irrefl. cbn [set_speculativeWrites speculativeWrites].
    destruct (last _); intros _; split; try reflexivity; lia.
  - destruct (N.ltb_spec (uint32 (Num (HeadBlock db))) blockNum) as [Hlt|Hle];
      [discriminate|].
    cbn [set_speculativeWrites speculativeWrites].
    destruct (last _); intros _; split; try reflexivity; lia.
Qed.

Section FrontEndProperties.

Variable DataTableNotFoundError : string -> string -> error.
Variable Scope : TabletRow -> string.
Variable sort_Slice : list string -> list string.

Abbreviation listTableScopes' := (listTableScopes DataTableNotFoundError).
Abbreviation sortedScopes' := (sortedScopes Scope sort_Slice).
Abbreviation GetTableScopes' := (GetTableScopes Scope sort_Slice).

(** X23. [listTableScopes] always reports the block number that
    [prepareRead] chose.  It succeeds exactly when the read is prepared,
    [ReadTableScopes] gives no error, and, only if it gives no scope,
    [HasSeenTableOnce] answers [true]; the scopes are then those of
    [ReadTableScopes], read at the block asked for, which is at most the
    head block, or at the head block for the block number 0. *)
Theorem listTableScopes_result (db : ReadDB) (sdb : ScopesDB) (account table : string)
    (blockNum : N) :
  let prepared := prepareRead db blockNum false in
  let read := ReadTableScopes sdb (uint32 (chosenBlockNum prepared)) account table
                (speculativeWrites prepared) in
  let ret := listTableScopes' db sdb account table blockNum in
  ret.1.2 = chosenBlockNum prepared /\
  (ret.2 = None <->
   err prepared = None /\ read.2 = None /\
   (read.1 = [] -> HasSeenTableOnce sdb account table = Ok true)) /\
  (ret.2 = None ->
   ret.1.1 = read.1 /\
   blockNum <= uint32 (Num (HeadBlock db)) /\
   ret.1.2 = if blockNum =? 0 then uint32 (Num (HeadBlock db)) else blockNum).
Proof.
  intros prepared read ret. unfold ret, listTableScopes. fold prepared. fold read.
  pose proof (prepareRead_false_ok db blockNum) as Hprep. fold prepared in Hprep.
  destruct (err prepared) as [e|] eqn:Herr.
  { cbn. repeat split; try discriminate. intros [? _]; discriminate. }
  destruct (Hprep eq_refl) as [Hchosen Hle]. clear Hprep.
  destruct read as [scopes [e|]].
  { cbn. repeat split; try discriminate. intros (_ & ? & _); discriminate. }
  destruct scopes as [|scope scopes]; cbn [length Nat.eqb fst snd].
  - destruct (HasSeenTableOnce sdb account table) as [[|]|e] eqn:Hseen; cbn.
    + repeat split; try assumption; try congruence.
    + repeat split; try discriminate.
      intros (_ & _ & Hs). specialize (Hs eq_refl). discriminate.
    + repeat split; try discriminate.
      intros (_ & _ & Hs). specialize (Hs eq_refl). discriminate.
  - cbn. repeat split; try assumption; try congruence.
Qed.

(** X24. When [GetTableScopes] ends without error, the block asked for,
    as the [uint32] it is converted to, is at most the head block; the
    scopes sent are [sortedScopes] of the rows of the table-scope tablet
    of the contract and table, read at that block (the head block for 0),
    one response per scope and in that order, every response with that
    block number; and nothing is sent for a tablet without rows only if
    the table has been seen once. *)
Theorem GetTableScopes_stream (db : ReadDB) (sdb : ScopesDB) (requestBlockNum : N)
    (contract table : string) (sent : list TableScopeResponse) :
  GetTableScopes' db sdb requestBlockNum contract table = (sent, None) ->
  let headBlockNum := uint32 (Num (HeadBlock db)) in
  let blockNum := requestBlockNum mod 2 ^ 32 in
  let actualBlockNum := if blockNum =? 0 then headBlockNum else blockNum in
  blockNum <= headBlockNum /\
  exists tabletRows,
    ReadTabletAt sdb actualBlockNum (NewContractTableScopeTablet contract table)
      (speculativeWrites (prepareRead db blockNum false)) = Ok tabletRows /\
    map Response_Scope sent = sortedScopes' tabletRows /\
    Forall (fun response => Response_BlockNum response = actualBlockNum) sent /\
    (tabletRows = [] -> sent = [] /\ HasSeenTableOnce sdb contract table = Ok true).
Proof.
  intros Hrun headBlockNum blockNum actualBlockNum.
  unfold GetTableScopes in Hrun. fold (uint32 requestBlockNum) in blockNum.
  fold blockNum in Hrun.
  pose proof (prepareRead_false_ok db blockNum) as Hprep.
  destruct (err (prepareRead db blockNum false)) as [e|]; [discriminate|].
  destruct (Hprep eq_refl) as [Hchosen Hle]. clear Hprep.
  fold headBlockNum in Hchosen, Hle. fold actualBlockNum in Hchosen.
  rewrite Hchosen in Hrun.
  split; [exact Hle|].
  destruct (ReadTabletAt sdb actualBlockNum _ _) as [tabletRows|e] eqn:Hread;
    [|discriminate].
  exists tabletRows. split; [reflexivity|].
  assert (Hsent :
    sent = map (fun scope => {| Response_BlockNum := actualBlockNum;
                                Response_Scope := scope |}) (sortedScopes' tabletRows) /\
    (sortedScopes' tabletRows = [] -> HasSeenTableOnce sdb contract table = Ok true)).
  { destruct (sortedScopes' tabletRows) as [|scope scopes]; cbn [length Nat.eqb] in Hrun.
    - destruct (HasSeenTableOnce sdb contract table) as [[|]|e]; try discriminate.
      injection Hrun as <-. split; reflexivity.
    - injection Hrun as <-. split; [reflexivity|discriminate]. }
  destruct Hsent as [-> Hseen].
  split; [|split].
  - rewrite map_map. cbn. apply map_id.
  - apply Forall_map, Forall_forall. reflexivity.
  - intros ->. cbn in *. split; [reflexivity|]. apply Hseen. reflexivity.
Qed.

(** X25. [GetTableScopes] keeps the low 32 bits of the block number of
    the request: two requests whose block numbers differ by a multiple of
    [2 ^ 32] are answered alike. *)
Theorem GetTableScopes_block_num_truncated (db : ReadDB) (sdb : ScopesDB)
    (requestBlockNum k : N) (contract table : string) :
  GetTableScopes' db sdb (requestBlockNum + k * 2 ^ 32) contract table
  = GetTableScopes' db sdb requestBlockNum contract table.
Proof.
  unfold GetTableScopes. now rewrite uint32_add_wrap.
Qed.

End FrontEndProperties.

(** ** The properties on the sample data *)

Lemma NewTableIndexFromBinary_well_formed_witness :
  NewTableIndexFromBinary sample_table 7
    (index_blob 8 3 [("0000000000000001", 5); ("0000000000000002", 9)]) = Ok sample_index /\
  [("0000000000000002", 9); ("0000000000000001", 5)] ≡ₚ map_to_list (Map sample_index) /\
  AtBlockNum sample_index = 7 /\
  Squelched sample_index < 2 ^ 32 /\
  map_Forall (fun k v => valid_primary_key (indexPrimaryKeyByteCountByTableKey sample_table) k
                         = true /\ v < 2 ^ 32) (Map sample_index) /\
  exists blob,
    MarshalBinary sample_index sample_table
      [("0000000000000002", 9); ("0000000000000001", 5)] = Ok blob /\
    (length blob
     <= length (index_blob 8 3 [("0000000000000001", 5%N); ("0000000000000002", 9%N)]))%nat /\
    NewTableIndexFromBinary sample_table 7 blob = Ok sample_index.
Proof.
  assert (H1 : NewTableIndexFromBinary sample_table 7
                 (index_blob 8 3 [("0000000000000001", 5); ("0000000000000002", 9)])
               = Ok sample_index)
    by (vm_compute; reflexivity).
  assert (H2 : [("0000000000000002", 9); ("0000000000000001", 5)]
               ≡ₚ map_to_list (Map sample_index))
    by (vm_compute; apply perm_swap).
  split; [exact H1|]. split; [exact H2|].
  exact (NewTableIndexFromBinary_well_formed sample_table 7 _ sample_index _ H1 H2).
Defined.

Lemma MarshalBinary_succeeds_iff_witness :
  [("0000000000000002", 9); ("0000000000000001", 5)] ≡ₚ map_to_list (Map sample_index) /\
  (is_err (MarshalBinary sample_index sample_table
             [("0000000000000002", 9); ("0000000000000001", 5)]) = false <->
   indexPrimaryKeyByteCountByTableKey sample_table <> 0%nat /\
   map_Forall (fun k _ => writable_key (indexPrimaryKeyByteCountByTableKey sample_table) k
                          = true) (Map sample_index)).
Proof.
  assert (H : [("0000000000000002", 9); ("0000000000000001", 5)]
              ≡ₚ map_to_list (Map sample_index))
    by (vm_compute; apply perm_swap).
  split; [exact H|].
  exact (MarshalBinary_succeeds_iff sample_index sample_table _ H).
Defined.

Lemma IndexTables_fails_on_contract_tablets_witness :
  [("cst/eosio:eosio:global", 7)]
  ≡ₚ map_to_list (scheduleIndexing (sample_store, sample_cache_tablet).2) /\
  scheduleIndexing (sample_store, sample_cache_tablet).2 !! "cst/eosio:eosio:global"
  = Some 7 /\
  is_err (KV_IndexTables [("cst/eosio:eosio:global", 7)] (sample_store, sample_cache_tablet))
  = true.
Proof.
  assert (H1 : [("cst/eosio:eosio:global", 7)]
               ≡ₚ map_to_list (scheduleIndexing (sample_store, sample_cache_tablet).2))
    by (vm_compute; reflexivity).
  assert (H2 : "cst/eosio:eosio:global" = NewContractStateTablet "eosio" "eosio" "global"
               \/ "cst/eosio:eosio:global" = NewContractTableScopeTablet "eosio" "global")
    by (left; reflexivity).
  assert (H3 : scheduleIndexing (sample_store, sample_cache_tablet).2
               !! "cst/eosio:eosio:global" = Some 7)
    by (vm_compute; reflexivity).
  split; [exact H1|]. split; [exact H3|].
  exact (IndexTables_fails_on_contract_tablets KV KV_NewBatch KV_FlushIfFull
           KV_SetIndex KV_Flush KV_FetchIndex KV_ScanTabletRows
           explodeWritableRowKey_model chunkKeyRevBlockNum_model
           (fun index => map_to_list (Map index))
           [("cst/eosio:eosio:global", 7)] (sample_store, sample_cache_tablet)
           "cst/eosio:eosio:global" "eosio" "eosio" "global" 7 H1 H2 H3).
Defined.

Lemma shouldTriggerIndexing_after_reset_witness :
  (Z.of_nat 1000 < 2 ^ 63)%Z /\
  GetIndex sample_cache "ts:eosio:other" = None /\
  let t' := Nat.iter 1000 (fun t => IncCount t "ts:eosio:other")
              (ResetCounter sample_cache "ts:eosio:other") in
  GetCount t' "ts:eosio:other" = 1000%Z /\
  shouldTriggerIndexing t' "ts:eosio:other" = true.
Proof.
  assert (H1 : (Z.of_nat 1000 < 2 ^ 63)%Z) by reflexivity.
  assert (H2 : GetIndex sample_cache "ts:eosio:other" = None) by (vm_compute; reflexivity).
  split; [exact H1|]. split; [exact H2|].
  destruct (shouldTriggerIndexing_after_reset sample_cache "ts:eosio:other" 1000 H1)
    as (Hcount & _ & Htrigger).
  split; [exact Hcount|]. apply (Htrigger H2). apply le_n.
Defined.

Lemma IndexTables_then_no_trigger_witness :
  exists fdb',
    [(sample_table, 7)] ≡ₚ map_to_list (scheduleIndexing (sample_store, sample_cache).2) /\
    KV_IndexTables [(sample_table, 7)] (sample_store, sample_cache) = Ok fdb' /\
    scheduleIndexing (sample_store, sample_cache).2 !! sample_table = Some 7 /\
    GetCount fdb'.2 sample_table = 0%Z /\
    shouldTriggerIndexing fdb'.2 sample_table = false.
Proof.
  assert (Hperm : [(sample_table, 7)]
                  ≡ₚ map_to_list (scheduleIndexing (sample_store, sample_cache).2))
    by (vm_compute; reflexivity).
  assert (Hsched : scheduleIndexing (sample_store, sample_cache).2 !! sample_table = Some 7)
    by (vm_compute; reflexivity).
  destruct (KV_IndexTables [(sample_table, 7)] (sample_store, sample_cache))
    as [fdb'|e] eqn:Hrun.
  - exists fdb'. split; [exact Hperm|]. split; [reflexivity|]. split; [exact Hsched|].
    exact (IndexTables_then_no_trigger KV KV_NewBatch KV_FlushIfFull
             KV_SetIndex KV_Flush KV_FetchIndex KV_ScanTabletRows
             explodeWritableRowKey_model chunkKeyRevBlockNum_model
             (fun index => map_to_list (Map index))
             [(sample_table, 7)] (sample_store, sample_cache) fdb' sample_table 7
             Hperm Hrun Hsched).
  - vm_compute in Hrun. discriminate Hrun.
Defined.

Lemma IndexTables_frame_witness :
  exists fdb',
    [(sample_table, 7)] ≡ₚ map_to_list (scheduleIndexing (sample_store, sample_cache).2) /\
    KV_IndexTables [(sample_table, 7)] (sample_store, sample_cache) = Ok fdb' /\
    scheduleIndexing (sample_store, sample_cache).2 !! "ts:eosio:other" = None /\
    GetIndex fdb'.2 "ts:eosio:other" = GetIndex (sample_store, sample_cache).2 "ts:eosio:other" /\
    GetCount fdb'.2 "ts:eosio:other" = GetCount (sample_store, sample_cache).2 "ts:eosio:other" /\
    shouldTriggerIndexing fdb'.2 "ts:eosio:other"
    = shouldTriggerIndexing (sample_store, sample_cache).2 "ts:eosio:other".
Proof.
  assert (Hperm : [(sample_table, 7)]
                  ≡ₚ map_to_list (scheduleIndexing (sample_store, sample_cache).2))
    by (vm_compute; reflexivity).
  assert (Hsched : scheduleIndexing (sample_store, sample_cache).2 !! "ts:eosio:other" = None)
    by (vm_compute; reflexivity).
  destruct (KV_IndexTables [(sample_table, 7)] (sample_store, sample_cache))
    as [fdb'|e] eqn:Hrun.
  - exists fdb'. split; [exact Hperm|]. split; [reflexivity|]. split; [exact Hsched|].
    exact (IndexTables_frame KV KV_NewBatch KV_FlushIfFull
             KV_SetIndex KV_Flush KV_FetchIndex KV_ScanTabletRows
             explodeWritableRowKey_model chunkKeyRevBlockNum_model
             (fun index => map_to_list (Map index))
             [(sample_table, 7)] (sample_store, sample_cache) fdb' "ts:eosio:other"
             Hperm Hrun Hsched).
  - vm_compute in Hrun. discriminate Hrun.
Defined.

Lemma indexTable_persists_cached_index_witness :
  exists st',
    indexTable KV KV_FlushIfFull KV_SetIndex KV_FetchIndex KV_ScanTabletRows
      explodeWritableRowKey_model chunkKeyRevBlockNum_model
      (fun index => map_to_list (Map index))
      (sample_store, sample_cache) sample_table 7 = Ok st' /\
    exists b index snapshot,
      KV_FlushIfFull (sample_store, sample_cache).1 = Ok b /\
      st'.1 = KV_SetIndex (sample_table +:+ ":" +:+ HexRevBlockNum 7) snapshot b /\
      GetIndex st'.2 sample_table = Some index /\
      MarshalBinary index sample_table (map_to_list (Map index)) = Ok snapshot /\
      length snapshot
      = (16 + size (Map index) * (indexPrimaryKeyByteCountByTableKey sample_table + 4))%nat /\
      (map_Forall (fun k v => valid_primary_key
                                (indexPrimaryKeyByteCountByTableKey sample_table) k
                              = true /\ v < 2 ^ 32) (Map index) ->
       NewTableIndexFromBinary sample_table 7 snapshot = Ok index).
Proof.
  assert (Horder : forall index : TableIndex,
            map_to_list (Map index) ≡ₚ map_to_list (Map index))
    by (intros index; reflexivity).
  destruct (indexTable KV KV_FlushIfFull KV_SetIndex KV_FetchIndex KV_ScanTabletRows
              explodeWritableRowKey_model chunkKeyRevBlockNum_model
              (fun index => map_to_list (Map index))
              (sample_store, sample_cache) sample_table 7) as [st'|e] eqn:Hrun.
  - exists st'. split; [reflexivity|].
    exact (indexTable_persists_cached_index KV KV_FlushIfFull KV_SetIndex KV_FetchIndex
             KV_ScanTabletRows explodeWritableRowKey_model chunkKeyRevBlockNum_model
             (fun index => map_to_list (Map index))
             (sample_store, sample_cache) st' sample_table 7 Horder Hrun).
  - vm_compute in Hrun. discriminate Hrun.
Defined.

Lemma ContractStateTablet_Explode_New_witness :
  ContractStateTablet_Explode (NewContractStateTablet "eosio.token" "alice" "accounts")
  = Ok ("cst", "eosio.token", "alice", "accounts").
Proof.
  apply (ContractStateTablet_Explode_New "eosio.token" "alice" "accounts"); reflexivity.
Defined.

Lemma ContractTableScopeTablet_Explode_New_witness :
  ContractTableScopeTablet_Explode (NewContractTableScopeTablet "eosio.token" "accounts")
  = Ok ("ctbls", "eosio.token", "accounts").
Proof.
  apply (ContractTableScopeTablet_Explode_New "eosio.token" "accounts"); reflexivity.
Defined.

Lemma ContractTableScopeTablet_NewRow_payload_witness :
  NameToString (uint64 (StringToName "alice")) = "alice" /\
  exists row,
    ContractTableScopeTablet_NewRow StringToName "ctbls/eosio.token:accounts" 100
      "bob" "alice" false = Ok row /\
    Payload row = be_bytes 8 (StringToName "alice") /\
    ContractTableScopeRow_Payer NameToString row = Ok "alice".
Proof.
  assert (Hname : NameToString (uint64 (StringToName "alice")) = "alice") by reflexivity.
  split; [exact Hname|].
  destruct (ContractTableScopeTablet_NewRow_payload StringToName NameToString
              "ctbls/eosio.token:accounts" 100 "bob" "alice")
    as (row & Hrow & _ & _ & _ & _ & Hpayload & _ & Hpayer).
  exists row. split; [exact Hrow|]. split; [exact Hpayload|].
  apply Hpayer. exact Hname.
Defined.

Lemma ContractStateTablet_NewRowFromKV_NewRow_witness :
  ExplodeTabletRowKey_model "cst/eosio.token:alice:accounts/00000064/EOS"
  = Ok ("cst", "cst/eosio.token:alice:accounts", "00000064", "EOS") /\
  exists row row',
    ContractStateTablet_NewRow StringToName "cst/eosio.token:alice:accounts" 100
      "EOS" "Bob" [x01; x02] false = Ok row /\
    ContractStateTablet_NewRowFromKV ExplodeTabletRowKey_model
      "cst/eosio.token:alice:accounts" "cst/eosio.token:alice:accounts/00000064/EOS"
      (Payload row) = Ok row' /\
    Payload row' = Payload row /\
    TabletKey row' = "cst/eosio.token:alice:accounts" /\
    BlockNumKey row' = "00000064" /\ PrimKey row' = "EOS" /\
    ContractStateRow_Payer NameToString row'
    = Ok (NameToString (uint64 (StringToName "Bob"))) /\
    ContractStateRow_Data row' = Ok [x01; x02].
Proof.
  split; [reflexivity|].
  apply (ContractStateTablet_NewRowFromKV_NewRow StringToName NameToString
           ExplodeTabletRowKey_model
           "cst/eosio.token:alice:accounts" "cst/eosio.token:alice:accounts"
           "cst/eosio.token:alice:accounts/00000064/EOS" 100 "EOS" "Bob" [x01; x02]
           "cst" "cst/eosio.token:alice:accounts" "00000064" "EOS");
    reflexivity.
Defined.

Lemma EncodePrimaryKey_DecodePrimaryKey_witness :
  (ContractStateTablet_PrimaryKeyByteCount "cst/eosio.token:alice:accounts"
   <= length (replicate 12 xff))%nat /\
  exists buffer',
    ContractStateTablet_EncodePrimaryKey StringToName "cst/eosio.token:alice:accounts"
      (replicate 12 xff) "alice" = Ok buffer' /\
    length buffer' = 12%nat /\
    drop 8 buffer' = [xff; xff; xff; xff] /\
    ContractStateTablet_DecodePrimaryKey NameToString "cst/eosio.token:alice:accounts"
      buffer' = Ok "alice" /\
    ContractTableScopeTablet_EncodePrimaryKey StringToName "cst/eosio.token:alice:accounts"
      (replicate 12 xff) "alice" = Ok buffer' /\
    ContractTableScopeTablet_DecodePrimaryKey NameToString "cst/eosio.token:alice:accounts"
      buffer' = Ok "alice".
Proof.
  assert (H : (ContractStateTablet_PrimaryKeyByteCount "cst/eosio.token:alice:accounts"
               <= length (replicate 12 xff))%nat) by (vm_compute; lia).
  split; [exact H|].
  exact (proj2 (proj2 (EncodePrimaryKey_DecodePrimaryKey StringToName NameToString
                         "cst/eosio.token:alice:accounts" (replicate 12 xff) "alice"))
           H).
Defined.

Lemma KeyForRowAt_compare_witness :
  5 < 2 ^ 32 /\ 7 < 2 ^ 32 /\
  String.compare
    (ContractStateTablet_KeyForRowAt "cst/eosio.token:alice:accounts" 5 "zzz")
    (ContractStateTablet_KeyForRowAt "cst/eosio.token:alice:accounts" 7 "aaa") = Lt /\
  String.compare
    (ContractTableScopeTablet_KeyForRowAt "cst/eosio.token:alice:accounts" 5 "zzz")
    (ContractTableScopeTablet_KeyForRowAt "cst/eosio.token:alice:accounts" 7 "aaa") = Lt.
Proof.
  assert (H1 : 5 < 2 ^ 32) by reflexivity.
  assert (H2 : 7 < 2 ^ 32) by reflexivity.
  split; [exact H1|]. split; [exact H2|].
  exact (KeyForRowAt_compare "cst/eosio.token:alice:accounts" 5 7 "zzz" "aaa" H1 H2).
Defined.

Lemma index_keys_latest_first_witness :
  7 < 2 ^ 32 /\ 5 < 2 ^ 32 /\ 3 < 2 ^ 32 /\
  String.compare (sample_table +:+ ":" +:+ HexRevBlockNum 5)
    (sample_table +:+ ":" +:+ HexRevBlockNum 3) = (3 ?= 5) /\
  (String.leb (sample_table +:+ ":" +:+ HexRevBlockNum 7)
     (sample_table +:+ ":" +:+ HexRevBlockNum 5) = true <-> 5 <= 7).
Proof.
  assert (H1 : 7 < 2 ^ 32) by reflexivity.
  assert (H2 : 5 < 2 ^ 32) by reflexivity.
  assert (H3 : 3 < 2 ^ 32) by reflexivity.
  split; [exact H1|]. split; [exact H2|]. split; [exact H3|].
  exact (index_keys_latest_first sample_table 7 5 3 H1 H2 H3).
Defined.

Lemma prepareRead_speculative_witness :
  FetchLastWrittenBlock db_lib10_head12 = Ok {| ID := "0000000a"; Num := 10 |} /\
  chosenBlockNum (prepareRead db_lib10_head12 5 false) = 5 /\
  err (prepareRead db_lib10_head12 5 false) = None.
Proof.
  assert (H : FetchLastWrittenBlock db_lib10_head12 = Ok {| ID := "0000000a"; Num := 10 |})
    by reflexivity.
  split; [exact H|].
  destruct (prepareRead_speculative db_lib10_head12 {| ID := "0000000a"; Num := 10 |} 5 H)
    as (Hchosen & _ & Hok).
  split; [exact Hchosen|]. apply Hok. vm_compute. discriminate.
Defined.

Lemma GetTableScopes_stream_witness :
  GetTableScopes PrimKey sample_sort db_lib10_head12 sample_scopes_db 0
    "eosio.token" "accounts"
  = ([ {| Response_BlockNum := 12; Response_Scope := "alice" |};
       {| Response_BlockNum := 12; Response_Scope := "bob" |} ], None) /\
  exists tabletRows,
    ReadTabletAt sample_scopes_db 12 (NewContractTableScopeTablet "eosio.token" "accounts")
      (speculativeWrites (prepareRead db_lib10_head12 0 false)) = Ok tabletRows /\
    ["alice"; "bob"] = sortedScopes PrimKey sample_sort tabletRows.
Proof.
  assert (Hrun : GetTableScopes PrimKey sample_sort db_lib10_head12 sample_scopes_db 0
                   "eosio.token" "accounts"
                 = ([ {| Response_BlockNum := 12; Response_Scope := "alice" |};
                      {| Response_BlockNum := 12; Response_Scope := "bob" |} ], None))
    by (vm_compute; reflexivity).
  split; [exact Hrun|].
  destruct (GetTableScopes_stream PrimKey sample_sort db_lib10_head12 sample_scopes_db 0
              "eosio.token" "accounts" _ Hrun)
    as (_ & tabletRows & Hread & Hscopes & _).
  exists tabletRows. split; [exact Hread | exact Hscopes].
Defined.
